(** * Intelligent sump-pump controller: a shallow embedding of [pump-script.py]

    The development follows the layout of the script:
    - [PyNum]: the numeric values the script computes with (Python [int] and
      IEEE-754 binary64 [float]), with Python's comparison, [min], [max],
      [int()] and mixed arithmetic;
    - [Pump]: the controller object, the state file, the override channel and
      the methods of [IntelligentPumpController], as computations in a state
      monad with exceptions. The replies of the relay, the power meter and
      the weather service, and what the operator deposits during a wait, are
      arguments of the methods that meet them;
    - [Scenario]: concrete inputs;
    - facts about the numbers, the off-time policy, telemetry, persistence
      and the cycle. *)

From Stdlib Require Import ZArith Bool List String Ascii Lia.
From Stdlib Require Import Floats.SpecFloat.
From stdpp Require Import base option gmap strings.

Local Open Scope Z_scope.

(** ** Python numbers *)

Module PyNum.

(** A Python number is an unbounded [int] or a binary64 [float]
    (53 bits of precision, infinities at exponent 1024). *)
Inductive num :=
| NInt (z : Z)
| NFloat (f : spec_float).

Definition prec : Z := 53.
Definition emax : Z := 1024.

(** Exceptions the numeric operations of the script can raise. *)
Inductive exn :=
| OverflowError
| ValueError
| TypeError
| ZeroDivisionError.

Inductive result (A : Type) :=
| Ok (a : A)
| Raise (e : exn).
Arguments Ok {A} a.
Arguments Raise {A} e.

Definition rbind {A B} (r : result A) (k : A -> result B) : result B :=
  match r with
  | Ok a => k a
  | Raise e => Raise e
  end.

(** [float(z)] for an [int]: round to nearest even; an [int] beyond the
    range of binary64 raises [OverflowError]. *)
Definition float_of_int (z : Z) : result spec_float :=
  match binary_normalize prec emax z 0 false with
  | S754_infinity _ => Raise OverflowError
  | f => Ok f
  end.

(** Float literals of the script: the binary64 nearest to the decimal. *)
Definition lit (n d : Z) : spec_float :=
  SFdiv prec emax (binary_normalize prec emax n 0 false)
                  (binary_normalize prec emax d 0 false).

Definition f0_5 : spec_float := Eval vm_compute in lit 1 2.
Definition f0_7 : spec_float := Eval vm_compute in lit 7 10.
Definition f0_8 : spec_float := Eval vm_compute in lit 8 10.
Definition f0_9 : spec_float := Eval vm_compute in lit 9 10.
Definition f1_0 : spec_float := Eval vm_compute in lit 1 1.
Definition f2_0 : spec_float := Eval vm_compute in lit 2 1.
Definition f2_5 : spec_float := Eval vm_compute in lit 5 2.

(** The exact value of a number: NaN, an infinity, or the dyadic rational
    [m * 2^e]. *)
Inductive xval :=
| XNaN
| XInf (neg : bool)
| XFin (m e : Z).

Definition float_val (f : spec_float) : xval :=
  match f with
  | S754_zero _ => XFin 0 0
  | S754_infinity s => XInf s
  | S754_nan => XNaN
  | S754_finite s m e => XFin (cond_Zopp s (Zpos m)) e
  end.

Definition num_val (n : num) : xval :=
  match n with
  | NInt z => XFin z 0
  | NFloat f => float_val f
  end.

(** Comparison of [m1 * 2^e1] with [m2 * 2^e2], exactly. *)
Definition dy_compare (m1 e1 m2 e2 : Z) : comparison :=
  let e := Z.min e1 e2 in
  (m1 * 2 ^ (e1 - e) ?= m2 * 2 ^ (e2 - e)).

(** Python compares numbers by value, also an [int] with a [float]; any
    comparison with NaN is false ([None] here). *)
Definition xcompare (a b : xval) : option comparison :=
  match a, b with
  | XNaN, _ | _, XNaN => None
  | XInf s1, XInf s2 =>
      Some (match s1, s2 with
            | true, false => Lt
            | false, true => Gt
            | _, _ => Eq
            end)
  | XInf s, XFin _ _ => Some (if s then Lt else Gt)
  | XFin _ _, XInf s => Some (if s then Gt else Lt)
  | XFin m1 e1, XFin m2 e2 => Some (dy_compare m1 e1 m2 e2)
  end.

Definition num_compare (a b : num) : option comparison :=
  xcompare (num_val a) (num_val b).

Definition num_ltb (a b : num) : bool :=
  match num_compare a b with Some Lt => true | _ => false end.
Definition num_leb (a b : num) : bool :=
  match num_compare a b with Some Lt | Some Eq => true | _ => false end.
Definition num_gtb (a b : num) : bool := num_ltb b a.

(** [min(a, b)] keeps its first argument unless the second is smaller;
    [max(a, b)] keeps its first argument unless the second is greater. *)
Definition py_min (a b : num) : num := if num_ltb b a then b else a.
Definition py_max (a b : num) : num := if num_gtb b a then b else a.

(** [int(x)]: the identity on [int], truncation toward zero on a finite
    [float]; infinities and NaN raise. *)
Definition py_int (n : num) : result Z :=
  match n with
  | NInt z => Ok z
  | NFloat f =>
      match float_val f with
      | XNaN => Raise ValueError
      | XInf _ => Raise OverflowError
      | XFin m e => Ok (if 0 <=? e then m * 2 ^ e else Z.quot m (2 ^ (- e)))
      end
  end.

Definition to_float (n : num) : result spec_float :=
  match n with
  | NInt z => float_of_int z
  | NFloat f => Ok f
  end.

(** [a * b], [a + b] and [a / b]: [int] arithmetic when both are [int]
    (but [/] always yields a [float]), otherwise both operands are taken to
    [float]. *)
Definition num_mul (a b : num) : result num :=
  match a, b with
  | NInt x, NInt y => Ok (NInt (x * y))
  | _, _ =>
      rbind (to_float a) (fun x =>
      rbind (to_float b) (fun y => Ok (NFloat (SFmul prec emax x y))))
  end.

Definition num_add (a b : num) : result num :=
  match a, b with
  | NInt x, NInt y => Ok (NInt (x + y))
  | _, _ =>
      rbind (to_float a) (fun x =>
      rbind (to_float b) (fun y => Ok (NFloat (SFadd prec emax x y))))
  end.

Definition is_zero (n : num) : bool :=
  match num_val n with
  | XFin 0 _ => true
  | _ => false
  end.

(** [a / b] where the dividend is a [float] (the only use in the script:
    a sum of float readings over a count). *)
Definition float_div (a : spec_float) (b : num) : result num :=
  if is_zero b then Raise ZeroDivisionError
  else rbind (to_float b) (fun y => Ok (NFloat (SFdiv prec emax a y))).

End PyNum.

(** ** The controller *)

Module Pump.
Import PyNum.

(** *** Configuration constants *)

Definition PUMP_ON_TIME : Z := 45.
Definition BASE_OFF_TIME : Z := 420.
Definition MIN_OFF_TIME : Z := 300.
Definition MAX_OFF_TIME : Z := 86400.

Definition WORKING_POWER_THRESHOLD : Z := 200.
Definition IDLE_POWER_THRESHOLD : Z := 100.
Definition MIN_WORKING_TIME : Z := 3.

Definition SHORT_RUN_THRESHOLD : Z := 8.
Definition OPTIMAL_RUN_THRESHOLD : Z := 15.

Definition LIGHT_RAIN_FACTOR : spec_float := f0_7.
Definition HEAVY_RAIN_FACTOR : spec_float := f0_5.
Definition HEAVY_RAIN_THRESHOLD : spec_float := f2_5.

(** *** Data *)

(** [self.weather_data]: the dict built by [get_weather_data]. *)
Record weather := {
  condition : string;
  rain_1h : num;
  description : string
}.

(** The dict returned by [get_power_data]. *)
Record sample := {
  power_w : spec_float;
  current_a : spec_float;
  voltage_v : spec_float;
  timestamp : Z
}.

(** The dict returned by [monitor_pump_performance]. *)
Record performance := {
  working_time : num;
  total_time : Z;
  avg_power : num;
  max_power : num;
  min_power : num;
  power_readings : list sample
}.

(** The attributes of [IntelligentPumpController] (the HTTP session and the
    logger handle carry no data of their own). *)
Record controller := {
  cycle_count : Z;
  current_off_time : Z;
  manual_override : option Z;
  override_command : option string;
  weather_data : option weather;
  pump_status : string;
  next_cycle_time : option Z;
  is_running : bool;
  healthcheck_url : string;
  weather_api_key : string;
  location : string
}.

Definition set_cycle_count (v : Z) (c : controller) : controller :=
  {| cycle_count := v; current_off_time := current_off_time c;
     manual_override := manual_override c;
     override_command := override_command c; weather_data := weather_data c;
     pump_status := pump_status c; next_cycle_time := next_cycle_time c;
     is_running := is_running c; healthcheck_url := healthcheck_url c;
     weather_api_key := weather_api_key c; location := location c |}.

Definition set_current_off_time (v : Z) (c : controller) : controller :=
  {| cycle_count := cycle_count c; current_off_time := v;
     manual_override := manual_override c;
     override_command := override_command c; weather_data := weather_data c;
     pump_status := pump_status c; next_cycle_time := next_cycle_time c;
     is_running := is_running c; healthcheck_url := healthcheck_url c;
     weather_api_key := weather_api_key c; location := location c |}.

Definition set_manual_override (v : option Z) (c : controller) : controller :=
  {| cycle_count := cycle_count c; current_off_time := current_off_time c;
     manual_override := v;
     override_command := override_command c; weather_data := weather_data c;
     pump_status := pump_status c; next_cycle_time := next_cycle_time c;
     is_running := is_running c; healthcheck_url := healthcheck_url c;
     weather_api_key := weather_api_key c; location := location c |}.

Definition set_override_command (v : option string) (c : controller)
  : controller :=
  {| cycle_count := cycle_count c; current_off_time := current_off_time c;
     manual_override := manual_override c;
     override_command := v; weather_data := weather_data c;
     pump_status := pump_status c; next_cycle_time := next_cycle_time c;
     is_running := is_running c; healthcheck_url := healthcheck_url c;
     weather_api_key := weather_api_key c; location := location c |}.

Definition set_weather_data (v : option weather) (c : controller)
  : controller :=
  {| cycle_count := cycle_count c; current_off_time := current_off_time c;
     manual_override := manual_override c;
     override_command := override_command c; weather_data := v;
     pump_status := pump_status c; next_cycle_time := next_cycle_time c;
     is_running := is_running c; healthcheck_url := healthcheck_url c;
     weather_api_key := weather_api_key c; location := location c |}.

Definition set_pump_status (v : string) (c : controller) : controller :=
  {| cycle_count := cycle_count c; current_off_time := current_off_time c;
     manual_override := manual_override c;
     override_command := override_command c; weather_data := weather_data c;
     pump_status := v; next_cycle_time := next_cycle_time c;
     is_running := is_running c; healthcheck_url := healthcheck_url c;
     weather_api_key := weather_api_key c; location := location c |}.

Definition set_next_cycle_time (v : option Z) (c : controller) : controller :=
  {| cycle_count := cycle_count c; current_off_time := current_off_time c;
     manual_override := manual_override c;
     override_command := override_command c; weather_data := weather_data c;
     pump_status := pump_status c; next_cycle_time := v;
     is_running := is_running c; healthcheck_url := healthcheck_url c;
     weather_api_key := weather_api_key c; location := location c |}.

Definition set_is_running (v : bool) (c : controller) : controller :=
  {| cycle_count := cycle_count c; current_off_time := current_off_time c;
     manual_override := manual_override c;
     override_command := override_command c; weather_data := weather_data c;
     pump_status := pump_status c; next_cycle_time := next_cycle_time c;
     is_running := v; healthcheck_url := healthcheck_url c;
     weather_api_key := weather_api_key c; location := location c |}.

Definition set_healthcheck_url (v : string) (c : controller) : controller :=
  {| cycle_count := cycle_count c; current_off_time := current_off_time c;
     manual_override := manual_override c;
     override_command := override_command c; weather_data := weather_data c;
     pump_status := pump_status c; next_cycle_time := next_cycle_time c;
     is_running := is_running c; healthcheck_url := v;
     weather_api_key := weather_api_key c; location := location c |}.

Definition set_weather_api_key (v : string) (c : controller) : controller :=
  {| cycle_count := cycle_count c; current_off_time := current_off_time c;
     manual_override := manual_override c;
     override_command := override_command c; weather_data := weather_data c;
     pump_status := pump_status c; next_cycle_time := next_cycle_time c;
     is_running := is_running c; healthcheck_url := healthcheck_url c;
     weather_api_key := v; location := location c |}.

Definition set_location (v : string) (c : controller) : controller :=
  {| cycle_count := cycle_count c; current_off_time := current_off_time c;
     manual_override := manual_override c;
     override_command := override_command c; weather_data := weather_data c;
     pump_status := pump_status c; next_cycle_time := next_cycle_time c;
     is_running := is_running c; healthcheck_url := healthcheck_url c;
     weather_api_key := weather_api_key c; location := v |}.

(** [__init__]: the attribute values of a fresh controller. The three
    connection parameters are the literals of the source, which are empty. *)
Definition __init__ : controller :=
  {| cycle_count := 0; current_off_time := BASE_OFF_TIME;
     manual_override := None; override_command := None;
     weather_data := None; pump_status := "unknown";
     next_cycle_time := None; is_running := false;
     healthcheck_url := ""; weather_api_key := ""; location := "" |}.

(** *** The world outside the controller object *)

(** JSON values of the state file. [JTime t] stands for the ISO-8601 text
    of the instant [t] ([datetime.isoformat()]). *)
Inductive json :=
| JNull
| JInt (z : Z)
| JStr (s : string)
| JTime (t : Z).

(** A file is absent, present with content that does not parse to a JSON
    object, or present with a parsed object. *)
Inductive file (A : Type) :=
| Absent
| Garbled
| Holds (a : A).
Arguments Absent {A}.
Arguments Garbled {A}.
Arguments Holds {A} a.

Inductive level := INFO | ERROR | DEBUG.

(** What the process emits. Log lines and notifications carry the text of
    the message with the placeholders of the f-string left in place. A
    [trace] lists the events newest first. *)
Inductive event :=
| Log (l : level) (text : string)
| Notify (text : string)
| RelayPost (action : string)
| CsvRow (p : performance) (next_off_time : Z) (weather_desc : string)
| Sleep (ms : Z).

Record world := {
  ctl : controller;
  config_file : file (gmap string json);
  config_writable : bool;
  override_file : option string;
  clock : Z;
  trace : list event
}.

Definition with_ctl (c : controller) (w : world) : world :=
  {| ctl := c; config_file := config_file w;
     config_writable := config_writable w;
     override_file := override_file w; clock := clock w;
     trace := trace w |}.

Definition with_config_file (f : file (gmap string json)) (w : world)
  : world :=
  {| ctl := ctl w; config_file := f;
     config_writable := config_writable w;
     override_file := override_file w; clock := clock w;
     trace := trace w |}.

Definition with_override_file (f : option string) (w : world) : world :=
  {| ctl := ctl w; config_file := config_file w;
     config_writable := config_writable w;
     override_file := f; clock := clock w; trace := trace w |}.

Definition with_clock (t : Z) (w : world) : world :=
  {| ctl := ctl w; config_file := config_file w;
     config_writable := config_writable w;
     override_file := override_file w; clock := t; trace := trace w |}.

Definition with_trace (t : list event) (w : world) : world :=
  {| ctl := ctl w; config_file := config_file w;
     config_writable := config_writable w;
     override_file := override_file w; clock := clock w; trace := t |}.

(** *** Methods run in a state monad over the world; an exception leaves
    the mutations made before it in place, as in Python. *)

Definition M (A : Type) : Type := world -> result A * world.

Definition ret {A} (a : A) : M A := fun w => (Ok a, w).

Definition bind {A B} (m : M A) (k : A -> M B) : M B :=
  fun w =>
    match m w with
    | (Ok a, w') => k a w'
    | (Raise e, w') => (Raise e, w')
    end.

Notation "'let*' x ':=' m 'in' k" := (bind m (fun x => k))
  (at level 10, x name, m at level 100, k at level 200).
Notation "m ';;' k" := (bind m (fun _ => k))
  (at level 100, k at level 200, right associativity).

Definition lift {A} (r : result A) : M A := fun w => (r, w).

(** [try: m except Exception: h]. *)
Definition try_except {A} (m : M A) (h : exn -> M A) : M A :=
  fun w =>
    match m w with
    | (Ok a, w') => (Ok a, w')
    | (Raise e, w') => h e w'
    end.

Definition self : M controller := fun w => (Ok (ctl w), w).

Definition assign (f : controller -> controller) : M unit :=
  fun w => (Ok tt, with_ctl (f (ctl w)) w).

Definition emit (e : event) : M unit :=
  fun w => (Ok tt, with_trace (e :: trace w) w).

Definition logger (l : level) (text : string) : M unit := emit (Log l text).

Definition now : M Z := fun w => (Ok (clock w), w).

(** [asyncio.sleep]: the clock advances by the requested time. *)
Definition sleep (ms : Z) : M unit :=
  fun w => (Ok tt, with_trace (Sleep ms :: trace w) (with_clock (clock w + ms) w)).

(** [returns m w Q]: run from [w], the method [m] returns normally, with a
    value and a final world that satisfy [Q]. *)
Definition returns {A} (m : M A) (w : world) (Q : A -> world -> Prop) : Prop :=
  exists a w', m w = (Ok a, w') /\ Q a w'.

(** The adaptive schedule and what persists it: the state file, the
    override channel, and the two attributes the state file mirrors (with
    the notification address). *)
Definition schedule (w : world)
  : file (gmap string json) * option string * Z * option Z * string :=
  (config_file w, override_file w, current_off_time (ctl w),
   manual_override (ctl w), healthcheck_url (ctl w)).

(** *** Text helpers

    Commands and weather conditions are taken as ASCII text: on characters
    below 128 the helpers are those of [str]; the characters from 128 on
    are left alone and are never white space, letters or digits. *)

(** [str.isspace] on one character: tab to carriage return, the four
    separators from 28 to 31, and the space. *)
Definition isspace (c : ascii) : bool :=
  let n := nat_of_ascii c in
  ((9 <=? n) && (n <=? 13) || (28 <=? n) && (n <=? 32))%nat.

Definition lower_ascii (c : ascii) : ascii :=
  let n := nat_of_ascii c in
  if ((65 <=? n) && (n <=? 90))%nat then ascii_of_nat (n + 32) else c.

Fixpoint lower (s : string) : string :=
  match s with
  | EmptyString => EmptyString
  | String c t => String (lower_ascii c) (lower t)
  end.

Fixpoint lstrip (s : string) : string :=
  match s with
  | EmptyString => EmptyString
  | String c t => if isspace c then lstrip t else s
  end.

Definition strip (s : string) : string :=
  String.rev (lstrip (String.rev (lstrip s))).

(** [str.split()]: the maximal runs of characters that are not white
    space; [cur] is the run being read, last character first. *)
Fixpoint split_go (cur : option string) (s : string) : list string :=
  match s with
  | EmptyString => option_list (String.rev <$> cur)
  | String c t =>
      if isspace c
      then option_list (String.rev <$> cur) ++ split_go None t
      else split_go (Some (from_option (String c) (String c "") cur)) t
  end.

Definition split : string -> list string := split_go None.

(** [needle in hay]. *)
Fixpoint contains (needle hay : string) : bool :=
  if String.prefix needle hay then true
  else match hay with
       | EmptyString => false
       | String _ t => contains needle t
       end.

Fixpoint digits_value (acc : Z) (s : string) : option Z :=
  match s with
  | EmptyString => Some acc
  | String c t =>
      match Ascii.is_nat c with
      | Some d => digits_value (10 * acc + Z.of_nat d) t
      | None => None
      end
  end.

(** [int(s)] guarded by [s.isdigit()]: [None] when [isdigit] is false. *)
Definition parse_digits (s : string) : option Z :=
  match s with
  | EmptyString => None
  | _ => digits_value 0 s
  end.

(** *** Persistence: [save_config] and [load_config] *)

Definition json_of_override (o : option Z) : json :=
  match o with
  | Some v => JInt v
  | None => JNull
  end.

Definition save_config : M unit :=
  let* c := self in
  let* t := now in
  let config : gmap string json :=
    list_to_map
      [("current_off_time", JInt (current_off_time c));
       ("manual_override", json_of_override (manual_override c));
       ("healthcheck_url", JStr (healthcheck_url c));
       ("weather_api_key", JStr (weather_api_key c));
       ("location", JStr (location c));
       ("last_updated", JTime t)] in
  fun w =>
    if config_writable w
    then (Ok tt, with_config_file (Holds config) w)
    else logger ERROR "Error saving config" w.

(** [config.get(key, default)] read at the type of the attribute it is
    stored in. A value of another JSON type would put a non-number (or a
    non-string) in the attribute; the typed controller cannot hold it, and the
    read raises inside [load_config]'s [try] block instead. *)
Definition get_int (config : gmap string json) (key : string) (default : Z)
  : result Z :=
  match config !! key with
  | None => Ok default
  | Some (JInt z) => Ok z
  | Some _ => Raise TypeError
  end.

Definition get_opt_int (config : gmap string json) (key : string)
  : result (option Z) :=
  match config !! key with
  | None | Some JNull => Ok None
  | Some (JInt z) => Ok (Some z)
  | Some _ => Raise TypeError
  end.

Definition get_str (config : gmap string json) (key : string)
  (default : string) : result string :=
  match config !! key with
  | None => Ok default
  | Some (JStr s) => Ok s
  | Some _ => Raise TypeError
  end.

Definition json_load : M (gmap string json) :=
  fun w =>
    match config_file w with
    | Holds config => (Ok config, w)
    | _ => (Raise ValueError, w)
    end.

Definition load_config : M unit :=
  fun w =>
    match config_file w with
    | Absent => (Ok tt, w)
    | _ =>
        try_except
          (let* config := json_load in
           let* v := lift (get_int config "current_off_time" BASE_OFF_TIME) in
           assign (set_current_off_time v);;
           let* o := lift (get_opt_int config "manual_override") in
           assign (set_manual_override o);;
           let* url := lift (get_str config "healthcheck_url" "") in
           assign (set_healthcheck_url url);;
           let* key := lift (get_str config "weather_api_key" "") in
           assign (set_weather_api_key key);;
           let* c := self in
           let* loc := lift (get_str config "location" (location c)) in
           assign (set_location loc);;
           logger INFO "Config loaded: off_time={current_off_time}s")
          (fun _ => logger ERROR "Error loading config")
          w
    end.

(** *** The off-time policy: [calculate_dynamic_off_time] *)

(** Truth value of [self.manual_override]: [None] and [0] are false. *)
Definition truthy (o : option Z) : bool :=
  match o with
  | Some v => negb (v =? 0)
  | None => false
  end.

(** ['rain' in condition or rain_1h > 0]. *)
Definition rainy (w : weather) : bool :=
  contains "rain" (condition w) || num_gtb (rain_1h w) (NInt 0).

(** [rain_1h > HEAVY_RAIN_THRESHOLD]. *)
Definition heavy_rain (w : weather) : bool :=
  num_gtb (rain_1h w) (NFloat HEAVY_RAIN_THRESHOLD).

(** The [if]/[elif] chain over [working_time]: the first three arms set
    [adjustment_factor] and fall through to the common tail, the last arm
    returns on its own. *)
Inductive regime :=
| Adjust (adjustment_factor : spec_float) (reason : string)
| HeavyLoad.

Definition select_regime (working_time : num) : regime :=
  if num_ltb working_time (NInt SHORT_RUN_THRESHOLD) then
    Adjust f2_0 "insufficient working time"
  else if num_leb working_time (NInt OPTIMAL_RUN_THRESHOLD) then
    Adjust f1_0 "optimal working time - maintaining interval"
  else if num_leb working_time (NInt 30) then
    Adjust f0_7 "excessive working time"
  else HeavyLoad.

(** The [else] arm (heavy load): back to the 5-minute baseline. *)
Definition heavy_load_off_time (wd : option weather) : result Z :=
  let new_off_time := 300 in
  rbind
    (match wd with
     | Some w =>
         if rainy w then
           if heavy_rain w
           then rbind (num_mul (NInt new_off_time) (NFloat f0_8)) py_int
           else rbind (num_mul (NInt new_off_time) (NFloat f0_9)) py_int
         else Ok new_off_time
     | None => Ok new_off_time
     end)
    (fun new_off_time => Ok (Z.max MIN_OFF_TIME new_off_time)).

(** The common tail of the first three arms, after the scaling
    [new_off_time = self.current_off_time * adjustment_factor]: apply the
    weather factor, clamp, truncate. *)
Definition weather_and_limits (wd : option weather) (new_off_time : num)
  : result Z :=
  rbind
    (match wd with
     | Some w =>
         if rainy w then
           let weather_factor :=
             if heavy_rain w then HEAVY_RAIN_FACTOR else LIGHT_RAIN_FACTOR in
           num_mul new_off_time (NFloat weather_factor)
         else Ok new_off_time
     | None => Ok new_off_time
     end)
    (fun new_off_time =>
  let new_off_time :=
    py_max (NInt MIN_OFF_TIME) (py_min (NInt MAX_OFF_TIME) new_off_time) in
  py_int new_off_time).

Definition adjusted_off_time (current : Z) (adjustment_factor : spec_float)
  (wd : option weather) : result Z :=
  rbind (num_mul (NInt current) (NFloat adjustment_factor))
    (weather_and_limits wd).

(** The policy below the override check. *)
Definition adaptive_off_time (working_time : num) : M Z :=
  let* c := self in
  match select_regime working_time with
  | HeavyLoad =>
      let* new_off_time := lift (heavy_load_off_time (weather_data c)) in
      assign (set_current_off_time BASE_OFF_TIME);;
      logger INFO "Off time: HEAVY LOAD - returning to 5-minute baseline";;
      ret new_off_time
  | Adjust adjustment_factor reason =>
      let* new_off_time :=
        lift (adjusted_off_time (current_off_time c) adjustment_factor
                (weather_data c)) in
      logger INFO ("Off time: " +:+ reason);;
      ret new_off_time
  end.

Definition calculate_dynamic_off_time (performance_data : performance)
  : M Z :=
  let working_time := working_time performance_data in
  let* c := self in
  match manual_override c with
  | Some v =>
      if truthy (Some v) then
        logger INFO "Using manual override: {manual_override}s";;
        ret v
      else adaptive_off_time working_time
  | None => adaptive_off_time working_time
  end.

(** *** Collaborators: weather, relay and power meter

    Each network call takes the reply of the device or service as an
    argument. *)

Inductive weather_reply :=
| WeatherOk (main : string) (rain : option num) (desc : string)
| WeatherStatus
| WeatherFailure.

(** The notification service answers a post with status 200, with another
    status, or the post raises (time-out, connection error). *)
Inductive health_reply :=
| HealthOk
| HealthStatus
| HealthFailure.

Inductive relay_reply :=
| RelayOk
| RelayRejected
| RelayStatus
| RelayFailure.

Inductive power_reply :=
| PowerOk (pmom imad volt : spec_float)
| PowerRejected
| PowerStatus
| PowerFailure.

Definition get_weather_data (reply : weather_reply) : M (option weather) :=
  let* c := self in
  if (String.eqb (weather_api_key c) "" ||
      String.eqb (weather_api_key c) "your_api_key")%bool
  then ret None
  else
    match reply with
    | WeatherOk main rain desc =>
        let wd := {| condition := lower main;
                     rain_1h := default (NInt 0) rain;
                     description := desc |} in
        assign (set_weather_data (Some wd));;
        logger INFO "Weather: {description}, Rain: {rain_1h}mm/h";;
        ret (Some wd)
    | WeatherStatus => ret None
    | WeatherFailure =>
        logger ERROR "Error fetching weather";;
        ret None
    end.

(** [control_pump]: at most three attempts, numbered from [attempt]. *)
Fixpoint control_pump_from (action : string) (replies : nat -> relay_reply)
  (attempt remaining : nat) : M bool :=
  match remaining with
  | O => ret false
  | S remaining' =>
      emit (RelayPost action);;
      match replies attempt with
      | RelayOk =>
          assign (set_pump_status action);;
          logger INFO "Pump {action} - Success";;
          ret true
      | RelayRejected =>
          logger ERROR "Pump {action} failed";;
          control_pump_from action replies (S attempt) remaining'
      | RelayStatus =>
          logger ERROR "HTTP {status} when turning pump {action}";;
          control_pump_from action replies (S attempt) remaining'
      | RelayFailure =>
          logger ERROR "Attempt {attempt + 1} failed";;
          (if (attempt <? 2)%nat then sleep 2000 else ret tt);;
          control_pump_from action replies (S attempt) remaining'
      end
  end.

Definition control_pump (action : string) (replies : nat -> relay_reply)
  : M bool :=
  control_pump_from action replies 0 3.

(** The relay confirms a command when one of the three attempts is
    answered with success. *)
Definition is_ok (reply : relay_reply) : bool :=
  match reply with
  | RelayOk => true
  | _ => false
  end.

Definition confirms (replies : nat -> relay_reply) : bool :=
  existsb (fun attempt => is_ok (replies attempt)) (seq 0 3).

Definition get_power_data (reply : power_reply) : M (option sample) :=
  match reply with
  | PowerOk pmom imad volt =>
      let* t := now in
      ret (Some {| power_w := pmom; current_a := imad; voltage_v := volt;
                   timestamp := t |})
  | PowerRejected | PowerStatus => ret None
  | PowerFailure =>
      logger ERROR "Error getting power data";;
      ret None
  end.

(** A poll that yields no sample. *)
Definition failed (reply : power_reply) : bool :=
  match reply with
  | PowerOk _ _ _ => false
  | _ => true
  end.

(** *** Telemetry: [monitor_pump_performance] *)

(** The all-zero summary returned when no reading was collected. *)
Definition no_samples (duration : Z) : performance :=
  {| working_time := NInt 0; total_time := duration;
     avg_power := NInt 0; max_power := NInt 0; min_power := NInt 0;
     power_readings := [] |}.

(** The sampling loop runs once per element of [polls]. In the script the
    guard [time.time() - start_time < duration] decides how many polls fit
    in the window, and the time of a poll includes that of its request; here
    the clock counts the sleeps only, so the number of polls is an input and
    the clock says nothing about the length of the window. *)
Fixpoint sampling_loop (polls : list power_reply) (working_time : num)
  (power_readings : list sample) : M (num * list sample) :=
  match polls with
  | [] => ret (working_time, power_readings)
  | reply :: polls' =>
      let* power_data := get_power_data reply in
      let* acc :=
        match power_data with
        | Some r =>
            let* wt :=
              if num_gtb (NFloat (power_w r)) (NInt WORKING_POWER_THRESHOLD)
              then lift (num_add working_time (NFloat f0_5))
              else ret working_time in
            logger DEBUG "Power: {power_w}W, Working time: {working_time}s";;
            ret (wt, power_readings ++ [r])
        | None => ret (working_time, power_readings)
        end in
      sleep 500;;
      sampling_loop polls' (fst acc) (snd acc)
  end.

(** The running total of working time is [0] or a [float]. *)
Definition tally (wt : num) : Prop := wt = NInt 0 \/ exists f, wt = NFloat f.

(** [sum(xs)], [max(xs)] and [min(xs)] over the readings. The sum is
    accumulated from the [int] 0, left to right, one rounding per addition
    (CPython from 3.12 on compensates the rounding error of a float sum, which
    can change the last bits of [avg_power]; the value only reaches the
    cycle log). *)
Definition py_sum (xs : list spec_float) : result num :=
  fold_left (fun acc x => rbind acc (fun a => num_add a (NFloat x)))
    xs (Ok (NInt 0)).

Definition py_max_list (x : spec_float) (xs : list spec_float) : num :=
  fold_left (fun m y => py_max m (NFloat y)) xs (NFloat x).

Definition py_min_list (x : spec_float) (xs : list spec_float) : num :=
  fold_left (fun m y => py_min m (NFloat y)) xs (NFloat x).

(** [a / b]; the script divides the sum of the readings by their count. *)
Definition num_div (a b : num) : result num :=
  match a with
  | NFloat x => float_div x b
  | NInt _ => rbind (to_float a) (fun x => float_div x b)
  end.

Definition summarize (duration : Z) (working_time : num)
  (power_readings : list sample) : M performance :=
  match power_readings with
  | r :: rs =>
      let x := power_w r in
      let xs := map power_w rs in
      let* total := lift (py_sum (x :: xs)) in
      let* avg :=
        lift (num_div total (NInt (Z.of_nat (length power_readings)))) in
      logger INFO "Performance: {working_time}s working";;
      ret {| working_time := working_time; total_time := duration;
             avg_power := avg; max_power := py_max_list x xs;
             min_power := py_min_list x xs;
             power_readings := power_readings |}
  | [] => ret (no_samples duration)
  end.

Definition monitor_pump_performance (duration : Z) (polls : list power_reply)
  : M performance :=
  logger INFO "Monitoring pump performance for {duration}s...";;
  let* acc := sampling_loop polls (NInt 0) [] in
  summarize duration (fst acc) (snd acc).

(** *** Notifications, the cycle log and the override channel *)

(** [send_health_check]: nothing is posted without a configured address;
    the reply of the service only decides a log line. *)
Definition send_health_check (message : string) (reply : health_reply)
  : M unit :=
  let* c := self in
  if String.eqb (healthcheck_url c) "" then ret tt
  else
    emit (Notify message);;
    match reply with
    | HealthOk => logger INFO "Health check: {message}"
    | HealthStatus => ret tt
    | HealthFailure => logger ERROR "Health check error"
    end.

(** [log_to_csv]: one row appended to the cycle log. *)
Definition log_to_csv (performance_data : performance) (next_off_time : Z)
  (weather_condition : string) : M unit :=
  emit (CsvRow performance_data next_off_time weather_condition);;
  logger INFO "Data logged".

(** The branches of [check_override_commands] on the stripped, lowered
    command text. *)
Definition apply_command (command : string) : M unit :=
  if String.eqb command "stop" then
    logger INFO "OVERRIDE: System stop requested";;
    assign (set_is_running false)
  else if String.eqb command "normal" then
    assign (set_manual_override None);;
    logger INFO "OVERRIDE: Returned to normal operation"
  else if String.prefix "wait" command then
    match split command with
    | [_; arg] =>
        match parse_digits arg with
        | Some minutes =>
            assign (set_manual_override (Some (minutes * 60)));;
            logger INFO "OVERRIDE: Set wait time to {minutes} minutes"
        | None => ret tt
        end
    | _ => ret tt
    end
  else if String.eqb command "pump_now" then
    assign (set_override_command (Some "pump_now"));;
    logger INFO "OVERRIDE: Immediate pump requested"
  else ret tt.

Definition check_override_commands : M unit :=
  fun w =>
    match override_file w with
    | Some text =>
        (apply_command (lower (strip text));;
         (fun w' => (Ok tt, with_override_file None w'));;
         save_config) w
    | None => (Ok tt, w)
    end.

(** [create_override_command]: the command-line side of the channel. *)
Definition create_override_command (command : string) : M unit :=
  fun w => (Ok tt, with_override_file (Some command) w).

(** *** One cycle: [run_cycle] *)

(** What happens between two polls of the wait phase. *)
Inductive tick :=
| Quiet
| Deposit (command : string)
| Signal.

Definition happen (t : tick) : M unit :=
  match t with
  | Quiet => ret tt
  | Deposit command => create_override_command command
  | Signal =>
      logger INFO "Received signal, shutting down gracefully...";;
      assign (set_is_running false)
  end.

(** [self.override_command == "pump_now"]. *)
Definition is_pump_now (o : option string) : bool :=
  match o with
  | Some command => String.eqb command "pump_now"
  | None => false
  end.

(** The wait loop: [while elapsed < next_off_time and self.is_running].
    [fuel] bounds the number of iterations. *)
Fixpoint wait_loop (fuel : nat) (ticks : list tick) (elapsed next_off_time : Z)
  : M unit :=
  match fuel with
  | O => ret tt
  | S fuel' =>
      let* c := self in
      if (elapsed <? next_off_time) && is_running c then
        let check_interval := 30 in
        sleep (1000 * Z.min check_interval (next_off_time - elapsed));;
        happen (hd Quiet ticks);;
        let elapsed := elapsed + check_interval in
        check_override_commands;;
        let* c := self in
        if is_pump_now (override_command c) then
          logger INFO "Override: Immediate pump cycle requested";;
          assign (set_override_command None)
        else wait_loop fuel' (tl ticks) elapsed next_off_time
      else ret tt
  end.

(** Iterations the wait loop can take: one per 30 seconds of wait. *)
Definition wait_fuel (next_off_time : Z) : nat :=
  Z.to_nat (next_off_time / 30 + 1).

(** The replies and events one iteration of the main loop meets.
    [env_health] answers the notifications in the order of the code: 0 the
    one that follows the ON command, 1 the one that ends the cycle (failed
    OFF, or the summary), 2 the one of the loop's exception handler. *)
Record cycle_env := {
  env_weather : weather_reply;
  env_on : nat -> relay_reply;
  env_polls : list power_reply;
  env_off : nat -> relay_reply;
  env_ticks : list tick;
  env_health : nat -> health_reply
}.

Definition run_cycle (env : cycle_env) : M bool :=
  let* c := self in
  assign (set_cycle_count (cycle_count c + 1));;
  get_weather_data (env_weather env);;
  logger INFO "--- Intelligent Cycle {cycle_count} ---";;
  let* on := control_pump "on" (env_on env) in
  if negb on then
    send_health_check "ERROR Cycle {cycle_count}: Failed ON" (env_health env 0);;
    ret false
  else
    send_health_check "Cycle {cycle_count}: Pump ON - monitoring performance"
      (env_health env 0);;
    let* performance_data :=
      monitor_pump_performance PUMP_ON_TIME (env_polls env) in
    let* off := control_pump "off" (env_off env) in
    if negb off then
      logger ERROR "Failed to turn pump OFF";;
      send_health_check "ERROR Cycle {cycle_count}: Failed OFF"
        (env_health env 1);;
      ret false
    else
      let* next_off_time := calculate_dynamic_off_time performance_data in
      assign (set_current_off_time next_off_time);;
      save_config;;
      let* c := self in
      let weather_desc :=
        match weather_data c with
        | Some wd => description wd
        | None => "unknown"
        end in
      log_to_csv performance_data next_off_time weather_desc;;
      let* t := now in
      assign (set_next_cycle_time (Some (t + 1000 * next_off_time)));;
      send_health_check "Cycle {cycle_count}: Working {working_time}s"
        (env_health env 1);;
      logger INFO "Pump OFF for {time_desc}";;
      logger INFO "Next cycle: {next_cycle_time}";;
      wait_loop (wait_fuel next_off_time) (env_ticks env) 0 next_off_time;;
      ret true.

(** *** The main loop and the entry point *)

(** [while self.is_running]: one iteration per element of [envs]; when the
    list ends the task is cancelled ([CancelledError] breaks the loop). *)
Fixpoint controller_loop (envs : list cycle_env) : M unit :=
  match envs with
  | [] => ret tt
  | env :: envs' =>
      let* c := self in
      if is_running c then
        try_except
          (let* success := run_cycle env in
           if negb success then
             logger ERROR "Cycle failed, retrying in 5 minutes";;
             sleep 300000
           else ret tt)
          (fun _ =>
             logger ERROR "Cycle error";;
             send_health_check "ERROR: {e}" (env_health env 2);;
             sleep 60000);;
        controller_loop envs'
      else ret tt
  end.

(** The part of [run_controller] before the loop. *)
Definition startup : M unit :=
  assign (set_is_running true);;
  logger INFO "Starting Intelligent ROWI Controller with Power Monitoring";;
  logger INFO "Device IP: {ROWI_IP}";;
  logger INFO "Timing: {PUMP_ON_TIME}s ON, {BASE_OFF_TIME}s OFF (adaptive)";;
  logger INFO "Sweet Spot: 8-15s working time per cycle";;
  logger INFO "Power thresholds: Working>200W, Idle<100W";;
  logger INFO "Waiting 60 seconds for system startup...";;
  sleep 60000.

Definition run_controller (envs : list cycle_env)
  (shutdown : nat -> relay_reply) : M unit :=
  startup;;
  controller_loop envs;;
  logger INFO "Turning pump OFF before shutdown...";;
  control_pump "off" shutdown;;
  ret tt.

(** A process starts with a fresh controller object; the files are what the
    previous process left. *)
Definition new_process (w : world) : world :=
  with_trace [] (with_ctl __init__ w).

(** [main] with [sys.argv[1:] = argv]. *)
Definition main (argv : list string) (envs : list cycle_env)
  (shutdown : nat -> relay_reply) : M unit :=
  fun w =>
    let w := new_process w in
    match argv with
    | arg :: rest =>
        let command := lower arg in
        if String.eqb command "stop" || String.eqb command "normal" ||
           String.eqb command "pump_now"
        then create_override_command command w
        else if String.prefix "wait" command
        then create_override_command (String.concat " " argv) w
        else if String.eqb command "test"
        then match envs with
             | env :: _ => (run_cycle env;; ret tt) w
             | [] => (Ok tt, w)
             end
        else run_controller envs shutdown w
    | [] => run_controller envs shutdown w
    end.

End Pump.

Import PyNum Pump.

(** ** Concrete inputs used to exercise the theorems *)

Module Scenario.

(** A freshly started process with no files. *)
Definition fresh : world :=
  {| ctl := __init__; config_file := Absent; config_writable := true;
     override_file := None; clock := 0; trace := [] |}.

Definition with_off_time (t : Z) (w : world) : world :=
  with_ctl (set_current_off_time t (ctl w)) w.

Definition with_override (o : option Z) (w : world) : world :=
  with_ctl (set_manual_override o (ctl w)) w.

Definition with_cycle_count (n : Z) (w : world) : world :=
  with_ctl (set_cycle_count n (ctl w)) w.

Definition with_weather (wd : weather) (w : world) : world :=
  with_ctl (set_weather_data (Some wd) (ctl w)) w.

(** A summary with the given working time (in seconds). *)
Definition worked (seconds : num) : performance :=
  {| working_time := seconds; total_time := PUMP_ON_TIME;
     avg_power := NInt 0; max_power := NInt 0; min_power := NInt 0;
     power_readings := [] |}.

(** 7.5 seconds, as the sampling loop counts it: fifteen half-seconds. *)
Definition f7_5 : spec_float := Eval vm_compute in lit 15 2.
Definition seven_and_a_half : num := NFloat f7_5.

Definition raining (mm_per_hour : Z) : weather :=
  {| condition := "rain"; rain_1h := NInt mm_per_hour;
     description := "moderate rain" |}.

(** The files left behind by a process that persisted the given off-time
    and override. *)
Definition left_behind (off_time : Z) (override : option Z) : world :=
  snd (save_config (with_override override (with_off_time off_time fresh))).

(** The relay confirms, or never confirms, every command. *)
Definition relay_ok : nat -> relay_reply := fun _ => RelayOk.
Definition relay_down : nat -> relay_reply := fun _ => RelayFailure.
Definition health_ok : nat -> health_reply := fun _ => HealthOk.

(** A cycle in which every power poll fails and nothing arrives during the
    wait. *)
Definition blind_cycle : cycle_env :=
  {| env_weather := WeatherFailure; env_on := relay_ok;
     env_polls := [PowerFailure; PowerFailure]; env_off := relay_ok;
     env_ticks := []; env_health := health_ok |}.

(** The same cycle with a relay that stops answering once the pump is
    on. *)
Definition stuck_on_cycle : cycle_env :=
  {| env_weather := WeatherFailure; env_on := relay_ok;
     env_polls := [PowerFailure; PowerFailure]; env_off := relay_down;
     env_ticks := []; env_health := health_ok |}.

Definition stored_off_time (w : world) : option json :=
  match config_file w with
  | Holds config => config !! "current_off_time"
  | _ => None
  end.

End Scenario.

(** ** Observations on runs *)

Module Observe.

(** Relay commands sent, newest first. *)
Definition is_post (e : event) : bool :=
  match e with
  | RelayPost _ => true
  | _ => false
  end.

Definition relay_posts (t : list event) : list event :=
  List.filter is_post t.

(** Attempts [control_pump] makes: it stops at the first confirmation. *)
Definition attempts (replies : nat -> relay_reply) : nat :=
  if is_ok (replies 0%nat) then 1
  else if is_ok (replies 1%nat) then 2
  else 3.

Definition is_failure (reply : relay_reply) : bool :=
  match reply with
  | RelayFailure => true
  | _ => false
  end.

(** Time [control_pump] spends in back-off: two seconds after each of the
    first two attempts that ends in an exception. *)
Definition backoff (replies : nat -> relay_reply) : Z :=
  (if is_failure (replies 0%nat) then 2000 else 0) +
  (if negb (is_ok (replies 0%nat)) && is_failure (replies 1%nat)
   then 2000 else 0).

Definition is_notify (e : event) : bool :=
  match e with
  | Notify _ => true
  | _ => false
  end.

(** Notifications posted, newest first. *)
Definition notifications (t : list event) : list event :=
  List.filter is_notify t.

(** What posting [messages] (newest first) adds to the notifications: nothing
    without a configured address. *)
Definition posted (c : controller) (messages : list string) : list event :=
  if String.eqb (healthcheck_url c) "" then [] else map Notify messages.

(** The connection parameters are [url], [key] and [place]; without an
    address the notifications are still [sent], and without a usable weather
    key the snapshot is still [wd]. *)
Definition configured_as (url key place : string) (wd : option weather)
  (sent : list event) (w : world) : Prop :=
  healthcheck_url (ctl w) = url /\ weather_api_key (ctl w) = key /\
  location (ctl w) = place /\
  (url = "" -> notifications (trace w) = sent) /\
  (key = "" \/ key = "your_api_key" -> weather_data (ctl w) = wd).

(** The main loop after a cycle that returned [False]: one error line and
    five minutes of sleep. *)
Definition cool_down (w : world) : world :=
  with_trace
    (Sleep 300000 :: Log ERROR "Cycle failed, retrying in 5 minutes" :: trace w)
    (with_clock (clock w + 300000) w).

(** A reading without its time stamp. *)
Definition reading (r : sample) : spec_float * spec_float * spec_float :=
  (power_w r, current_a r, voltage_v r).

(** The readings of the answered polls, in order. *)
Fixpoint answered (polls : list power_reply)
  : list (spec_float * spec_float * spec_float) :=
  match polls with
  | [] => []
  | PowerOk pmom imad volt :: polls' => (pmom, imad, volt) :: answered polls'
  | _ :: polls' => answered polls'
  end.

(** Every character is below 128. *)
Fixpoint ascii_text (s : string) : bool :=
  match s with
  | EmptyString => true
  | String c t => (nat_of_ascii c <? 128)%nat && ascii_text t
  end.

(** The end of [run_cycle], once the next off-time is stored and saved:
    cycle log, notification, wait. *)
Definition announce_and_wait (env : cycle_env) (performance_data : performance)
  (next_off_time : Z) : M bool :=
  let* c := self in
  let weather_desc :=
    match weather_data c with
    | Some wd => description wd
    | None => "unknown"
    end in
  log_to_csv performance_data next_off_time weather_desc;;
  let* t := now in
  assign (set_next_cycle_time (Some (t + 1000 * next_off_time)));;
  send_health_check "Cycle {cycle_count}: Working {working_time}s"
    (env_health env 1);;
  logger INFO "Pump OFF for {time_desc}";;
  logger INFO "Next cycle: {next_cycle_time}";;
  wait_loop (wait_fuel next_off_time) (env_ticks env) 0 next_off_time;;
  ret true.

(** [run_cycle] from the moment the policy has answered. *)
Definition finish_cycle (env : cycle_env) (performance_data : performance)
  (next_off_time : Z) : M bool :=
  assign (set_current_off_time next_off_time);;
  save_config;;
  announce_and_wait env performance_data next_off_time.

(** [run_cycle] after the cycle counter is incremented. *)
Definition cycle_body (env : cycle_env) : M bool :=
  get_weather_data (env_weather env);;
  logger INFO "--- Intelligent Cycle {cycle_count} ---";;
  let* on := control_pump "on" (env_on env) in
  if negb on then
    send_health_check "ERROR Cycle {cycle_count}: Failed ON" (env_health env 0);;
    ret false
  else
    send_health_check "Cycle {cycle_count}: Pump ON - monitoring performance"
      (env_health env 0);;
    let* performance_data :=
      monitor_pump_performance PUMP_ON_TIME (env_polls env) in
    let* off := control_pump "off" (env_off env) in
    if negb off then
      logger ERROR "Failed to turn pump OFF";;
      send_health_check "ERROR Cycle {cycle_count}: Failed OFF"
        (env_health env 1);;
      ret false
    else
      let* next_off_time := calculate_dynamic_off_time performance_data in
      finish_cycle env performance_data next_off_time.

(** One full poll interval of the wait phase with nothing happening. *)
Definition pause (w : world) : world :=
  with_trace (Sleep 30000 :: trace w) (with_clock (clock w + 30000) w).

(** The wait phase can go on: the controller runs, no command is pending
    in the channel or in the controller. *)
Definition waiting (w : world) : Prop :=
  is_running (ctl w) = true /\ override_file w = None /\
  is_pump_now (override_command (ctl w)) = false.

(** The state file mirrors the controller: it holds the controller's
    [current_off_time] and [manual_override]. *)
Definition mirrors (w : world) : Prop :=
  exists config : gmap string json,
    config_file w = Holds config /\
    config !! "current_off_time" = Some (JInt (current_off_time (ctl w))) /\
    config !! "manual_override" =
      Some (json_of_override (manual_override (ctl w))).

(** The commands of the override channel that act on the controller
    without an argument, and what each does to it. *)
Definition command_effect (command : string)
  : option (controller -> controller) :=
  if String.eqb command "stop" then Some (set_is_running false)
  else if String.eqb command "normal" then Some (set_manual_override None)
  else if String.eqb command "pump_now"
       then Some (set_override_command (Some "pump_now"))
  else None.

(** What the steps of a cycle before the policy leave alone. *)
Definition untouched (o : option Z) (c : Z) (b : bool)
  (f : file (gmap string json)) (w : world) : Prop :=
  manual_override (ctl w) = o /\ current_off_time (ctl w) = c /\
  config_writable w = b /\ config_file w = f.

(** The readings a window of polls yields when it starts at time [t]: one
    per answered poll, in order, stamped with the time of its poll. *)
Fixpoint samples_of (polls : list power_reply) (t : Z) : list sample :=
  match polls with
  | [] => []
  | PowerOk pmom imad volt :: polls' =>
      {| power_w := pmom; current_a := imad; voltage_v := volt;
         timestamp := t |} :: samples_of polls' (t + 500)
  | _ :: polls' => samples_of polls' (t + 500)
  end.

(** Polls answered with more than [WORKING_POWER_THRESHOLD] watts. *)
Definition is_working (reply : power_reply) : bool :=
  match reply with
  | PowerOk pmom _ _ => num_gtb (NFloat pmom) (NInt WORKING_POWER_THRESHOLD)
  | _ => false
  end.

Definition count_working (polls : list power_reply) : nat :=
  length (List.filter is_working polls).

(** [n] half-seconds as the script holds them: the [int] 0, or the [float]
    [n / 2]. *)
Definition half_seconds (n : nat) : num :=
  match n with
  | O => NInt 0
  | S _ => NFloat (binary_normalize prec emax (Z.of_nat n) (-1) false)
  end.

(** The regime of the policy read off the number of readings above the
    threshold: 16 of them make 8 seconds, 30 make 15, 60 make 30. *)
Definition regime_of_count (n : nat) : regime :=
  if (n <? 16)%nat then Adjust f2_0 "insufficient working time"
  else if (n <=? 30)%nat then
    Adjust f1_0 "optimal working time - maintaining interval"
  else if (n <=? 60)%nat then Adjust f0_7 "excessive working time"
  else HeavyLoad.


(** The minutes of a [wait] command: the second of exactly two words, when
    it is made of digits. *)
Definition wait_minutes (command : string) : option Z :=
  match split command with
  | [_; arg] => parse_digits arg
  | _ => None
  end.

(** How wet the snapshot the policy sees is: 0 without a snapshot or without
    rain, 1 in light rain, 2 in heavy rain. *)
Definition severity (wd : option weather) : nat :=
  match wd with
  | Some w => if rainy w then if heavy_rain w then 2 else 1 else 0
  | None => 0
  end.

(** What the limits and [int()] leave of a finite number: its value rounded
    toward minus infinity, brought within the limits. *)
Definition clamp_trunc (x : num) : Z :=
  match num_val x with
  | XFin m e =>
      Z.max MIN_OFF_TIME
        (Z.min MAX_OFF_TIME (if 0 <=? e then m * 2 ^ e else Z.shiftr m (- e)))
  | _ => -1
  end.

(** The common tail of the policy at a scaled off-time, in weather of the
    given severity; [-1] when it raises. *)
Definition policy_tail (wet : nat) (new_off_time : num) : Z :=
  match match wet with
        | O => Ok new_off_time
        | S O => num_mul new_off_time (NFloat LIGHT_RAIN_FACTOR)
        | _ => num_mul new_off_time (NFloat HEAVY_RAIN_FACTOR)
        end with
  | Ok x => clamp_trunc x
  | Raise _ => -1
  end.

Definition wetter_is_shorter (new_off_time : num) (dry : Z) : bool :=
  let light := policy_tail 1 new_off_time in
  let heavy := policy_tail 2 new_off_time in
  (MIN_OFF_TIME <=? heavy) && (heavy <=? light) && (light <=? dry).

(** What the three scaling arms give at one [current_off_time], in each
    weather. *)
Definition policy_row (current : Z) : bool :=
  match num_mul (NInt current) (NFloat f2_0),
        num_mul (NInt current) (NFloat f1_0),
        num_mul (NInt current) (NFloat f0_7) with
  | Ok doubled, Ok kept, Ok shortened =>
      let d2 := policy_tail 0 doubled in
      let d1 := policy_tail 0 kept in
      let d7 := policy_tail 0 shortened in
      (d2 =? Z.min (2 * current) MAX_OFF_TIME) &&
      (d1 =? current) &&
      (Z.max MIN_OFF_TIME (7 * current / 10 - 1) <=? d7) &&
      (d7 <=? Z.max MIN_OFF_TIME (7 * current / 10)) &&
      wetter_is_shorter doubled d2 && wetter_is_shorter kept d1 &&
      wetter_is_shorter shortened d7
  | _, _, _ => false
  end.

(** [policy_row] on [n] consecutive values from [lo]. *)
Definition policy_rows (lo : Z) (n : positive) : bool :=
  snd (Pos.iter (fun st : Z * bool => (fst st + 1, snd st && policy_row (fst st)))
         (lo, true) n).

(** [inv I m]: the method [m] keeps [I], whether it returns or raises. *)
Definition inv {A} (I : world -> Prop) (m : M A) : Prop :=
  forall w, I w -> I (snd (m w)).

End Observe.

(** ** Facts about Python numbers *)

Section NumFacts.

Lemma dy_compare_int_r (m e k : Z) :
  dy_compare m e k 0 =
  if 0 <=? e then (m * 2 ^ e ?= k) else (m ?= k * 2 ^ (- e)).
Proof.
  unfold dy_compare. destruct (Z.leb_spec 0 e) as [He|He].
  - rewrite Z.min_r by lia. rewrite !Z.sub_0_r. cbn [Z.pow]. now rewrite Z.mul_1_r.
  - rewrite Z.min_l by lia. rewrite Z.sub_diag, Z.sub_0_l. cbn [Z.pow].
    now rewrite Z.mul_1_r.
Qed.

Lemma dy_compare_antisym (m1 e1 m2 e2 : Z) :
  dy_compare m2 e2 m1 e1 = CompOpp (dy_compare m1 e1 m2 e2).
Proof.
  unfold dy_compare. rewrite (Z.min_comm e2 e1). apply Z.compare_antisym.
Qed.

Lemma xcompare_antisym (a b : xval) :
  xcompare b a = option_map CompOpp (xcompare a b).
Proof.
  destruct a as [|[]|m1 e1], b as [|[]|m2 e2]; cbn; try reflexivity.
  now rewrite dy_compare_antisym.
Qed.

Lemma num_compare_antisym (a b : num) :
  num_compare b a = option_map CompOpp (num_compare a b).
Proof. apply xcompare_antisym. Qed.

(** [a <= b] excludes [b < a], and [a < b] excludes [b <= a]. *)
Lemma num_leb_not_ltb (a b : num) : num_leb a b = true -> num_ltb b a = false.
Proof.
  unfold num_leb, num_ltb. rewrite (num_compare_antisym a b).
  destruct (num_compare a b) as [[]|]; cbn; congruence.
Qed.

Lemma num_ltb_not_leb (a b : num) : num_ltb a b = true -> num_leb b a = false.
Proof.
  unfold num_leb, num_ltb. rewrite (num_compare_antisym a b).
  destruct (num_compare a b) as [[]|]; cbn; congruence.
Qed.

Lemma num_ltb_leb (a b : num) : num_ltb a b = true -> num_leb a b = true.
Proof.
  unfold num_leb, num_ltb. destruct (num_compare a b) as [[]|]; congruence.
Qed.

(** Among numbers that are not NaN the order is total. *)
Lemma num_leb_total (a b : num) :
  num_val a <> XNaN -> num_val b <> XNaN ->
  num_ltb a b = true \/ num_leb b a = true.
Proof.
  unfold num_leb, num_ltb. rewrite (num_compare_antisym a b).
  unfold num_compare.
  destruct (num_val a) as [|[]|m1 e1], (num_val b) as [|[]|m2 e2]; cbn;
    try congruence; auto.
  destruct (dy_compare m1 e1 m2 e2); cbn; auto.
Qed.

End NumFacts.

Section Clamp.

Lemma num_ltb_int_r (x : num) (k : Z) :
  num_ltb x (NInt k) =
  match num_val x with
  | XNaN => false
  | XInf s => s
  | XFin m e => if 0 <=? e then m * 2 ^ e <? k else m <? k * 2 ^ (- e)
  end.
Proof.
  unfold num_ltb, num_compare. cbn [num_val].
  destruct (num_val x) as [|[]|m e]; cbn [xcompare]; try reflexivity.
  rewrite dy_compare_int_r. unfold Z.ltb.
  destruct (0 <=? e); [destruct (m * 2 ^ e ?= k)|destruct (m ?= k * 2 ^ (- e))];
    reflexivity.
Qed.

Lemma num_ltb_int_l (x : num) (k : Z) :
  num_ltb (NInt k) x =
  match num_val x with
  | XNaN => false
  | XInf s => negb s
  | XFin m e => if 0 <=? e then k <? m * 2 ^ e else k * 2 ^ (- e) <? m
  end.
Proof.
  unfold num_ltb. rewrite (num_compare_antisym x (NInt k)).
  unfold num_compare. cbn [num_val].
  destruct (num_val x) as [|[]|m e]; cbn [xcompare option_map CompOpp];
    try reflexivity.
  rewrite dy_compare_int_r. unfold Z.ltb.
  destruct (0 <=? e).
  - rewrite (Z.compare_antisym (m * 2 ^ e) k).
    destruct (m * 2 ^ e ?= k); reflexivity.
  - rewrite (Z.compare_antisym m (k * 2 ^ (- e))).
    destruct (m ?= k * 2 ^ (- e)); reflexivity.
Qed.

Lemma num_leb_int_r (x : num) (k : Z) :
  num_leb x (NInt k) =
  match num_val x with
  | XNaN => false
  | XInf s => s
  | XFin m e => if 0 <=? e then m * 2 ^ e <=? k else m <=? k * 2 ^ (- e)
  end.
Proof.
  unfold num_leb, num_compare. cbn [num_val].
  destruct (num_val x) as [|[]|m e]; cbn [xcompare]; try reflexivity.
  rewrite dy_compare_int_r.
  destruct (0 <=? e); unfold Z.leb;
    [destruct (m * 2 ^ e ?= k)|destruct (m ?= k * 2 ^ (- e))]; reflexivity.
Qed.

Lemma num_leb_int_l (x : num) (k : Z) :
  num_leb (NInt k) x =
  match num_val x with
  | XNaN => false
  | XInf s => negb s
  | XFin m e => if 0 <=? e then k <=? m * 2 ^ e else k * 2 ^ (- e) <=? m
  end.
Proof.
  unfold num_leb. rewrite (num_compare_antisym x (NInt k)).
  unfold num_compare. cbn [num_val].
  destruct (num_val x) as [|[]|m e]; cbn [xcompare option_map CompOpp];
    try reflexivity.
  rewrite dy_compare_int_r.
  destruct (0 <=? e); unfold Z.leb.
  - rewrite (Z.compare_antisym (m * 2 ^ e) k).
    destruct (m * 2 ^ e ?= k); reflexivity.
  - rewrite (Z.compare_antisym m (k * 2 ^ (- e))).
    destruct (m ?= k * 2 ^ (- e)); reflexivity.
Qed.

(** A number strictly between two integers truncates to an integer between
    them. *)
Lemma py_int_between (x : num) (lo hi : Z) :
  0 <= lo ->
  num_ltb (NInt lo) x = true -> num_ltb x (NInt hi) = true ->
  exists r, py_int x = Ok r /\ lo <= r <= hi.
Proof.
  intros Hlo. rewrite num_ltb_int_l, num_ltb_int_r.
  destruct x as [z|f]; cbn [num_val py_int].
  - cbn. rewrite Z.mul_1_r. intros H1 H2. exists z. split; [reflexivity|lia].
  - destruct (float_val f) as [|s|m e]; try discriminate.
    + destruct s; discriminate.
    + destruct (Z.leb_spec 0 e) as [He|He]; intros H1 H2.
      * eexists. split; [reflexivity|]. lia.
      * eexists. split; [reflexivity|].
        assert (Hp : 0 < 2 ^ (- e)) by (apply Z.pow_pos_nonneg; lia).
        apply Z.ltb_lt in H1, H2.
        assert (Hm : 0 <= m) by nia.
        rewrite Z.quot_div_nonneg by lia. split.
        -- apply Z.div_le_lower_bound; lia.
        -- apply Z.lt_le_incl, Z.div_lt_upper_bound; lia.
Qed.

(** [int(max(MIN_OFF_TIME, min(MAX_OFF_TIME, x)))] is defined for every
    number [x], NaN and the infinities included, and lies within the global
    bounds. *)
Lemma clamp_bounds (x : num) :
  exists r,
    py_int (py_max (NInt MIN_OFF_TIME) (py_min (NInt MAX_OFF_TIME) x)) = Ok r /\
    MIN_OFF_TIME <= r <= MAX_OFF_TIME.
Proof.
  unfold py_min, py_max, num_gtb.
  destruct (num_ltb x (NInt MAX_OFF_TIME)) eqn:Hhi.
  - destruct (num_ltb (NInt MIN_OFF_TIME) x) eqn:Hlo.
    + apply py_int_between; [unfold MIN_OFF_TIME; lia|assumption..].
    + exists MIN_OFF_TIME. split; [reflexivity|]. unfold MIN_OFF_TIME, MAX_OFF_TIME. lia.
  - exists MAX_OFF_TIME. split; [reflexivity|]. unfold MIN_OFF_TIME, MAX_OFF_TIME. lia.
Qed.

End Clamp.

(** Comparisons of one number with integer constants, decided on its
    value. *)
Ltac by_value x :=
  rewrite ?num_ltb_int_r, ?num_ltb_int_l, ?num_leb_int_r, ?num_leb_int_l;
  destruct (num_val x) as [|[]|?m ?e]; cbn [negb];
  try discriminate; try reflexivity;
  match goal with
  | |- context [0 <=? ?e] =>
      let He := fresh "He" in
      assert (0 < 2 ^ (- e)) by (apply Z.pow_pos_nonneg; lia);
      destruct (0 <=? e) eqn:He
  | _ => idtac
  end;
  repeat match goal with
         | |- (_ <? _) = true -> _ => let H := fresh in intros H; apply Z.ltb_lt in H
         | |- (_ <=? _) = true -> _ => let H := fresh in intros H; apply Z.leb_le in H
         end;
  repeat match goal with
         | |- context [?a <? ?b] => destruct (Z.ltb_spec a b)
         | |- context [?a <=? ?b] => destruct (Z.leb_spec a b)
         end;
  try reflexivity; try discriminate; try nia.

Section Conversion.

Lemma digits2_pos_size (p : positive) : digits2_pos p = Pos.size p.
Proof. induction p; cbn; congruence. Qed.

Lemma digits2_pos_iter (p k : positive) :
  digits2_pos (Pos.iter xO p k) = (digits2_pos p + k)%positive.
Proof.
  induction k using Pos.peano_ind.
  - cbn. lia.
  - rewrite Pos.iter_succ. cbn. rewrite IHk. lia.
Qed.

Lemma Zpos_iter_xO (p k : positive) :
  Zpos (Pos.iter xO p k) = Zpos p * 2 ^ Zpos k.
Proof.
  induction k using Pos.peano_ind.
  - cbn. lia.
  - rewrite Pos.iter_succ, Pos2Z.inj_succ, Z.pow_succ_r by lia.
    rewrite Pos2Z.inj_xO, IHk. lia.
Qed.

Lemma digits2_pos_bound (p : positive) (n : Z) :
  0 <= n -> Zpos p < 2 ^ n -> Zpos (digits2_pos p) <= n.
Proof.
  intros Hn Hp. rewrite digits2_pos_size.
  pose proof (Pos.size_le p) as Hle.
  assert (H2 : 2 ^ Zpos (Pos.size p) <= 2 * Zpos p).
  { change (2 * Zpos p) with (Zpos p~0).
    rewrite <- Pos2Z.inj_pow. apply Pos2Z.pos_le_pos, Hle. }
  destruct (Z.le_gt_cases (Zpos (Pos.size p)) n) as [|Hgt]; [assumption|].
  exfalso.
  assert (2 ^ (n + 1) <= 2 ^ Zpos (Pos.size p)) by (apply Z.pow_le_mono_r; lia).
  rewrite Z.pow_add_r in H by lia. lia.
Qed.

(** A mantissa of exactly 53 bits with an exponent in range is kept as it
    is by the rounding step. *)
Lemma binary_round_aux_canonical (s : bool) (m : positive) (e : Z) :
  Zpos (digits2_pos m) = 53 -> -1074 <= e <= 971 ->
  binary_round_aux prec emax s (Zpos m) e loc_Exact = S754_finite s m e.
Proof.
  intros Hd He. unfold binary_round_aux, shr_fexp.
  cbn [shr_record_of_loc Zdigits2]. rewrite Hd.
  assert (Hf : fexp prec emax (53 + e) - e = 0).
  { unfold fexp, SpecFloat.emin, prec, emax. lia. }
  replace (Z.sub (fexp prec emax (Z.add 53 e)) e) with 0 by (symmetry; exact Hf).
  cbn [shr shr_m loc_of_shr_record round_nearest_even Zdigits2].
  rewrite Hd.
  replace (Z.sub (fexp prec emax (Z.add 53 e)) e) with 0 by (symmetry; exact Hf).
  cbn [shr shr_m].
  replace (Z.leb e (Z.sub emax prec)) with true; [reflexivity|].
  symmetry. apply Z.leb_le. unfold emax, prec. lia.
Qed.

Lemma binary_round_small (s : bool) (m : positive) :
  Zpos m < 2 ^ 53 ->
  exists m' e,
    binary_round prec emax s m 0 = S754_finite s m' e /\
    -52 <= e <= 0 /\ Zpos m' = Zpos m * 2 ^ (- e).
Proof.
  intros Hm.
  pose proof (digits2_pos_bound m 53 ltac:(lia) Hm) as Hd.
  assert (Hd1 : 1 <= Zpos (digits2_pos m)) by lia.
  unfold binary_round.
  assert (Hf : fexp prec emax (Zpos (digits2_pos m) + 0) = Zpos (digits2_pos m) - 53).
  { unfold fexp, SpecFloat.emin, prec, emax. lia. }
  replace (fexp prec emax (Z.add (Zpos (digits2_pos m)) 0))
    with (Zpos (digits2_pos m) - 53) by (symmetry; exact Hf).
  unfold shl_align.
  replace (Z.sub (Zpos (digits2_pos m) - 53) 0) with (Zpos (digits2_pos m) - 53) by lia.
  destruct (Zpos (digits2_pos m) - 53) as [|q|k] eqn:Hk.
  - exists m, 0. split; [|split; [lia|cbn; lia]].
    apply binary_round_aux_canonical; lia.
  - lia.
  - exists (Pos.iter xO m k), (Zpos (digits2_pos m) - 53).
    rewrite Hk. split; [|split; [lia|]].
    + apply binary_round_aux_canonical; [|lia].
      rewrite digits2_pos_iter, Pos2Z.inj_add. lia.
    + rewrite Zpos_iter_xO. reflexivity.
Qed.

(** Every [int] of magnitude below 2^53 converts to [float], exactly. *)
Lemma float_of_int_small (z : Z) :
  - 2 ^ 53 < z < 2 ^ 53 ->
  exists f, float_of_int z = Ok f /\ num_compare (NFloat f) (NInt z) = Some Eq.
Proof.
  intros Hz. unfold float_of_int, binary_normalize.
  destruct z as [|m|m].
  - eexists. split; reflexivity.
  - destruct (binary_round_small false m) as (m' & e & -> & He & Hm'); [lia|].
    eexists. split; [reflexivity|].
    unfold num_compare. cbn [num_val float_val xcompare cond_Zopp].
    f_equal. rewrite dy_compare_int_r.
    destruct (Z.leb_spec 0 e).
    + replace e with 0 in * by lia. cbn in Hm'. apply Z.compare_eq_iff. cbn. lia.
    + apply Z.compare_eq_iff. lia.
  - destruct (binary_round_small true m) as (m' & e & -> & He & Hm'); [lia|].
    eexists. split; [reflexivity|].
    unfold num_compare. cbn [num_val float_val xcompare cond_Zopp].
    f_equal. rewrite dy_compare_int_r.
    destruct (Z.leb_spec 0 e).
    + replace e with 0 in * by lia. cbn in Hm'. apply Z.compare_eq_iff. cbn. lia.
    + apply Z.compare_eq_iff. lia.
Qed.

End Conversion.

(** ** The off-time policy *)

Section Policy.

Lemma heavy_load_off_time_300 (wd : option weather) :
  heavy_load_off_time wd = Ok 300.
Proof.
  unfold heavy_load_off_time.
  destruct wd as [w|]; [|reflexivity].
  destruct (rainy w); [|reflexivity].
  destruct (heavy_rain w); reflexivity.
Qed.

Lemma weather_and_limits_bounds (wd : option weather) (f : spec_float) :
  exists r, weather_and_limits wd (NFloat f) = Ok r /\
            MIN_OFF_TIME <= r <= MAX_OFF_TIME.
Proof.
  unfold weather_and_limits.
  destruct wd as [w|]; [destruct (rainy w)|]; cbn [num_mul to_float rbind];
    apply clamp_bounds.
Qed.

(** The scaling arms fail only when [current_off_time] does not convert to
    [float]; otherwise they return a value within the bounds. *)
Lemma adjusted_off_time_cases (current : Z) (factor : spec_float)
  (wd : option weather) :
  (exists e, float_of_int current = Raise e /\
             adjusted_off_time current factor wd = Raise e) \/
  (exists r, adjusted_off_time current factor wd = Ok r /\
             MIN_OFF_TIME <= r <= MAX_OFF_TIME).
Proof.
  unfold adjusted_off_time, num_mul. cbn [to_float].
  destruct (float_of_int current) as [x|e]; cbn [rbind].
  - right. apply weather_and_limits_bounds.
  - left. exists e. split; reflexivity.
Qed.

Lemma select_regime_short (wt : num) :
  num_ltb wt (NInt 8) = true ->
  select_regime wt = Adjust f2_0 "insufficient working time".
Proof. unfold select_regime, SHORT_RUN_THRESHOLD. now intros ->. Qed.

Lemma select_regime_optimal (wt : num) :
  num_leb (NInt 8) wt = true -> num_leb wt (NInt 15) = true ->
  select_regime wt = Adjust f1_0 "optimal working time - maintaining interval".
Proof.
  unfold select_regime, SHORT_RUN_THRESHOLD, OPTIMAL_RUN_THRESHOLD.
  intros H8 ->. now rewrite (num_leb_not_ltb _ _ H8).
Qed.

Lemma select_regime_excessive (wt : num) :
  num_ltb (NInt 15) wt = true -> num_leb wt (NInt 30) = true ->
  select_regime wt = Adjust f0_7 "excessive working time".
Proof.
  unfold select_regime, SHORT_RUN_THRESHOLD, OPTIMAL_RUN_THRESHOLD.
  by_value wt.
Qed.

Lemma select_regime_heavy (wt : num) :
  num_ltb (NInt 30) wt = true -> select_regime wt = HeavyLoad.
Proof.
  unfold select_regime, SHORT_RUN_THRESHOLD, OPTIMAL_RUN_THRESHOLD.
  by_value wt.
Qed.

End Policy.

(** ** The policy in the controller: [calculate_dynamic_off_time] *)

Section Calculate.

Lemma calculate_no_override (p : performance) (w : world) :
  truthy (manual_override (ctl w)) = false ->
  calculate_dynamic_off_time p w = adaptive_off_time (working_time p) w.
Proof.
  unfold calculate_dynamic_off_time, bind, self.
  destruct (manual_override (ctl w)) as [v|]; [|reflexivity].
  now intros ->.
Qed.

Lemma calculate_override (p : performance) (w : world) (v : Z) :
  manual_override (ctl w) = Some v -> v <> 0 ->
  calculate_dynamic_off_time p w =
  (Ok v,
   with_trace (Log INFO "Using manual override: {manual_override}s" :: trace w) w).
Proof.
  intros Hv Hnz. unfold calculate_dynamic_off_time, bind, self. rewrite Hv.
  cbn [truthy]. destruct (Z.eqb_spec v 0); [contradiction|]. reflexivity.
Qed.

Lemma adaptive_heavy (wt : num) (w : world) :
  select_regime wt = HeavyLoad ->
  adaptive_off_time wt w =
  (Ok 300,
   with_trace
     (Log INFO "Off time: HEAVY LOAD - returning to 5-minute baseline" :: trace w)
     (with_ctl (set_current_off_time BASE_OFF_TIME (ctl w)) w)).
Proof.
  intros H. unfold adaptive_off_time, bind, self. rewrite H.
  unfold lift. rewrite heavy_load_off_time_300. reflexivity.
Qed.

Lemma adaptive_adjust (wt : num) (w : world) (f : spec_float) (reason : string) :
  select_regime wt = Adjust f reason ->
  adaptive_off_time wt w =
  match adjusted_off_time (current_off_time (ctl w)) f (weather_data (ctl w)) with
  | Ok r => (Ok r, with_trace (Log INFO ("Off time: " +:+ reason) :: trace w) w)
  | Raise e => (Raise e, w)
  end.
Proof.
  intros H. unfold adaptive_off_time, bind, self. rewrite H. unfold lift.
  destruct (adjusted_off_time _ _ _); reflexivity.
Qed.

Lemma adaptive_adjust_result (wt : num) (w : world) (f : spec_float)
  (reason : string) :
  select_regime wt = Adjust f reason ->
  fst (adaptive_off_time wt w) =
  adjusted_off_time (current_off_time (ctl w)) f (weather_data (ctl w)).
Proof.
  intros H. rewrite (adaptive_adjust _ _ _ _ H).
  destruct (adjusted_off_time _ _ _); reflexivity.
Qed.


End Calculate.

(** ** Worked scenarios *)

Section Scenarios.

Import Scenario.

(** 5 s of work, 420 s, no weather: doubled. *)
Example scenario_A :
  fst (calculate_dynamic_off_time (worked (NInt 5)) fresh) = Ok 840.
Proof. reflexivity. Qed.

(** 12 s of work, 420 s, heavy rain: 210, raised to the floor. *)
Example scenario_B :
  fst (calculate_dynamic_off_time (worked (NInt 12))
         (with_weather (raining 5) fresh)) = Ok 300.
Proof. reflexivity. Qed.

(** 45 s of work, light rain: 270, raised to the floor. *)
Example scenario_C :
  fst (calculate_dynamic_off_time (worked (NInt 45))
         (with_weather (raining 1) fresh)) = Ok 300.
Proof. reflexivity. Qed.

(** A ten-minute override with 2 s of work. *)
Example scenario_D :
  fst (calculate_dynamic_off_time (worked (NInt 2))
         (with_override (Some 600) fresh)) = Ok 600.
Proof. reflexivity. Qed.

(** Binary64 at work: 730 * 0.7 is just below 511 and truncates to 510. *)
Example scaling_rounds_down :
  fst (calculate_dynamic_off_time (worked (NInt 20)) (with_off_time 730 fresh))
  = Ok 510.
Proof. reflexivity. Qed.

(** An off-time beyond the range of [float] cannot be scaled. *)
Example scaling_overflows :
  fst (calculate_dynamic_off_time (worked (NInt 5))
         (with_off_time (2 ^ 1024) fresh)) = Raise OverflowError.
Proof. reflexivity. Qed.

End Scenarios.

(** ** Properties of the off-time policy *)

Section PolicyClaims.

Import Scenario.

(** C4, as stated, fails: with a manual override of one minute in force the
    policy returns 60 seconds, below the 300-second floor. *)
Lemma override_escapes_bounds :
  exists r,
    fst (calculate_dynamic_off_time (worked (NInt 5))
           (with_override (Some 60) fresh)) = Ok r /\
    ~ (MIN_OFF_TIME <= r <= MAX_OFF_TIME).
Proof.
  exists 60. split; [reflexivity|]. unfold MIN_OFF_TIME. lia.
Qed.

(** C4 (amended): when no manual override is in force ([manual_override] is
    not set; the policy also treats [0] as not set), every value the policy
    returns lies within
    [[MIN_OFF_TIME, MAX_OFF_TIME]] = [[300, 86400]], for every performance
    summary, weather snapshot and [current_off_time]; and a value is
    returned whenever [current_off_time] is of magnitude below 2^53 (so for
    every off-time within the bounds). *)
Theorem off_time_bounds_without_override (p : performance) (w : world) :
  truthy (manual_override (ctl w)) = false ->
  (forall r, fst (calculate_dynamic_off_time p w) = Ok r ->
             MIN_OFF_TIME <= r <= MAX_OFF_TIME) /\
  (- 2 ^ 53 < current_off_time (ctl w) < 2 ^ 53 ->
   exists r, fst (calculate_dynamic_off_time p w) = Ok r /\
             MIN_OFF_TIME <= r <= MAX_OFF_TIME).
Proof.
  intros Hno. rewrite (calculate_no_override _ _ Hno).
  destruct (select_regime (working_time p)) as [f reason|] eqn:Hreg.
  - rewrite (adaptive_adjust_result _ _ _ _ Hreg).
    destruct (adjusted_off_time_cases (current_off_time (ctl w)) f
                (weather_data (ctl w))) as [(e & Hconv & ->)|(r & -> & Hr)].
    + split; [discriminate|]. intros Hsmall.
      destruct (float_of_int_small _ Hsmall) as (x & Hx & _). congruence.
    + split; [intros r' [= <-]; exact Hr|]. intros _. exists r. now split.
  - rewrite (adaptive_heavy _ _ Hreg). cbn [fst].
    assert (MIN_OFF_TIME <= 300 <= MAX_OFF_TIME)
      by (unfold MIN_OFF_TIME, MAX_OFF_TIME; lia).
    split; [intros r [= <-]; assumption|]. intros _. exists 300. now split.
Qed.

Lemma off_time_bounds_without_override_witness :
  exists r,
    fst (calculate_dynamic_off_time (worked (NInt 20))
           (with_weather (raining 5) (with_off_time 730 fresh))) = Ok r /\
    MIN_OFF_TIME <= r <= MAX_OFF_TIME.
Proof.
  apply (off_time_bounds_without_override (worked (NInt 20))
           (with_weather (raining 5) (with_off_time 730 fresh))).
  - reflexivity.
  - cbn. lia.
Defined.

(** C6: with no manual override in force the regime is decided by
    [working_time] alone, with the bands [< 8] (scale by 2.0), [[8, 15]]
    (scale by 1.0), [(15, 30]] (scale by 0.7) and [> 30] (the fixed 300-second
    baseline, with no scaling of [current_off_time]); every non-negative
    working time falls in one of the four bands. *)
Theorem regime_bands (p : performance) (w : world) :
  truthy (manual_override (ctl w)) = false ->
  let wt := working_time p in
  let current := current_off_time (ctl w) in
  let wd := weather_data (ctl w) in
  let next := fst (calculate_dynamic_off_time p w) in
  (num_ltb wt (NInt 8) = true ->
   next = rbind (num_mul (NInt current) (NFloat f2_0)) (weather_and_limits wd)) /\
  (num_leb (NInt 8) wt = true -> num_leb wt (NInt 15) = true ->
   next = rbind (num_mul (NInt current) (NFloat f1_0)) (weather_and_limits wd)) /\
  (num_ltb (NInt 15) wt = true -> num_leb wt (NInt 30) = true ->
   next = rbind (num_mul (NInt current) (NFloat f0_7)) (weather_and_limits wd)) /\
  (num_ltb (NInt 30) wt = true ->
   next = heavy_load_off_time wd /\ next = Ok 300) /\
  (num_leb (NInt 0) wt = true ->
   num_ltb wt (NInt 8) = true \/
   (num_leb (NInt 8) wt = true /\ num_leb wt (NInt 15) = true) \/
   (num_ltb (NInt 15) wt = true /\ num_leb wt (NInt 30) = true) \/
   num_ltb (NInt 30) wt = true).
Proof.
  intros Hno wt current wd next. subst next.
  rewrite (calculate_no_override _ _ Hno). fold wt.
  repeat split.
  - intros H. now rewrite (adaptive_adjust_result _ _ _ _ (select_regime_short _ H)).
  - intros H1 H2.
    now rewrite (adaptive_adjust_result _ _ _ _ (select_regime_optimal _ H1 H2)).
  - intros H1 H2.
    now rewrite (adaptive_adjust_result _ _ _ _ (select_regime_excessive _ H1 H2)).
  - rewrite (adaptive_heavy _ _ (select_regime_heavy _ H)). cbn [fst].
    subst wd. now rewrite heavy_load_off_time_300.
  - now rewrite (adaptive_heavy _ _ (select_regime_heavy _ H)).
  - clear. revert wt. intros wt.
    assert (Hnan : num_leb (NInt 0) wt = true -> num_val wt <> XNaN).
    { rewrite num_leb_int_l. destruct (num_val wt); congruence. }
    intros H0. specialize (Hnan H0).
    destruct (num_leb_total wt (NInt 8) Hnan ltac:(discriminate)) as [|H8]; [auto|].
    destruct (num_leb_total (NInt 15) wt ltac:(discriminate) Hnan) as [H15|H15]; [|auto].
    destruct (num_leb_total (NInt 30) wt ltac:(discriminate) Hnan) as [H30|H30]; auto.
Qed.

Lemma regime_bands_witness :
  fst (calculate_dynamic_off_time (worked seven_and_a_half) fresh) = Ok 840 /\
  fst (calculate_dynamic_off_time (worked (NInt 8)) fresh) = Ok 420 /\
  fst (calculate_dynamic_off_time (worked (NInt 15)) fresh) = Ok 420 /\
  fst (calculate_dynamic_off_time (worked (NInt 30)) (with_off_time 730 fresh))
    = Ok 510 /\
  fst (calculate_dynamic_off_time (worked (NInt 31)) (with_off_time 730 fresh))
    = Ok 300.
Proof.
  pose proof (regime_bands (worked seven_and_a_half) fresh eq_refl) as (H1 & _).
  pose proof (regime_bands (worked (NInt 8)) fresh eq_refl) as (_ & H2 & _).
  pose proof (regime_bands (worked (NInt 15)) fresh eq_refl) as (_ & H3 & _).
  pose proof (regime_bands (worked (NInt 30)) (with_off_time 730 fresh) eq_refl)
    as (_ & _ & H4 & _).
  pose proof (regime_bands (worked (NInt 31)) (with_off_time 730 fresh) eq_refl)
    as (_ & _ & _ & H5 & _).
  cbv zeta in *.
  rewrite (H1 eq_refl), (H2 eq_refl eq_refl), (H3 eq_refl eq_refl),
    (H4 eq_refl eq_refl), (proj2 (H5 eq_refl)).
  repeat split; reflexivity.
Defined.


(** C10: in the heavy-load regime ([working_time > 30], no manual override
    in force) the policy returns exactly 300 seconds whatever the weather:
    240 (heavy rain) and 270 (light rain) are both raised back to
    [MIN_OFF_TIME]. *)
Theorem heavy_load_is_300 (p : performance) (w : world) :
  truthy (manual_override (ctl w)) = false ->
  num_ltb (NInt 30) (working_time p) = true ->
  fst (calculate_dynamic_off_time p w) = Ok 300.
Proof.
  intros Hno H30. rewrite (calculate_no_override _ _ Hno).
  now rewrite (adaptive_heavy _ _ (select_regime_heavy _ H30)).
Qed.

Lemma heavy_load_is_300_witness :
  fst (calculate_dynamic_off_time (worked (NInt 45))
         (with_weather (raining 5) fresh)) = Ok 300 /\
  fst (calculate_dynamic_off_time (worked (NInt 45))
         (with_weather (raining 1) fresh)) = Ok 300 /\
  rbind (num_mul (NInt 300) (NFloat f0_8)) py_int = Ok 240 /\
  rbind (num_mul (NInt 300) (NFloat f0_9)) py_int = Ok 270.
Proof.
  split; [|split].
  - apply (heavy_load_is_300 (worked (NInt 45)) (with_weather (raining 5) fresh));
      reflexivity.
  - apply (heavy_load_is_300 (worked (NInt 45)) (with_weather (raining 1) fresh));
      reflexivity.
  - split; reflexivity.
Defined.

(** C8: two runs that differ only in [current_off_time], with no manual
    override in force, the same [working_time > 30] and the same weather,
    return the same off-time (and end in the same controller state). *)
Theorem heavy_load_two_runs (p : performance) (w : world) (c1 c2 : Z) :
  truthy (manual_override (ctl w)) = false ->
  num_ltb (NInt 30) (working_time p) = true ->
  let run c := calculate_dynamic_off_time p (with_off_time c w) in
  fst (run c1) = fst (run c2) /\ ctl (snd (run c1)) = ctl (snd (run c2)).
Proof.
  intros Hno H30 run. subst run. cbv beta.
  rewrite !calculate_no_override by exact Hno.
  rewrite !(adaptive_heavy _ _ (select_regime_heavy _ H30)).
  split; reflexivity.
Qed.

Lemma heavy_load_two_runs_witness :
  fst (calculate_dynamic_off_time (worked (NInt 45))
         (with_off_time 840 (with_weather (raining 1) fresh))) =
  fst (calculate_dynamic_off_time (worked (NInt 45))
         (with_off_time 86400 (with_weather (raining 1) fresh))).
Proof.
  apply (heavy_load_two_runs (worked (NInt 45)) (with_weather (raining 1) fresh)
           840 86400); reflexivity.
Defined.





(** A manual override that is set and non-zero is returned verbatim and
    leaves the controller as it was. *)
Lemma override_returned_verbatim (p : performance) (w : world) (v : Z) :
  manual_override (ctl w) = Some v -> v <> 0 ->
  fst (calculate_dynamic_off_time p w) = Ok v /\
  ctl (snd (calculate_dynamic_off_time p w)) = ctl w.
Proof.
  intros Hv Hnz. rewrite (calculate_override _ _ _ Hv Hnz). split; reflexivity.
Qed.

(** C5, at the failing input: the operator deposits [wait 0]; the override
    channel records [manual_override = 0] (logged as set and persisted), and
    the policy then does not return it: with 5 seconds of work and the
    420-second baseline it returns 840. *)
Theorem wait_zero_override_not_honoured :
  let w := snd (check_override_commands
                  (with_override_file (Some "wait 0") fresh)) in
  manual_override (ctl w) = Some 0 /\
  hd_error (trace w) = Some (Log INFO "OVERRIDE: Set wait time to {minutes} minutes") /\
  fst (calculate_dynamic_off_time (worked (NInt 5)) w) = Ok 840.
Proof.
  vm_compute. repeat split; reflexivity.
Qed.

End PolicyClaims.

(** ** Telemetry with no samples *)

Section Telemetry.

Import Scenario.

Lemma sampling_loop_all_failed (polls : list power_reply) (wt : num)
  (rs : list sample) (w : world) :
  forallb failed polls = true ->
  exists w', sampling_loop polls wt rs w = (Ok (wt, rs), w') /\
             ctl w' = ctl w /\ config_file w' = config_file w /\
             override_file w' = override_file w.
Proof.
  revert w. induction polls as [|reply polls IH]; intros w Hall.
  - exists w. repeat split; reflexivity.
  - cbn [forallb] in Hall. apply andb_prop in Hall as [Hr Hall].
    cbn [sampling_loop].
    destruct reply; [discriminate| | |];
      unfold bind at 1; cbn;
      match goal with
      | |- context [sampling_loop polls wt rs ?w1] =>
          destruct (IH w1 Hall) as (w' & -> & Hc & Hf & Ho)
      end;
      exists w'; repeat split; assumption.
Qed.

(** C9: when every poll of the monitoring window fails, the aggregator
    returns the all-zero summary without raising, with the controller
    untouched; with no manual override in force the policy then scales
    [current_off_time] by 2.0, exactly as it does for every summary with
    [working_time < 8]. *)
Theorem zero_samples_insufficient_work (duration : Z)
  (polls : list power_reply) (w : world) :
  forallb failed polls = true ->
  exists w',
    monitor_pump_performance duration polls w = (Ok (no_samples duration), w') /\
    working_time (no_samples duration) = NInt 0 /\
    avg_power (no_samples duration) = NInt 0 /\
    max_power (no_samples duration) = NInt 0 /\
    min_power (no_samples duration) = NInt 0 /\
    ctl w' = ctl w /\
    (truthy (manual_override (ctl w')) = false ->
     fst (calculate_dynamic_off_time (no_samples duration) w') =
       rbind (num_mul (NInt (current_off_time (ctl w'))) (NFloat f2_0))
         (weather_and_limits (weather_data (ctl w'))) /\
     forall p, num_ltb (working_time p) (NInt 8) = true ->
       calculate_dynamic_off_time p w' =
       calculate_dynamic_off_time (no_samples duration) w').
Proof.
  intros Hall. unfold monitor_pump_performance.
  unfold bind at 1. cbn [logger emit].
  set (w1 := with_trace _ w).
  destruct (sampling_loop_all_failed polls (NInt 0) [] w1 Hall)
    as (w' & Hloop & Hc & _).
  exists w'. unfold bind. rewrite Hloop. cbn [fst snd summarize ret].
  repeat split; try reflexivity.
  - exact Hc.
  - rewrite (calculate_no_override _ _ H).
    now rewrite (adaptive_adjust_result _ _ _ _
                   (select_regime_short (NInt 0) eq_refl)).
  - intros p Hp. rewrite !(calculate_no_override _ _ H).
    rewrite (adaptive_adjust _ _ _ _ (select_regime_short _ Hp)).
    now rewrite (adaptive_adjust _ _ _ _ (select_regime_short (NInt 0) eq_refl)).
Qed.

Lemma zero_samples_insufficient_work_witness :
  exists w',
    monitor_pump_performance PUMP_ON_TIME
      [PowerFailure; PowerStatus; PowerRejected] fresh
    = (Ok (no_samples PUMP_ON_TIME), w') /\
    fst (calculate_dynamic_off_time (no_samples PUMP_ON_TIME) w') = Ok 840 /\
    fst (calculate_dynamic_off_time (worked (NInt 5)) w') = Ok 840.
Proof.
  destruct (zero_samples_insufficient_work PUMP_ON_TIME
              [PowerFailure; PowerStatus; PowerRejected] fresh eq_refl)
    as (w' & Hm & _ & _ & _ & _ & Hc & Hp).
  exists w'. split; [exact Hm|].
  assert (Hno : truthy (manual_override (ctl w')) = false) by now rewrite Hc.
  destruct (Hp Hno) as [H1 H2].
  rewrite (H2 (worked (NInt 5)) eq_refl), H1, Hc. split; reflexivity.
Defined.

End Telemetry.

(** ** Persistence *)

Section Persistence.

Import Scenario.

Lemma save_config_writes (w : world) :
  config_writable w = true ->
  exists config,
    save_config w = (Ok tt, with_config_file (Holds config) w) /\
    config !! "current_off_time" = Some (JInt (current_off_time (ctl w))) /\
    config !! "manual_override" = Some (json_of_override (manual_override (ctl w))) /\
    config !! "cycle_count" = None.
Proof.
  intros Hw. unfold save_config, bind, self, now. rewrite Hw.
  eexists. split; [reflexivity|]. repeat split; reflexivity.
Qed.


(** C2, as stated, fails: a controller in its third cycle persists its
    state; the process that reloads it has [cycle_count = 0]. *)
Lemma cycle_count_lost_on_reload :
  let w := with_cycle_count 3 fresh in
  let reloaded := load_config (new_process (snd (save_config w))) in
  cycle_count (ctl w) = 3 /\
  fst reloaded = Ok tt /\
  cycle_count (ctl (snd reloaded)) = 0 /\
  cycle_count (ctl (snd reloaded)) <> cycle_count (ctl w).
Proof.
  cbv zeta. repeat split; try reflexivity. discriminate.
Qed.

(** C2 (amended): when the state file can be written, [save_config]
    followed by [load_config] in any process that finds the written file
    yields the saved [current_off_time] and [manual_override]; [cycle_count]
    is not part of the persisted form, and the loading controller keeps its
    own. *)
Theorem save_load_roundtrip (w later : world) :
  config_writable w = true ->
  config_file later = config_file (snd (save_config w)) ->
  let reloaded := load_config later in
  fst reloaded = Ok tt /\
  current_off_time (ctl (snd reloaded)) = current_off_time (ctl w) /\
  manual_override (ctl (snd reloaded)) = manual_override (ctl w) /\
  cycle_count (ctl (snd reloaded)) = cycle_count (ctl later) /\
  stored_off_time later = Some (JInt (current_off_time (ctl w))).
Proof.
  intros Hw. unfold save_config, bind, self, now. rewrite Hw.
  cbn [snd with_config_file config_file]. intros Hfile. cbv zeta.
  unfold load_config, stored_off_time. rewrite Hfile.
  unfold try_except, bind, json_load. rewrite Hfile.
  destruct (manual_override (ctl w)) as [v|] eqn:Hv;
    repeat split; reflexivity.
Qed.

Lemma save_load_roundtrip_witness :
  let w := with_cycle_count 3
             (with_override (Some 600) (with_off_time 840 fresh)) in
  let reloaded := load_config (new_process (snd (save_config w))) in
  current_off_time (ctl (snd reloaded)) = 840 /\
  manual_override (ctl (snd reloaded)) = Some 600 /\
  cycle_count (ctl (snd reloaded)) = 0.
Proof.
  cbv zeta.
  pose proof (save_load_roundtrip
                (with_cycle_count 3
                   (with_override (Some 600) (with_off_time 840 fresh)))
                (new_process
                   (snd (save_config
                           (with_cycle_count 3
                              (with_override (Some 600)
                                 (with_off_time 840 fresh))))))
                eq_refl eq_refl) as (_ & H1 & H2 & H3 & _).
  split; [exact H1|split; [exact H2|exact H3]].
Defined.

(** Whatever the files hold, a new process reaches its first cycle with the
    attributes set by [__init__]: [startup] reads no file. *)
Lemma startup_state (w : world) :
  startup (new_process w) =
  (Ok tt,
   with_trace
     [Sleep 60000;
      Log INFO "Waiting 60 seconds for system startup...";
      Log INFO "Power thresholds: Working>200W, Idle<100W";
      Log INFO "Sweet Spot: 8-15s working time per cycle";
      Log INFO "Timing: {PUMP_ON_TIME}s ON, {BASE_OFF_TIME}s OFF (adaptive)";
      Log INFO "Device IP: {ROWI_IP}";
      Log INFO "Starting Intelligent ROWI Controller with Power Monitoring"]
     (with_clock (clock w + 60000)
        (with_ctl (set_is_running true __init__) w))).
Proof. reflexivity. Qed.

(** C1, at the failing input: the previous process persisted an off-time of
    1200 seconds. [load_config] would restore it, but the start-up path
    ([main] with no argument: [__init__], then [run_controller]) never calls
    it: the controller enters its first cycle with the 420-second baseline,
    and after one cycle without samples the state file holds 840 (twice the
    baseline), not 2400. *)
Theorem startup_ignores_state_file :
  let disk := left_behind 1200 None in
  stored_off_time disk = Some (JInt 1200) /\
  current_off_time (ctl (snd (load_config (new_process disk)))) = 1200 /\
  current_off_time (ctl (snd (startup (new_process disk)))) = BASE_OFF_TIME /\
  (forall w, current_off_time (ctl (snd (startup (new_process w)))) = BASE_OFF_TIME) /\
  stored_off_time (snd (main [] [blind_cycle] relay_ok disk)) = Some (JInt 840).
Proof.
  cbv zeta. split; [reflexivity|]. split; [reflexivity|]. split; [reflexivity|].
  split; [intros w; now rewrite startup_state|].
  vm_compute. reflexivity.
Qed.

End Persistence.

(** ** Reasoning about methods that return *)

Section Returns.

Context {A B : Type}.

Lemma returns_ret (a : A) (w : world) (Q : A -> world -> Prop) :
  Q a w -> returns (ret a) w Q.
Proof. intros H. exists a, w. now split. Qed.

Lemma returns_bind (m : M A) (k : A -> M B) (w : world)
  (Q : B -> world -> Prop) :
  returns m w (fun a w' => returns (k a) w' Q) -> returns (bind m k) w Q.
Proof.
  intros (a & w' & Hm & b & w'' & Hk & HQ).
  exists b, w''. unfold bind. rewrite Hm. now split.
Qed.

Lemma returns_mono (m : M A) (w : world) (P Q : A -> world -> Prop) :
  returns m w P -> (forall a w', P a w' -> Q a w') -> returns m w Q.
Proof. intros (a & w' & Hm & HP) HPQ. exists a, w'. auto. Qed.

End Returns.

Lemma returns_self (w : world) (Q : controller -> world -> Prop) :
  Q (ctl w) w -> returns self w Q.
Proof. intros H. exists (ctl w), w. now split. Qed.

Lemma returns_now (w : world) (Q : Z -> world -> Prop) :
  Q (clock w) w -> returns now w Q.
Proof. intros H. exists (clock w), w. now split. Qed.

Lemma returns_assign (f : controller -> controller) (w : world)
  (Q : unit -> world -> Prop) :
  Q tt (with_ctl (f (ctl w)) w) -> returns (assign f) w Q.
Proof. intros H. eexists _, _. split; [reflexivity|exact H]. Qed.

Lemma returns_emit (e : event) (w : world) (Q : unit -> world -> Prop) :
  Q tt (with_trace (e :: trace w) w) -> returns (emit e) w Q.
Proof. intros H. eexists _, _. split; [reflexivity|exact H]. Qed.

Lemma returns_logger (l : level) (text : string) (w : world)
  (Q : unit -> world -> Prop) :
  Q tt (with_trace (Log l text :: trace w) w) -> returns (logger l text) w Q.
Proof. apply returns_emit. Qed.

Lemma returns_sleep (ms : Z) (w : world) (Q : unit -> world -> Prop) :
  Q tt (with_trace (Sleep ms :: trace w) (with_clock (clock w + ms) w)) ->
  returns (sleep ms) w Q.
Proof. intros H. eexists _, _. split; [reflexivity|exact H]. Qed.

Lemma returns_lift {A} (r : result A) (a : A) (w : world)
  (Q : A -> world -> Prop) :
  r = Ok a -> Q a w -> returns (lift r) w Q.
Proof. intros -> H. exists a, w. now split. Qed.

(** One step of symbolic execution. *)
Ltac step :=
  first
    [ apply returns_bind
    | apply returns_ret
    | apply returns_self
    | apply returns_now
    | apply returns_assign
    | apply returns_logger
    | apply returns_emit
    | apply returns_sleep ];
  cbv beta.

Ltac steps := repeat step.

(** ** The cycle *)

Section Cycle.

Import Scenario.

Lemma schedule_with_trace (t : list event) (w : world) :
  schedule (with_trace t w) = schedule w.
Proof. reflexivity. Qed.

Lemma schedule_with_clock (t : Z) (w : world) :
  schedule (with_clock t w) = schedule w.
Proof. reflexivity. Qed.

Lemma schedule_set_cycle_count (v : Z) (w : world) :
  schedule (with_ctl (set_cycle_count v (ctl w)) w) = schedule w.
Proof. reflexivity. Qed.

Lemma schedule_set_pump_status (v : string) (w : world) :
  schedule (with_ctl (set_pump_status v (ctl w)) w) = schedule w.
Proof. reflexivity. Qed.

Lemma schedule_set_weather_data (v : option weather) (w : world) :
  schedule (with_ctl (set_weather_data v (ctl w)) w) = schedule w.
Proof. reflexivity. Qed.

Lemma schedule_healthcheck_url (w w' : world) :
  schedule w' = schedule w ->
  healthcheck_url (ctl w') = healthcheck_url (ctl w).
Proof. unfold schedule. congruence. Qed.

Create Rewrite HintDb sched.
#[local] Hint Rewrite schedule_with_trace schedule_with_clock schedule_set_cycle_count
  schedule_set_pump_status schedule_set_weather_data : sched.

Lemma get_weather_data_spec (reply : weather_reply) (w : world) :
  returns (get_weather_data reply) w (fun _ w' => schedule w' = schedule w).
Proof.
  unfold get_weather_data. step. step.
  destruct (_ || _)%bool; [now step|].
  destruct reply; steps; reflexivity.
Qed.

Lemma control_pump_from_spec (action : string) (replies : nat -> relay_reply)
  (remaining attempt : nat) (w : world) :
  returns (control_pump_from action replies attempt remaining) w
    (fun b w' =>
       b = existsb (fun i => is_ok (replies i)) (seq attempt remaining) /\
       schedule w' = schedule w).
Proof.
  revert attempt w. induction remaining as [|n IH]; intros attempt w.
  - cbn. step. now split.
  - cbn [control_pump_from seq existsb]. step. step.
    destruct (replies attempt); cbn [is_ok orb].
    + steps. now split.
    + step. step. eapply returns_mono; [apply IH|].
      cbv beta. intros b w' [-> Hs]. split; [reflexivity|exact Hs].
    + step. step. eapply returns_mono; [apply IH|].
      cbv beta. intros b w' [-> Hs]. split; [reflexivity|exact Hs].
    + step. step. step.
      destruct (attempt <? 2)%nat; step;
        (eapply returns_mono; [apply IH|]);
        cbv beta; intros b w' [-> Hs]; (split; [reflexivity|exact Hs]).
Qed.

Lemma control_pump_spec (action : string) (replies : nat -> relay_reply)
  (w : world) :
  returns (control_pump action replies) w
    (fun b w' => b = confirms replies /\ schedule w' = schedule w).
Proof. apply control_pump_from_spec. Qed.

(** Adding half a second to the running total never raises. *)
Lemma tally_add (wt : num) :
  tally wt -> exists f, num_add wt (NFloat f0_5) = Ok (NFloat f).
Proof.
  intros [->|[f ->]]; eexists; reflexivity.
Qed.

Lemma sampling_loop_spec (polls : list power_reply) (wt : num)
  (rs : list sample) (w : world) :
  tally wt ->
  returns (sampling_loop polls wt rs) w
    (fun acc w' =>
       schedule w' = schedule w /\
       (length (snd acc) <= length rs + length polls)%nat).
Proof.
  revert wt rs w. induction polls as [|reply polls IH]; intros wt rs w Ht.
  - cbn. step. split; [reflexivity|cbn; lia].
  - cbn [sampling_loop].
    destruct reply; unfold get_power_data.
    + steps. destruct (num_gtb _ _).
      * destruct (tally_add wt Ht) as [f Hf].
        eapply returns_lift; [exact Hf|]. steps.
        eapply returns_mono; [apply IH; right; eauto|].
        cbv beta. intros acc w' [Hs Hl]. split; [now rewrite Hs|].
        cbn [fst snd] in *. rewrite length_app in Hl. cbn [length] in *. lia.
      * steps.
        eapply returns_mono; [apply (IH _ _ _ Ht)|].
        cbv beta. intros acc w' [Hs Hl]. split; [now rewrite Hs|].
        cbn [fst snd] in *. rewrite length_app in Hl. cbn [length] in *. lia.
    + steps. eapply returns_mono; [apply (IH _ _ _ Ht)|].
      cbv beta. intros acc w' [Hs Hl]. split; [now rewrite Hs|].
      cbn [fst snd length] in *. lia.
    + steps. eapply returns_mono; [apply (IH _ _ _ Ht)|].
      cbv beta. intros acc w' [Hs Hl]. split; [now rewrite Hs|].
      cbn [fst snd length] in *. lia.
    + steps. eapply returns_mono; [apply (IH _ _ _ Ht)|].
      cbv beta. intros acc w' [Hs Hl]. split; [now rewrite Hs|].
      cbn [fst snd length] in *. lia.
Qed.


Lemma py_sum_from_float (xs : list spec_float) (f : spec_float) :
  exists g,
    fold_left (fun acc x => rbind acc (fun a => num_add a (NFloat x)))
      xs (Ok (NFloat f)) = Ok (NFloat g).
Proof.
  revert f. induction xs as [|x xs IH]; intros f.
  - now exists f.
  - cbn [fold_left rbind num_add to_float]. apply IH.
Qed.

Lemma py_sum_nonempty (x : spec_float) (xs : list spec_float) :
  exists g, py_sum (x :: xs) = Ok (NFloat g).
Proof.
  unfold py_sum. cbn [fold_left rbind].
  change (num_add (NInt 0) (NFloat x))
    with (Ok (NFloat (SFadd prec emax (S754_zero false) x))).
  apply py_sum_from_float.
Qed.

Lemma num_div_count (g : spec_float) (n : nat) :
  Z.of_nat (S n) < 2 ^ 53 ->
  exists q, num_div (NFloat g) (NInt (Z.of_nat (S n))) = Ok (NFloat q).
Proof.
  intros Hn. unfold num_div, float_div.
  destruct (float_of_int_small (Z.of_nat (S n))) as (y & Hy & _); [lia|].
  cbn [to_float]. rewrite Hy.
  replace (is_zero (NInt (Z.of_nat (S n)))) with false by reflexivity.
  eexists. reflexivity.
Qed.

Lemma summarize_spec (duration : Z) (wt : num) (rs : list sample) (w : world) :
  Z.of_nat (length rs) < 2 ^ 53 ->
  returns (summarize duration wt rs) w (fun _ w' => schedule w' = schedule w).
Proof.
  intros Hlen. unfold summarize. destruct rs as [|r rs]; [now step|].
  destruct (py_sum_nonempty (power_w r) (map power_w rs)) as [g Hg].
  step. eapply returns_lift; [exact Hg|].
  destruct (num_div_count g (length rs) Hlen) as [q Hq].
  step. eapply returns_lift; [exact Hq|]. steps. reflexivity.
Qed.

Lemma monitor_pump_performance_spec (duration : Z) (polls : list power_reply)
  (w : world) :
  Z.of_nat (length polls) < 2 ^ 53 ->
  returns (monitor_pump_performance duration polls) w
    (fun _ w' => schedule w' = schedule w).
Proof.
  intros Hlen. unfold monitor_pump_performance. steps.
  eapply returns_mono; [apply sampling_loop_spec; now left|].
  cbv beta. intros acc w' [Hs Hl].
  eapply returns_mono; [apply summarize_spec; cbn [length] in Hl; lia|].
  cbv beta. intros _ w'' ->. exact Hs.
Qed.

(** The fuel given to the wait loop is never exhausted: once it covers the
    remaining wait, more fuel changes nothing. *)
Lemma wait_loop_enough (fuel : nat) (ticks : list tick)
  (elapsed next_off_time : Z) (w : world) :
  next_off_time - elapsed <= 30 * Z.of_nat fuel ->
  wait_loop (S fuel) ticks elapsed next_off_time w =
  wait_loop fuel ticks elapsed next_off_time w.
Proof.
  revert ticks elapsed w.
  induction fuel as [|fuel IH]; intros ticks elapsed w Hfuel.
  - cbn [wait_loop]. unfold bind, self.
    destruct (Z.ltb_spec elapsed next_off_time); [lia|reflexivity].
  - change (wait_loop (S (S fuel)) ticks elapsed next_off_time w)
      with ((let* c := self in
             if (elapsed <? next_off_time) && is_running c then
               sleep (1000 * Z.min 30 (next_off_time - elapsed));;
               happen (hd Quiet ticks);;
               check_override_commands;;
               let* c := self in
               if is_pump_now (override_command c) then
                 logger INFO "Override: Immediate pump cycle requested";;
                 assign (set_override_command None)
               else wait_loop (S fuel) (tl ticks) (elapsed + 30) next_off_time
             else ret tt) w).
    change (wait_loop (S fuel) ticks elapsed next_off_time w)
      with ((let* c := self in
             if (elapsed <? next_off_time) && is_running c then
               sleep (1000 * Z.min 30 (next_off_time - elapsed));;
               happen (hd Quiet ticks);;
               check_override_commands;;
               let* c := self in
               if is_pump_now (override_command c) then
                 logger INFO "Override: Immediate pump cycle requested";;
                 assign (set_override_command None)
               else wait_loop fuel (tl ticks) (elapsed + 30) next_off_time
             else ret tt) w).
    unfold bind at 1 7. unfold self at 1 3. cbv iota beta.
    destruct ((elapsed <? next_off_time) && is_running (ctl w)); [|reflexivity].
    unfold bind at 1 6.
    destruct (sleep _ w) as [[[]|e] w1]; [|reflexivity].
    unfold bind at 1 5.
    destruct (happen _ w1) as [[[]|e] w2]; [|reflexivity].
    unfold bind at 1 4.
    destruct (check_override_commands w2) as [[[]|e] w3]; [|reflexivity].
    unfold bind at 1 3. unfold self. cbv iota beta.
    destruct (is_pump_now (override_command (ctl w3))); [reflexivity|].
    apply IH. lia.
Qed.

Lemma wait_fuel_covers (next_off_time : Z) :
  next_off_time - 0 <= 30 * Z.of_nat (wait_fuel next_off_time).
Proof.
  unfold wait_fuel.
  destruct (Z.le_gt_cases 0 next_off_time) as [Hpos|Hneg].
  - rewrite Z2Nat.id by (pose proof (Z.div_pos next_off_time 30 Hpos); lia).
    pose proof (Z.mod_pos_bound next_off_time 30).
    pose proof (Z.div_mod next_off_time 30). lia.
  - lia.
Qed.

Lemma wait_fuel_enough (extra : nat) (ticks : list tick) (next_off_time : Z)
  (w : world) :
  wait_loop (extra + wait_fuel next_off_time) ticks 0 next_off_time w =
  wait_loop (wait_fuel next_off_time) ticks 0 next_off_time w.
Proof.
  induction extra as [|extra IH]; [reflexivity|].
  cbn [Nat.add]. rewrite wait_loop_enough; [exact IH|].
  pose proof (wait_fuel_covers next_off_time). lia.
Qed.

End Cycle.

(** ** The relay command *)

Section Relay.

Import Observe.

Lemma control_pump_effect (action : string) (replies : nat -> relay_reply)
  (w : world) :
  exists w',
    control_pump action replies w = (Ok (confirms replies), w') /\
    ctl w' = (if confirms replies then set_pump_status action (ctl w)
              else ctl w) /\
    config_file w' = config_file w /\ override_file w' = override_file w /\
    relay_posts (trace w') =
      repeat (RelayPost action) (attempts replies) ++ relay_posts (trace w) /\
    (1 <= attempts replies <= 3)%nat.
Proof.
  unfold control_pump, confirms, attempts.
  cbn [control_pump_from seq existsb].
  unfold bind, emit, logger, emit, assign, sleep, ret.
  unfold relay_posts.
  destruct (replies 0%nat); cbn;
    try solve [eexists; repeat split; try reflexivity; cbn; lia];
    destruct (replies 1%nat); cbn;
    try solve [eexists; repeat split; try reflexivity; cbn; lia];
    destruct (replies 2%nat); cbn;
    eexists; repeat split; try reflexivity; cbn; lia.
Qed.

(** X1: [control_pump] returns [True] exactly when one of its three
    attempts is confirmed; it stops posting at the first confirmation, and
    [pump_status] becomes the action on success and is left alone on
    failure. Nothing else in the controller or the files changes. *)
Theorem control_pump_outcome (action : string) (replies : nat -> relay_reply)
  (w : world) :
  exists w',
    control_pump action replies w = (Ok (confirms replies), w') /\
    ctl w' = (if confirms replies then set_pump_status action (ctl w)
              else ctl w) /\
    config_file w' = config_file w /\ override_file w' = override_file w /\
    relay_posts (trace w') =
      repeat (RelayPost action) (attempts replies) ++ relay_posts (trace w) /\
    (1 <= attempts replies <= 3)%nat.
Proof. apply control_pump_effect. Qed.

Lemma control_pump_clock (action : string) (replies : nat -> relay_reply)
  (w : world) :
  clock (snd (control_pump action replies w)) = clock w + backoff replies /\
  0 <= backoff replies <= 4000.
Proof.
  unfold control_pump, backoff.
  cbn [control_pump_from].
  unfold bind, emit, logger, emit, assign, sleep, ret.
  destruct (replies 0%nat); cbn; try solve [split; lia];
    destruct (replies 1%nat); cbn; try solve [split; lia];
    destruct (replies 2%nat); cbn; split; lia.
Qed.

(** X2: the back-off of [control_pump] is two seconds after an attempt that
    raised, never after the third attempt and never after an answered one:
    the command takes at most four seconds of sleep. *)
Theorem control_pump_backoff (action : string) (replies : nat -> relay_reply)
  (w : world) :
  clock (snd (control_pump action replies w)) = clock w + backoff replies /\
  0 <= backoff replies <= 4000.
Proof. apply control_pump_clock. Qed.

Lemma notifications_other (e : event) (t : list event) :
  (forall msg, e <> Notify msg) ->
  notifications (e :: t) = notifications t.
Proof.
  intros He. unfold notifications. cbn [List.filter].
  destruct e; try reflexivity. now destruct (He text).
Qed.

Lemma posted_url (c c' : controller) (messages : list string) :
  healthcheck_url c' = healthcheck_url c ->
  posted c' messages = posted c messages.
Proof. unfold posted. now intros ->. Qed.

Lemma posted_app (c : controller) (newer older : list string) :
  posted c (newer ++ older) = posted c newer ++ posted c older.
Proof.
  unfold posted. destruct (String.eqb _ _); [reflexivity|apply map_app].
Qed.

(** [send_health_check] never raises; it posts the message when an address
    is configured, may log the outcome, and changes nothing else. *)
Lemma send_health_check_effect (message : string) (reply : health_reply)
  (w : world) :
  exists w',
    send_health_check message reply w = (Ok tt, w') /\
    ctl w' = ctl w /\ config_file w' = config_file w /\
    override_file w' = override_file w /\
    config_writable w' = config_writable w /\ clock w' = clock w /\
    relay_posts (trace w') = relay_posts (trace w) /\
    notifications (trace w') =
      posted (ctl w) [message] ++ notifications (trace w) /\
    exists events, trace w' = events ++ trace w.
Proof.
  unfold send_health_check, bind at 1, self, posted.
  destruct (String.eqb (healthcheck_url (ctl w)) "").
  - exists w. repeat split. now exists [].
  - destruct reply; cbn; eexists; repeat split.
    + now exists [Log INFO "Health check: {message}"; Notify message].
    + now exists [Notify message].
    + now exists [Log ERROR "Health check error"; Notify message].
Qed.

End Relay.

(** ** Invariants of the methods *)

Section InvariantRules.

Import Observe.

Context {A B : Type} (I : world -> Prop).

Lemma inv_ret (a : A) : inv I (ret a).
Proof. intros w H. exact H. Qed.

Lemma inv_lift (r : result A) : inv I (lift r).
Proof. intros w H. exact H. Qed.

Lemma inv_bind (m : M A) (k : A -> M B) :
  inv I m -> (forall a, inv I (k a)) -> inv I (bind m k).
Proof.
  intros Hm Hk w H. specialize (Hm w H). unfold bind.
  destruct (m w) as [[a|e] w1]; cbn [snd] in *; [now apply Hk|exact Hm].
Qed.

Lemma inv_try_except (m : M A) (h : exn -> M A) :
  inv I m -> (forall e, inv I (h e)) -> inv I (try_except m h).
Proof.
  intros Hm Hh w H. specialize (Hm w H). unfold try_except.
  destruct (m w) as [[a|e] w1]; cbn [snd] in *; [exact Hm|now apply Hh].
Qed.

End InvariantRules.

Section InvariantPrimitives.

Import Observe.

Variable I : world -> Prop.

Lemma inv_self : inv I self.
Proof. intros w H. exact H. Qed.

Lemma inv_now : inv I now.
Proof. intros w H. exact H. Qed.

Lemma inv_assign (f : controller -> controller) :
  (forall w, I w -> I (with_ctl (f (ctl w)) w)) -> inv I (assign f).
Proof. intros Hf w H. now apply Hf. Qed.

Lemma inv_emit (e : event) :
  (forall w, I w -> I (with_trace (e :: trace w) w)) -> inv I (emit e).
Proof. intros He w H. now apply He. Qed.

End InvariantPrimitives.

(** The methods keep every invariant that is stable under the updates they
    make. Each lemma below asks only for the stability it uses. *)
Section Stable.

Import Observe.

Variable I : world -> Prop.

Hypothesis stable_event :
  forall e w, (forall msg, e <> Notify msg) -> I w ->
              I (with_trace (e :: trace w) w).
Hypothesis stable_notify :
  forall msg w, healthcheck_url (ctl w) <> "" -> I w ->
                I (with_trace (Notify msg :: trace w) w).
Hypothesis stable_clock : forall t w, I w -> I (with_clock t w).
Hypothesis stable_pump_status :
  forall v w, I w -> I (with_ctl (set_pump_status v (ctl w)) w).
Hypothesis stable_weather :
  forall wd w,
    weather_api_key (ctl w) <> "" ->
    weather_api_key (ctl w) <> "your_api_key" ->
    I w -> I (with_ctl (set_weather_data (Some wd) (ctl w)) w).
Hypothesis stable_baseline :
  forall w, I w -> I (with_ctl (set_current_off_time BASE_OFF_TIME (ctl w)) w).
Hypothesis stable_off_time :
  forall v w, I w -> I (with_ctl (set_current_off_time v (ctl w)) w).
Hypothesis stable_override :
  forall v w, I w -> I (with_ctl (set_manual_override v (ctl w)) w).
Hypothesis stable_command :
  forall v w, I w -> I (with_ctl (set_override_command v (ctl w)) w).
Hypothesis stable_running :
  forall v w, I w -> I (with_ctl (set_is_running v (ctl w)) w).
Hypothesis stable_next_cycle :
  forall v w, I w -> I (with_ctl (set_next_cycle_time v (ctl w)) w).
Hypothesis stable_cycle_count :
  forall v w, I w -> I (with_ctl (set_cycle_count v (ctl w)) w).
Hypothesis stable_save : forall w, I w -> I (snd (save_config w)).
Hypothesis stable_channel : forall f w, I w -> I (with_override_file f w).

Lemma inv_logger (l : level) (text : string) : inv I (logger l text).
Proof. apply inv_emit. intros w H. now apply stable_event. Qed.

Lemma inv_sleep (ms : Z) : inv I (sleep ms).
Proof.
  intros w H. unfold sleep. cbn [snd].
  apply (stable_event (Sleep ms) (with_clock (clock w + ms) w));
    [discriminate|now apply stable_clock].
Qed.

Lemma inv_control_pump_from (action : string) (replies : nat -> relay_reply)
  (remaining attempt : nat) :
  inv I (control_pump_from action replies attempt remaining).
Proof.
  revert attempt. induction remaining as [|n IH]; intros attempt.
  - apply inv_ret.
  - cbn [control_pump_from]. apply inv_bind; [|intros _].
    { apply inv_emit. intros w H. now apply stable_event. }
    destruct (replies attempt);
      repeat first
        [ apply IH | apply inv_ret | apply inv_logger | apply inv_sleep
        | apply inv_assign; intros; now apply stable_pump_status
        | apply inv_bind; [|intros _] ].
    destruct (attempt <? 2)%nat; [apply inv_sleep|apply inv_ret].
Qed.

Lemma inv_control_pump (action : string) (replies : nat -> relay_reply) :
  inv I (control_pump action replies).
Proof. apply inv_control_pump_from. Qed.

Lemma inv_get_power_data (reply : power_reply) : inv I (get_power_data reply).
Proof.
  destruct reply; cbn [get_power_data];
    repeat first
      [ apply inv_ret | apply inv_logger | apply inv_now
      | apply inv_bind; [|intros ?] ].
Qed.

Lemma inv_sampling_loop (polls : list power_reply) (wt : num)
  (rs : list sample) :
  inv I (sampling_loop polls wt rs).
Proof.
  revert wt rs. induction polls as [|reply polls IH]; intros wt rs.
  - apply inv_ret.
  - cbn [sampling_loop]. apply inv_bind; [apply inv_get_power_data|].
    intros [r|].
    + apply inv_bind; [|intros acc; apply inv_bind; [apply inv_sleep|intros _; apply IH]].
      apply inv_bind; [|intros ?; apply inv_bind; [apply inv_logger|intros _; apply inv_ret]].
      destruct (num_gtb _ _); [apply inv_lift|apply inv_ret].
    + apply inv_bind; [apply inv_ret|intros acc].
      apply inv_bind; [apply inv_sleep|intros _; apply IH].
Qed.

Lemma inv_summarize (duration : Z) (wt : num) (rs : list sample) :
  inv I (summarize duration wt rs).
Proof.
  unfold summarize. destruct rs as [|r rs]; [apply inv_ret|].
  repeat first
    [ apply inv_ret | apply inv_logger | apply inv_lift
    | apply inv_bind; [|intros ?] ].
Qed.

Lemma inv_monitor_pump_performance (duration : Z) (polls : list power_reply) :
  inv I (monitor_pump_performance duration polls).
Proof.
  unfold monitor_pump_performance.
  apply inv_bind; [apply inv_logger|intros _].
  apply inv_bind; [apply inv_sampling_loop|intros acc; apply inv_summarize].
Qed.

Lemma inv_get_weather_data (reply : weather_reply) :
  inv I (get_weather_data reply).
Proof.
  intros w H. unfold get_weather_data, bind, self.
  destruct (String.eqb_spec (weather_api_key (ctl w)) ""); [exact H|].
  destruct (String.eqb_spec (weather_api_key (ctl w)) "your_api_key");
    [exact H|].
  cbn [orb]. destruct reply; cbn.
  - apply (stable_event _ (with_ctl _ w)); [discriminate|].
    now apply stable_weather.
  - exact H.
  - now apply stable_event.
Qed.

Lemma inv_send_health_check (message : string) (reply : health_reply) :
  inv I (send_health_check message reply).
Proof.
  intros w H. unfold send_health_check, bind at 1, self.
  destruct (String.eqb_spec (healthcheck_url (ctl w)) ""); [exact H|].
  assert (Hn : I (with_trace (Notify message :: trace w) w))
    by now apply stable_notify.
  destruct reply; cbn.
  - apply (stable_event _ (with_trace _ w)); [discriminate|exact Hn].
  - exact Hn.
  - apply (stable_event _ (with_trace _ w)); [discriminate|exact Hn].
Qed.

Lemma inv_log_to_csv (p : performance) (next : Z) (desc : string) :
  inv I (log_to_csv p next desc).
Proof.
  unfold log_to_csv. apply inv_bind; [|intros _; apply inv_logger].
  apply inv_emit. intros w H. now apply stable_event.
Qed.

Lemma inv_save_config : inv I save_config.
Proof. exact stable_save. Qed.

Lemma inv_apply_command (command : string) : inv I (apply_command command).
Proof.
  unfold apply_command.
  repeat match goal with
         | |- inv _ (if ?b then _ else _) => destruct b
         | |- inv _ (match ?x with _ => _ end) => destruct x
         | _ =>
             first
               [ apply inv_ret | apply inv_logger
               | apply inv_assign; intros;
                 first [ now apply stable_running
                       | now apply stable_override
                       | now apply stable_command ]
               | apply inv_bind; [|intros _] ]
         end.
Qed.

Lemma inv_check_override_commands : inv I check_override_commands.
Proof.
  intros w H. unfold check_override_commands.
  destruct (override_file w) as [text|]; [|exact H].
  revert w H.
  change (inv I (apply_command (lower (strip text));;
                 (fun w' => (Ok tt, with_override_file None w'));;
                 save_config)).
  apply inv_bind; [apply inv_apply_command|intros _].
  apply inv_bind; [|intros _; apply inv_save_config].
  intros w H. now apply stable_channel.
Qed.

Lemma inv_happen (t : tick) : inv I (happen t).
Proof.
  destruct t; cbn [happen].
  - apply inv_ret.
  - intros w H. now apply stable_channel.
  - apply inv_bind; [apply inv_logger|intros _].
    apply inv_assign. intros. now apply stable_running.
Qed.

Lemma inv_wait_loop_with (fuel : nat) (ticks : list tick) (elapsed next : Z) :
  inv I check_override_commands ->
  inv I (wait_loop fuel ticks elapsed next).
Proof.
  intros Hcheck.
  revert ticks elapsed. induction fuel as [|fuel IH]; intros ticks elapsed.
  - apply inv_ret.
  - cbn [wait_loop]. apply inv_bind; [apply inv_self|intros c].
    destruct (_ && _); [|apply inv_ret].
    apply inv_bind; [apply inv_sleep|intros _].
    apply inv_bind; [apply inv_happen|intros _].
    apply inv_bind; [exact Hcheck|intros _].
    apply inv_bind; [apply inv_self|intros c'].
    destruct (is_pump_now _); [|apply IH].
    apply inv_bind; [apply inv_logger|intros _].
    apply inv_assign. intros. now apply stable_command.
Qed.

Lemma inv_wait_loop (fuel : nat) (ticks : list tick) (elapsed next : Z) :
  inv I (wait_loop fuel ticks elapsed next).
Proof. apply inv_wait_loop_with, inv_check_override_commands. Qed.

Lemma inv_announce_and_wait_with (env : cycle_env) (p : performance)
  (next : Z) :
  inv I check_override_commands ->
  inv I (announce_and_wait env p next).
Proof.
  intros Hcheck. unfold announce_and_wait.
  apply inv_bind; [apply inv_self|intros c].
  apply inv_bind; [apply inv_log_to_csv|intros _].
  apply inv_bind; [apply inv_now|intros t].
  apply inv_bind; [apply inv_assign; intros; now apply stable_next_cycle|intros _].
  apply inv_bind; [apply inv_send_health_check|intros _].
  apply inv_bind; [apply inv_logger|intros _].
  apply inv_bind; [apply inv_logger|intros _].
  apply inv_bind; [now apply inv_wait_loop_with|intros _; apply inv_ret].
Qed.

Lemma inv_announce_and_wait (env : cycle_env) (p : performance) (next : Z) :
  inv I (announce_and_wait env p next).
Proof. apply inv_announce_and_wait_with, inv_check_override_commands. Qed.

Lemma inv_finish_cycle (env : cycle_env) (p : performance) (next : Z) :
  inv I (finish_cycle env p next).
Proof.
  unfold finish_cycle.
  apply inv_bind; [apply inv_assign; intros; now apply stable_off_time|intros _].
  apply inv_bind; [apply inv_save_config|intros _].
  apply inv_announce_and_wait.
Qed.

Lemma inv_adaptive_off_time (wt : num) : inv I (adaptive_off_time wt).
Proof.
  unfold adaptive_off_time. apply inv_bind; [apply inv_self|intros c].
  destruct (select_regime wt).
  - apply inv_bind; [apply inv_lift|intros ?].
    apply inv_bind; [apply inv_logger|intros _; apply inv_ret].
  - apply inv_bind; [apply inv_lift|intros ?].
    apply inv_bind; [apply inv_assign; intros; now apply stable_baseline|intros _].
    apply inv_bind; [apply inv_logger|intros _; apply inv_ret].
Qed.

Lemma inv_calculate_dynamic_off_time (p : performance) :
  inv I (calculate_dynamic_off_time p).
Proof.
  unfold calculate_dynamic_off_time.
  apply inv_bind; [apply inv_self|intros c].
  destruct (manual_override c) as [v|]; [|apply inv_adaptive_off_time].
  destruct (truthy (Some v)); [|apply inv_adaptive_off_time].
  apply inv_bind; [apply inv_logger|intros _; apply inv_ret].
Qed.

Lemma inv_cycle_body (env : cycle_env) : inv I (cycle_body env).
Proof.
  unfold cycle_body.
  apply inv_bind; [apply inv_get_weather_data|intros _].
  apply inv_bind; [apply inv_logger|intros _].
  apply inv_bind; [apply inv_control_pump|intros on].
  destruct (negb on).
  { apply inv_bind; [apply inv_send_health_check|intros _; apply inv_ret]. }
  apply inv_bind; [apply inv_send_health_check|intros _].
  apply inv_bind; [apply inv_monitor_pump_performance|intros p].
  apply inv_bind; [apply inv_control_pump|intros off].
  destruct (negb off).
  { apply inv_bind; [apply inv_logger|intros _].
    apply inv_bind; [apply inv_send_health_check|intros _; apply inv_ret]. }
  apply inv_bind; [apply inv_calculate_dynamic_off_time|intros next].
  apply inv_finish_cycle.
Qed.

Lemma inv_run_cycle (env : cycle_env) : inv I (run_cycle env).
Proof.
  change (inv I (let* c := self in
                 assign (set_cycle_count (cycle_count c + 1));;
                 cycle_body env)).
  apply inv_bind; [apply inv_self|intros c].
  apply inv_bind; [apply inv_assign; intros; now apply stable_cycle_count|intros _].
  apply inv_cycle_body.
Qed.

Lemma inv_controller_loop (envs : list cycle_env) : inv I (controller_loop envs).
Proof.
  induction envs as [|env envs IH]; [apply inv_ret|].
  cbn [controller_loop]. apply inv_bind; [apply inv_self|intros c].
  destruct (is_running c); [|apply inv_ret].
  apply inv_bind; [|intros _; exact IH].
  apply inv_try_except.
  - apply inv_bind; [apply inv_run_cycle|intros success].
    destruct (negb success); [|apply inv_ret].
    apply inv_bind; [apply inv_logger|intros _; apply inv_sleep].
  - intros e. apply inv_bind; [apply inv_logger|intros _].
    apply inv_bind; [apply inv_send_health_check|intros _; apply inv_sleep].
Qed.

Lemma inv_startup : inv I startup.
Proof.
  unfold startup.
  apply inv_bind; [apply inv_assign; intros; now apply stable_running|intros _].
  repeat (apply inv_bind; [apply inv_logger|intros _]).
  apply inv_sleep.
Qed.

Lemma inv_run_controller (envs : list cycle_env)
  (shutdown : nat -> relay_reply) :
  inv I (run_controller envs shutdown).
Proof.
  unfold run_controller.
  apply inv_bind; [apply inv_startup|intros _].
  apply inv_bind; [apply inv_controller_loop|intros _].
  apply inv_bind; [apply inv_logger|intros _].
  apply inv_bind; [apply inv_control_pump|intros _; apply inv_ret].
Qed.

End Stable.

(** ** What a run never does, and what every cycle does *)

Section RunInvariants.

Import Observe Scenario.

Lemma run_cycle_body (env : cycle_env) (w : world) :
  run_cycle env w =
  cycle_body env
    (with_ctl (set_cycle_count (cycle_count (ctl w) + 1) (ctl w)) w).
Proof. reflexivity. Qed.

Lemma save_config_frame (w : world) :
  ctl (snd (save_config w)) = ctl w /\
  override_file (snd (save_config w)) = override_file w /\
  config_writable (snd (save_config w)) = config_writable w /\
  clock (snd (save_config w)) = clock w /\
  (trace (snd (save_config w)) = trace w \/
   trace (snd (save_config w)) = Log ERROR "Error saving config" :: trace w).
Proof.
  unfold save_config, bind, self, now.
  destruct (config_writable w) eqn:Hw; cbn; rewrite ?Hw; auto 6.
Qed.

(** X3: a run never changes its connection parameters, whatever the cycles
    meet and whatever the files hold ([load_config] is not called). A
    controller without a notification address posts no notification, and one
    without a weather key (or with the sample key) never replaces its weather
    snapshot. *)
Theorem run_keeps_configuration (envs : list cycle_env)
  (shutdown : nat -> relay_reply) (w : world) :
  let w' := snd (run_controller envs shutdown w) in
  healthcheck_url (ctl w') = healthcheck_url (ctl w) /\
  weather_api_key (ctl w') = weather_api_key (ctl w) /\
  location (ctl w') = location (ctl w) /\
  (healthcheck_url (ctl w) = "" ->
   notifications (trace w') = notifications (trace w)) /\
  (weather_api_key (ctl w) = "" \/ weather_api_key (ctl w) = "your_api_key" ->
   weather_data (ctl w') = weather_data (ctl w)).
Proof.
  cbv zeta.
  change (configured_as (healthcheck_url (ctl w)) (weather_api_key (ctl w))
            (location (ctl w)) (weather_data (ctl w))
            (notifications (trace w))
            (snd (run_controller envs shutdown w))).
  generalize (healthcheck_url (ctl w)) (weather_api_key (ctl w))
    (location (ctl w)) (weather_data (ctl w)) (notifications (trace w))
    (conj eq_refl (conj eq_refl (conj eq_refl
       (conj (fun _ => eq_refl) (fun _ => eq_refl))))
     : configured_as (healthcheck_url (ctl w)) (weather_api_key (ctl w))
         (location (ctl w)) (weather_data (ctl w))
         (notifications (trace w)) w).
  intros url key place wd sent H0.
  apply (inv_run_controller (configured_as url key place wd sent));
    try exact H0; unfold configured_as.
  - intros e w' He (H1 & H2 & H3 & H4 & H5). cbn -[notifications].
    rewrite (notifications_other _ _ He). auto.
  - intros msg w' Hurl (H1 & H2 & H3 & H4 & H5). cbn -[notifications].
    repeat split; try assumption. intros ->. contradiction.
  - intros t w' H. exact H.
  - intros v w' H. exact H.
  - intros wd' w' Hk1 Hk2 (H1 & H2 & H3 & H4 & H5). cbn -[notifications].
    repeat split; try assumption. intros [-> | ->]; contradiction.
  - intros w' H. exact H.
  - intros v w' H. exact H.
  - intros v w' H. exact H.
  - intros v w' H. exact H.
  - intros v w' H. exact H.
  - intros v w' H. exact H.
  - intros v w' H. exact H.
  - intros w' (H1 & H2 & H3 & H4 & H5).
    destruct (save_config_frame w') as (Hc & _ & _ & _ & Ht).
    rewrite Hc. repeat split; try assumption.
    destruct Ht as [-> | ->]; [assumption|].
    rewrite notifications_other by discriminate. assumption.
  - intros f w' H. exact H.
Qed.

(** X4: every call of [run_cycle] adds exactly one to [cycle_count],
    whether the cycle completes, is aborted by a relay failure, or raises:
    the counter counts attempts. *)
Theorem run_cycle_counts_attempts (env : cycle_env) (w : world) :
  cycle_count (ctl (snd (run_cycle env w))) = cycle_count (ctl w) + 1.
Proof.
  rewrite run_cycle_body.
  set (n := cycle_count (ctl w) + 1).
  apply (inv_cycle_body (fun w => cycle_count (ctl w) = n));
    try (intros; cbn; assumption); try reflexivity.
  intros w' H. destruct (save_config_frame w') as (Hc & _). now rewrite Hc.
Qed.

End RunInvariants.

(** ** The override channel *)

Section Channel.

Import Observe Scenario.

Lemma check_override_commands_idle (w : world) :
  override_file w = None -> check_override_commands w = (Ok tt, w).
Proof. intros H. unfold check_override_commands. now rewrite H. Qed.

Lemma save_config_mirrors (w : world) :
  config_writable w = true -> mirrors (snd (save_config w)).
Proof.
  intros Hw. unfold save_config, bind, self, now. rewrite Hw. cbn [snd].
  eexists. split; [reflexivity|]. split; reflexivity.
Qed.

Lemma check_command (w : world) (text : string)
  (f : controller -> controller) :
  override_file w = Some text ->
  command_effect (lower (strip text)) = Some f ->
  exists w',
    check_override_commands w = (Ok tt, w') /\
    ctl w' = f (ctl w) /\
    override_file w' = None /\
    clock w' = clock w /\
    config_writable w' = config_writable w /\
    (config_writable w = true -> mirrors w') /\
    check_override_commands w' = (Ok tt, w').
Proof.
  intros Hfile Heff. unfold check_override_commands at 1. rewrite Hfile.
  unfold command_effect in Heff.
  remember (lower (strip text)) as command eqn:Hcommand.
  assert (Hsave : forall w1 : world,
            override_file w1 = None ->
            clock w1 = clock w -> config_writable w1 = config_writable w ->
            exists w',
              save_config w1 = (Ok tt, w') /\ ctl w' = ctl w1 /\
              override_file w' = None /\ clock w' = clock w /\
              config_writable w' = config_writable w /\
              (config_writable w = true -> mirrors w')).
  { intros w1 Ho Hc Hw1.
    pose proof (save_config_mirrors w1) as Hm.
    unfold save_config, bind, self, now in *.
    destruct (config_writable w1) eqn:Hw; cbn in *;
      eexists; (split; [reflexivity|]); cbn;
      repeat split; auto; try congruence. }
  destruct (String.eqb_spec command "stop") as [->|_].
  { injection Heff as <-.
    edestruct (Hsave (with_override_file None
                        (with_ctl (set_is_running false (ctl w))
                           (with_trace (Log INFO "OVERRIDE: System stop requested"
                                        :: trace w) w))))
      as (w' & Hs & Hctl & Ho & Hc & Hw & Hm); try reflexivity.
    exists w'. split; [exact Hs|]. rewrite Hctl.
    repeat split; try assumption.
    apply check_override_commands_idle. exact Ho. }
  destruct (String.eqb_spec command "normal") as [->|_].
  { injection Heff as <-.
    edestruct (Hsave (with_override_file None
                        (with_trace (Log INFO "OVERRIDE: Returned to normal operation"
                                     :: trace w)
                           (with_ctl (set_manual_override None (ctl w)) w))))
      as (w' & Hs & Hctl & Ho & Hc & Hw & Hm); try reflexivity.
    exists w'. split; [exact Hs|]. rewrite Hctl.
    repeat split; try assumption.
    apply check_override_commands_idle. exact Ho. }
  destruct (String.eqb_spec command "pump_now") as [->|_]; [|discriminate].
  injection Heff as <-.
  edestruct (Hsave (with_override_file None
                      (with_trace (Log INFO "OVERRIDE: Immediate pump requested"
                                   :: trace w)
                         (with_ctl (set_override_command (Some "pump_now") (ctl w)) w))))
    as (w' & Hs & Hctl & Ho & Hc & Hw & Hm); try reflexivity.
  exists w'. split; [exact Hs|]. rewrite Hctl.
  repeat split; try assumption.
  apply check_override_commands_idle. exact Ho.
Qed.

(** X5: a deposited [stop], [normal] or [pump_now], in any letter case and
    with surrounding white space, is applied once: the poll stops the loop,
    or clears [manual_override], or requests an immediate pump, leaves the rest
    of the controller alone, removes the command from the channel and saves the
    state; a second poll finds nothing. *)
Theorem command_applied_once (w : world) (text : string)
  (f : controller -> controller) :
  override_file w = Some text ->
  command_effect (lower (strip text)) = Some f ->
  exists w',
    check_override_commands w = (Ok tt, w') /\
    ctl w' = f (ctl w) /\
    override_file w' = None /\
    clock w' = clock w /\
    config_writable w' = config_writable w /\
    (config_writable w = true -> mirrors w') /\
    check_override_commands w' = (Ok tt, w').
Proof. apply check_command. Qed.

Lemma command_applied_once_witness :
  exists w',
    check_override_commands
      (with_override_file (Some "  Normal ") (with_override (Some 600) fresh))
    = (Ok tt, w') /\
    manual_override (ctl w') = None /\ override_file w' = None /\ mirrors w'.
Proof.
  destruct (command_applied_once
              (with_override_file (Some "  Normal ")
                 (with_override (Some 600) fresh))
              "  Normal " (set_manual_override None) eq_refl eq_refl)
    as (w' & H & Hctl & Ho & _ & _ & Hm & _).
  exists w'. split; [exact H|]. split; [now rewrite Hctl|].
  split; [exact Ho|]. apply Hm. reflexivity.
Defined.

End Channel.

(** ** The wait phase *)

Section WaitPhase.

Import Observe Scenario.

Lemma waiting_pause (w : world) : waiting w -> waiting (pause w).
Proof. intros H. exact H. Qed.

Lemma waiting_iter_pause (k : nat) (w : world) :
  waiting w -> waiting (Nat.iter k pause w).
Proof. intros H. induction k; [exact H|]. cbn. now apply waiting_pause. Qed.

(** One iteration of the wait loop during which nothing happens and more
    than one interval remains. *)
Lemma wait_loop_quiet_step (fuel : nat) (ticks : list tick)
  (elapsed next : Z) (w : world) :
  waiting w -> elapsed + 30 < next ->
  wait_loop (S fuel) (Quiet :: ticks) elapsed next w =
  wait_loop fuel ticks (elapsed + 30) next (pause w).
Proof.
  intros (Hrun & Hfile & Hnow) Hlt. cbn [wait_loop hd tl].
  unfold bind at 1. unfold self at 1. cbv iota beta. rewrite Hrun.
  destruct (Z.ltb_spec elapsed next); [|lia]. cbn [andb].
  replace (Z.min 30 (next - elapsed)) with 30 by lia.
  unfold bind at 1. unfold sleep at 1. cbv iota beta.
  change (1000 * 30) with 30000. fold (pause w).
  unfold bind at 1. cbn [happen ret].
  unfold bind at 1. rewrite (check_override_commands_idle (pause w) Hfile).
  unfold bind at 1. unfold self at 1. cbv iota beta.
  change (override_command (ctl (pause w))) with (override_command (ctl w)).
  now rewrite Hnow.
Qed.

Lemma wait_loop_skip (k fuel : nat) (ticks : list tick) (elapsed next : Z)
  (w : world) :
  waiting w -> elapsed + 30 * Z.of_nat k < next ->
  wait_loop (k + fuel) (repeat Quiet k ++ ticks) elapsed next w =
  wait_loop fuel ticks (elapsed + 30 * Z.of_nat k) next (Nat.iter k pause w).
Proof.
  revert elapsed w. induction k as [|k IH]; intros elapsed w Hw Hlt.
  - cbn. now rewrite Z.add_0_r.
  - cbn [Nat.add repeat app].
    rewrite wait_loop_quiet_step by (try assumption; lia).
    rewrite IH by (try (now apply waiting_pause); lia).
    rewrite Nat.iter_succ_r. f_equal. lia.
Qed.


Lemma iter_pause_frame (k : nat) (w : world) :
  clock (Nat.iter k pause w) = clock w + 30000 * Z.of_nat k /\
  ctl (Nat.iter k pause w) = ctl w /\
  config_file (Nat.iter k pause w) = config_file w /\
  config_writable (Nat.iter k pause w) = config_writable w.
Proof.
  induction k as [|k (Hc & Hctl & Hf & Hw)]; [cbn; repeat split; lia|].
  rewrite Nat.iter_succ. set (wk := Nat.iter k pause w) in *.
  unfold pause. cbn. rewrite Hc, Hctl, Hf, Hw. repeat split; lia.
Qed.

Lemma wait_loop_quiet (fuel : nat) (ticks : list tick) (elapsed next : Z)
  (w : world) :
  waiting w -> Forall (eq Quiet) ticks ->
  next - elapsed <= 30 * Z.of_nat fuel ->
  exists w',
    wait_loop fuel ticks elapsed next w = (Ok tt, w') /\
    clock w' = clock w + 1000 * Z.max 0 (next - elapsed) /\
    ctl w' = ctl w /\ config_file w' = config_file w /\
    override_file w' = None.
Proof.
  revert ticks elapsed w.
  induction fuel as [|fuel IH]; intros ticks elapsed w Hw Hq Hfuel.
  - exists w. cbn [wait_loop ret]. destruct Hw as (_ & Hfile & _).
    repeat split; try assumption; lia.
  - destruct Hw as (Hrun & Hfile & Hnow).
    cbn [wait_loop]. unfold bind at 1. unfold self at 1. cbv iota beta.
    rewrite Hrun. destruct (Z.ltb_spec elapsed next); cbn [andb].
    2:{ exists w. repeat split; try assumption; try reflexivity. lia. }
    assert (Hhd : hd Quiet ticks = Quiet)
      by (destruct Hq as [|? ? <-]; reflexivity).
    assert (Htl : Forall (eq Quiet) (tl ticks))
      by (destruct Hq; [constructor|assumption]).
    rewrite Hhd.
    unfold bind at 1. unfold sleep at 1. cbv iota beta.
    set (w1 := with_trace _ (with_clock _ w)).
    unfold bind at 1. cbn [happen ret].
    unfold bind at 1. rewrite (check_override_commands_idle w1 Hfile).
    unfold bind at 1. unfold self at 1. cbv iota beta.
    change (override_command (ctl w1)) with (override_command (ctl w)).
    rewrite Hnow.
    destruct (IH (tl ticks) (elapsed + 30) w1) as (w' & -> & Hc & Hctl & Hf & Ho);
      [repeat split; assumption|assumption|lia|].
    exists w'. split; [reflexivity|]. rewrite Hc, Hctl, Hf, Ho.
    subst w1. cbn. repeat split; lia.
Qed.

(** X6: a wait during which nothing arrives lasts exactly the computed
    off-time: the polls sleep [next_off_time] seconds in total, and leave
    the controller and the files as they were. *)
Theorem quiet_wait_lasts_off_time (ticks : list tick) (next_off_time : Z)
  (w : world) :
  waiting w -> Forall (eq Quiet) ticks -> 0 <= next_off_time ->
  exists w',
    wait_loop (wait_fuel next_off_time) ticks 0 next_off_time w = (Ok tt, w') /\
    clock w' = clock w + 1000 * next_off_time /\
    ctl w' = ctl w /\ config_file w' = config_file w.
Proof.
  intros Hw Hq Hpos.
  destruct (wait_loop_quiet (wait_fuel next_off_time) ticks 0 next_off_time w
              Hw Hq (wait_fuel_covers next_off_time))
    as (w' & Hrun & Hc & Hctl & Hf & _).
  exists w'. repeat split; try assumption. rewrite Hc. lia.
Qed.

Lemma quiet_wait_lasts_off_time_witness :
  exists w',
    wait_loop (wait_fuel 840) [] 0 840
      (with_ctl (set_is_running true __init__) fresh) = (Ok tt, w') /\
    clock w' = 840000.
Proof.
  destruct (quiet_wait_lasts_off_time [] 840
              (with_ctl (set_is_running true __init__) fresh))
    as (w' & H & Hc & _).
  - repeat split.
  - constructor.
  - lia.
  - exists w'. split; [exact H|exact Hc].
Defined.


Lemma wait_loop_stopped (fuel : nat) (ticks : list tick) (elapsed next : Z)
  (w : world) :
  is_running (ctl w) = false ->
  wait_loop fuel ticks elapsed next w = (Ok tt, w).
Proof.
  intros H. destruct fuel; [reflexivity|].
  cbn [wait_loop]. unfold bind, self. rewrite H.
  now rewrite andb_false_r.
Qed.

(** The poll that finds [pump_now] or [stop] ends the wait. *)
Lemma wait_loop_command_step (fuel : nat) (rest : list tick)
  (elapsed next : Z) (w : world) (text : string) :
  waiting w -> elapsed < next ->
  lower (strip text) = "pump_now" \/ lower (strip text) = "stop" ->
  exists w',
    wait_loop (S fuel) (Deposit text :: rest) elapsed next w = (Ok tt, w') /\
    clock w' = clock w + 1000 * Z.min 30 (next - elapsed) /\
    override_file w' = None /\
    ctl w' = (if String.eqb (lower (strip text)) "stop"
              then set_is_running false (ctl w)
              else set_override_command None (ctl w)).
Proof.
  intros (Hrun & Hfile & Hnow) Hlt Hcmd.
  cbn [wait_loop hd tl].
  unfold bind at 1. unfold self at 1. cbv iota beta. rewrite Hrun.
  destruct (Z.ltb_spec elapsed next); [|lia]. cbn [andb].
  unfold bind at 1. unfold sleep at 1. cbv iota beta.
  set (w1 := with_trace _ (with_clock _ w)).
  unfold bind at 1. cbn [happen]. unfold create_override_command.
  cbv iota beta.
  set (w2 := with_override_file (Some text) w1).
  unfold bind at 1.
  destruct Hcmd as [Hcmd|Hcmd]; rewrite Hcmd; cbn [String.eqb Ascii.eqb Bool.eqb].
  - destruct (check_command w2 text (set_override_command (Some "pump_now")))
      as (w3 & -> & Hctl & Ho & Hc & _); [reflexivity|now rewrite Hcmd|].
    unfold bind at 1. unfold self at 1. cbv iota beta. rewrite Hctl.
    cbn [override_command set_override_command is_pump_now].
    change (String.eqb "pump_now" "pump_now") with true. cbv iota.
    eexists. split; [reflexivity|]. cbn. rewrite Hc, Ho, Hctl.
    repeat split.
  - destruct (check_command w2 text (set_is_running false))
      as (w3 & -> & Hctl & Ho & Hc & _); [reflexivity|now rewrite Hcmd|].
    unfold bind at 1. unfold self at 1. cbv iota beta. rewrite Hctl.
    cbn [override_command set_is_running].
    change (override_command (ctl w2)) with (override_command (ctl w)).
    rewrite Hnow.
    rewrite wait_loop_stopped by now rewrite Hctl.
    exists w3. split; [reflexivity|]. rewrite Hc, Ho, Hctl. repeat split.
Qed.

Lemma wait_fuel_split (k : nat) (next : Z) :
  30 * Z.of_nat k < next ->
  exists fuel, wait_fuel next = (k + S fuel)%nat.
Proof.
  intros H. exists (wait_fuel next - k - 1)%nat. unfold wait_fuel.
  assert (Z.of_nat k <= next / 30) by (apply Z.div_le_lower_bound; lia).
  lia.
Qed.

Lemma wait_loop_command (k : nat) (rest : list tick) (next : Z) (w : world)
  (text : string) :
  waiting w -> 30 * Z.of_nat k < next ->
  lower (strip text) = "pump_now" \/ lower (strip text) = "stop" ->
  exists w',
    wait_loop (wait_fuel next) (repeat Quiet k ++ Deposit text :: rest)
      0 next w = (Ok tt, w') /\
    clock w' =
      clock w + 1000 * (30 * Z.of_nat k + Z.min 30 (next - 30 * Z.of_nat k)) /\
    override_file w' = None /\
    ctl w' = (if String.eqb (lower (strip text)) "stop"
              then set_is_running false (ctl w)
              else set_override_command None (ctl w)).
Proof.
  intros Hw Hk Hcmd.
  destruct (wait_fuel_split k next Hk) as (fuel & ->).
  rewrite wait_loop_skip by (try assumption; lia).
  destruct (iter_pause_frame k w) as (Hc & Hctl & _).
  destruct (wait_loop_command_step fuel rest (0 + 30 * Z.of_nat k) next
              (Nat.iter k pause w) text)
    as (w' & -> & Hc' & Ho & Hctl'); [now apply waiting_iter_pause|lia|assumption|].
  exists w'. split; [reflexivity|]. rewrite Hc', Hc, Hctl', Hctl.
  split; [lia|]. split; [exact Ho|reflexivity].
Qed.

(** X7: a [pump_now] deposited during the wait ends it at the next poll:
    after [k] quiet polls the wait has lasted [30 * k] seconds plus the
    interval of the poll that finds the command, whatever remained of the
    off-time; the request is then cleared and the command consumed. *)
Theorem pump_now_truncates_wait (k : nat) (rest : list tick)
  (next_off_time : Z) (w : world) (text : string) :
  waiting w -> 30 * Z.of_nat k < next_off_time ->
  lower (strip text) = "pump_now" ->
  exists w',
    wait_loop (wait_fuel next_off_time)
      (repeat Quiet k ++ Deposit text :: rest) 0 next_off_time w = (Ok tt, w') /\
    clock w' =
      clock w +
      1000 * (30 * Z.of_nat k + Z.min 30 (next_off_time - 30 * Z.of_nat k)) /\
    override_file w' = None /\
    ctl w' = set_override_command None (ctl w).
Proof.
  intros Hw Hk Hcmd.
  destruct (wait_loop_command k rest next_off_time w text Hw Hk (or_introl Hcmd))
    as (w' & H & Hc & Ho & Hctl).
  rewrite Hcmd in Hctl. exists w'. repeat split; assumption.
Qed.

Lemma pump_now_truncates_wait_witness :
  exists w',
    wait_loop (wait_fuel 86400) [Quiet; Quiet; Deposit "PUMP_NOW"; Quiet]
      0 86400 (with_ctl (set_is_running true __init__) fresh) = (Ok tt, w') /\
    clock w' = 90000.
Proof.
  destruct (pump_now_truncates_wait 2 [Quiet] 86400
              (with_ctl (set_is_running true __init__) fresh) "PUMP_NOW")
    as (w' & H & Hc & _).
  - repeat split.
  - lia.
  - reflexivity.
  - exists w'. split; [exact H|exact Hc].
Defined.

(** X8: a [stop] deposited during the wait ends it at the next poll and
    stops the controller: the main loop runs no further cycle. *)
Theorem stop_ends_the_run (k : nat) (rest : list tick) (next_off_time : Z)
  (w : world) (text : string) (envs : list cycle_env) :
  waiting w -> 30 * Z.of_nat k < next_off_time ->
  lower (strip text) = "stop" ->
  exists w',
    wait_loop (wait_fuel next_off_time)
      (repeat Quiet k ++ Deposit text :: rest) 0 next_off_time w = (Ok tt, w') /\
    clock w' =
      clock w +
      1000 * (30 * Z.of_nat k + Z.min 30 (next_off_time - 30 * Z.of_nat k)) /\
    ctl w' = set_is_running false (ctl w) /\
    controller_loop envs w' = (Ok tt, w').
Proof.
  intros Hw Hk Hcmd.
  destruct (wait_loop_command k rest next_off_time w text Hw Hk (or_intror Hcmd))
    as (w' & H & Hc & Ho & Hctl).
  rewrite Hcmd in Hctl. exists w'. repeat split; try assumption.
  destruct envs as [|env envs]; [reflexivity|].
  cbn [controller_loop]. unfold bind, self. now rewrite Hctl.
Qed.

Lemma stop_ends_the_run_witness :
  exists w',
    wait_loop (wait_fuel 840) [Quiet; Deposit " stop "] 0 840
      (with_ctl (set_is_running true __init__) fresh) = (Ok tt, w') /\
    clock w' = 60000 /\
    controller_loop [blind_cycle] w' = (Ok tt, w').
Proof.
  destruct (stop_ends_the_run 1 [] 840
              (with_ctl (set_is_running true __init__) fresh) " stop "
              [blind_cycle])
    as (w' & H & Hc & _ & Hl).
  - repeat split.
  - lia.
  - reflexivity.
  - exists w'. split; [exact H|]. split; [exact Hc|exact Hl].
Defined.

End WaitPhase.

(** ** Completed and aborted cycles *)

Section CycleOutcome.

Import Observe Scenario.

Lemma bind_ok_inv {A B} (m : M A) (k : A -> M B) (w w' : world) (b : B) :
  bind m k w = (Ok b, w') ->
  exists a w1, m w = (Ok a, w1) /\ k a w1 = (Ok b, w').
Proof.
  unfold bind. destruct (m w) as [[a|e] w1]; [|discriminate].
  intros H. now exists a, w1.
Qed.

Lemma inv_outcome {A} (I : world -> Prop) (m : M A) (w w1 : world)
  (r : result A) :
  inv I m -> m w = (r, w1) -> I w -> I w1.
Proof. intros Hi E H. specialize (Hi w H). now rewrite E in Hi. Qed.

Ltac stable :=
  try solve
    [ intros; cbn in *; assumption
    | intros; cbv beta in *;
      rewrite ?(proj1 (save_config_frame _)),
        ?(proj1 (proj2 (proj2 (save_config_frame _)))); assumption ].

(** A cycle that returns [True] confirmed ON and OFF, asked the policy with
    the override and off-time it started with, and finished from there. *)
Lemma cycle_completed (env : cycle_env) (w : world) :
  fst (run_cycle env w) = Ok true ->
  exists w1 p next w2,
    confirms (env_on env) = true /\ confirms (env_off env) = true /\
    untouched (manual_override (ctl w)) (current_off_time (ctl w))
      (config_writable w) (config_file w) w1 /\
    pump_status (ctl w1) = "off" /\
    calculate_dynamic_off_time p w1 = (Ok next, w2) /\
    finish_cycle env p next w2 = (Ok true, snd (run_cycle env w)).
Proof.
  destruct (run_cycle env w) as [r w'] eqn:H. cbn [fst snd]. intros ->.
  rewrite run_cycle_body in H. unfold cycle_body in H.
  set (K := untouched (manual_override (ctl w)) (current_off_time (ctl w))
              (config_writable w) (config_file w)).
  set (w0 := with_ctl _ w) in H.
  assert (K0 : K w0) by (repeat split).
  apply bind_ok_inv in H as (? & wa & Ea & H).
  assert (Ka : K wa)
    by (eapply inv_outcome; [apply inv_get_weather_data; stable|exact Ea|exact K0]).
  apply bind_ok_inv in H as (? & wb & Eb & H).
  assert (Kb : K wb) by (injection Eb as _ <-; exact Ka).
  apply bind_ok_inv in H as (on & wc & Ec & H).
  assert (Kc : K wc)
    by (eapply inv_outcome; [apply inv_control_pump; stable|exact Ec|exact Kb]).
  destruct (control_pump_effect "on" (env_on env) wb) as (? & Ec' & _).
  rewrite Ec in Ec'. injection Ec' as Hon _.
  destruct on; cbn [negb] in H.
  2:{ apply bind_ok_inv in H as (? & ? & _ & H). discriminate. }
  apply bind_ok_inv in H as (? & wd & Ed & H).
  assert (Kd : K wd)
    by (eapply inv_outcome; [apply inv_send_health_check; stable|exact Ed|exact Kc]).
  apply bind_ok_inv in H as (p & we & Ee & H).
  assert (Ke : K we)
    by (eapply inv_outcome;
        [apply inv_monitor_pump_performance; stable|exact Ee|exact Kd]).
  apply bind_ok_inv in H as (off & wf & Ef & H).
  assert (Kf : K wf)
    by (eapply inv_outcome; [apply inv_control_pump; stable|exact Ef|exact Ke]).
  destruct (control_pump_effect "off" (env_off env) we) as (? & Ef' & Hctl & _).
  rewrite Ef in Ef'. injection Ef' as Hoff <-.
  destruct off; cbn [negb] in H.
  2:{ apply bind_ok_inv in H as (? & ? & _ & H).
      apply bind_ok_inv in H as (? & ? & _ & H). discriminate. }
  apply bind_ok_inv in H as (next & wg & Eg & H).
  exists wf, p, next, wg. repeat split; try apply Kf; auto.
  rewrite Hctl, <- Hoff. reflexivity.
Qed.


Lemma calculate_result (p : performance) (w w' : world) (next : Z) :
  calculate_dynamic_off_time p w = (Ok next, w') ->
  (truthy (manual_override (ctl w)) = false ->
   MIN_OFF_TIME <= next <= MAX_OFF_TIME) /\
  (forall v, manual_override (ctl w) = Some v -> v <> 0 -> next = v).
Proof.
  intros H. split.
  - intros Hno. rewrite (calculate_no_override _ _ Hno) in H.
    destruct (select_regime (working_time p)) as [f reason|] eqn:Hreg.
    + rewrite (adaptive_adjust _ _ _ _ Hreg) in H.
      destruct (adjusted_off_time_cases (current_off_time (ctl w)) f
                  (weather_data (ctl w))) as [(e & _ & He)|(r & Hr & Hb)].
      * rewrite He in H. discriminate.
      * rewrite Hr in H. injection H as <- _. exact Hb.
    + rewrite (adaptive_heavy _ _ Hreg) in H. injection H as <- _.
      unfold MIN_OFF_TIME, MAX_OFF_TIME. lia.
  - intros v Hv Hnz. rewrite (calculate_override _ _ _ Hv Hnz) in H.
    now injection H as <- _.
Qed.

(** X9: a cycle that returns [True] leaves the pump off: the last state the
    relay confirmed is [off]. *)
Theorem completed_cycle_pump_off (env : cycle_env) (w : world) :
  fst (run_cycle env w) = Ok true ->
  pump_status (ctl (snd (run_cycle env w))) = "off".
Proof.
  intros H.
  destruct (cycle_completed env w H)
    as (w1 & p & next & w2 & _ & _ & _ & Hoff & Ecalc & Efin).
  assert (I2 : pump_status (ctl w2) = "off").
  { eapply (inv_outcome (fun w => pump_status (ctl w) = "off"));
      [apply inv_calculate_dynamic_off_time; stable|exact Ecalc|exact Hoff]. }
  eapply (inv_outcome (fun w => pump_status (ctl w) = "off"));
    [apply inv_finish_cycle; stable|exact Efin|exact I2].
Qed.

Lemma completed_cycle_pump_off_witness :
  pump_status
    (ctl (snd (run_cycle blind_cycle
                 (with_ctl (set_is_running true __init__) fresh)))) = "off".
Proof.
  apply (completed_cycle_pump_off blind_cycle
           (with_ctl (set_is_running true __init__) fresh)).
  vm_compute. reflexivity.
Defined.

(** X10: after a cycle that returns [True], [current_off_time] is the value
    the policy returned: within [[300, 86400]] when no override was in force
    at the start of the cycle, and the override itself when a non-zero one
    was. Commands that arrive during the wait do not change it. *)
Theorem completed_cycle_off_time (env : cycle_env) (w : world) :
  fst (run_cycle env w) = Ok true ->
  let w' := snd (run_cycle env w) in
  (truthy (manual_override (ctl w)) = false ->
   MIN_OFF_TIME <= current_off_time (ctl w') <= MAX_OFF_TIME) /\
  (forall v, manual_override (ctl w) = Some v -> v <> 0 ->
             current_off_time (ctl w') = v).
Proof.
  intros H.
  destruct (cycle_completed env w H)
    as (w1 & p & next & w2 & _ & _ & (Hov & _) & _ & Ecalc & Efin).
  destruct (calculate_result p w1 w2 next Ecalc) as (Hb & Hv).
  rewrite Hov in Hb, Hv.
  assert (Hnext : current_off_time (ctl (snd (run_cycle env w))) = next).
  { unfold finish_cycle in Efin.
    apply bind_ok_inv in Efin as (? & w3 & E3 & Efin).
    injection E3 as _ <-.
    eapply (inv_outcome (fun w => current_off_time (ctl w) = next));
      [|exact Efin|reflexivity].
    apply inv_bind; [apply inv_save_config; stable|intros _].
    apply inv_announce_and_wait; stable. }
  cbv zeta. rewrite Hnext. split; [exact Hb|exact Hv].
Qed.

Lemma completed_cycle_off_time_witness :
  MIN_OFF_TIME <=
    current_off_time
      (ctl (snd (run_cycle blind_cycle
                   (with_ctl (set_is_running true __init__) fresh))))
  <= MAX_OFF_TIME.
Proof.
  apply (completed_cycle_off_time blind_cycle
           (with_ctl (set_is_running true __init__) fresh)).
  - vm_compute. reflexivity.
  - reflexivity.
Defined.

Lemma apply_command_returns (command : string) (w : world) :
  exists w', apply_command command w = (Ok tt, w').
Proof.
  unfold apply_command.
  repeat match goal with
         | |- context [if ?b then _ else _] => destruct b
         | |- context [match ?x with _ => _ end] => destruct x
         end;
    unfold bind, assign, logger, emit, ret; eexists; reflexivity.
Qed.

Lemma check_override_commands_saves (w : world) :
  config_writable w = true /\ mirrors w ->
  config_writable (snd (check_override_commands w)) = true /\
  mirrors (snd (check_override_commands w)).
Proof.
  intros (Hw & Hm). unfold check_override_commands.
  destruct (override_file w) as [text|]; [|now split].
  destruct (apply_command_returns (lower (strip text)) w) as (w1 & E1).
  assert (Hw1 : config_writable w1 = true).
  { eapply (inv_outcome (fun w => config_writable w = true));
      [apply inv_apply_command; stable|exact E1|exact Hw]. }
  set (w2 := with_override_file None w1).
  assert (Hw2 : config_writable w2 = true) by exact Hw1.
  assert (Heq : (apply_command (lower (strip text));;
                 (fun w' => (Ok tt, with_override_file None w'));;
                 save_config) w = save_config w2).
  { unfold bind at 1. rewrite E1. reflexivity. }
  rewrite Heq. split.
  - destruct (save_config_frame w2) as (_ & _ & -> & _). exact Hw2.
  - now apply save_config_mirrors.
Qed.

(** X11: when the state file can be written, a cycle that returns [True]
    ends with the state file mirroring the controller: it holds the
    [current_off_time] and [manual_override] the controller has at the end of
    the wait, also when commands changed the override during the wait. *)
Theorem completed_cycle_persisted (env : cycle_env) (w : world) :
  config_writable w = true ->
  fst (run_cycle env w) = Ok true ->
  mirrors (snd (run_cycle env w)).
Proof.
  intros Hw H.
  destruct (cycle_completed env w H)
    as (w1 & p & next & w2 & _ & _ & (_ & _ & Hw1 & _) & _ & Ecalc & Efin).
  rewrite Hw in Hw1.
  assert (Hw2 : config_writable w2 = true).
  { eapply (inv_outcome (fun w => config_writable w = true));
      [apply inv_calculate_dynamic_off_time; stable|exact Ecalc|exact Hw1]. }
  unfold finish_cycle in Efin.
  apply bind_ok_inv in Efin as (? & w3 & E3 & Efin).
  injection E3 as _ <-.
  apply bind_ok_inv in Efin as (? & w4 & E4 & Efin).
  assert (J4 : config_writable w4 = true /\ mirrors w4).
  { split.
    - pose proof (save_config_frame (with_ctl (set_current_off_time next (ctl w2)) w2))
        as (_ & _ & Hwr & _).
      rewrite E4 in Hwr. cbn [snd] in Hwr. rewrite Hwr. exact Hw2.
    - pose proof (save_config_mirrors
                    (with_ctl (set_current_off_time next (ctl w2)) w2) Hw2) as Hm.
      now rewrite E4 in Hm. }
  apply (inv_outcome (fun w => config_writable w = true /\ mirrors w)
           (announce_and_wait env p next) w4 _ (Ok true));
    [|exact Efin|exact J4].
  apply inv_announce_and_wait_with; stable.
  exact check_override_commands_saves.
Qed.

Lemma completed_cycle_persisted_witness :
  mirrors
    (snd (run_cycle
            {| env_weather := WeatherFailure; env_on := relay_ok;
               env_polls := [PowerFailure]; env_off := relay_ok;
               env_ticks := [Quiet; Deposit "wait 10"; Deposit "pump_now"];
               env_health := health_ok |}
            (with_ctl (set_is_running true __init__) fresh))).
Proof.
  apply completed_cycle_persisted.
  - reflexivity.
  - vm_compute. reflexivity.
Defined.


Lemma startup_state_any (w : world) :
  startup w = (Ok tt, snd (startup w)).
Proof. reflexivity. Qed.

Lemma get_weather_data_frame (reply : weather_reply) (w : world) :
  returns (get_weather_data reply) w
    (fun _ w' =>
       schedule w' = schedule w /\ clock w' = clock w /\
       pump_status (ctl w') = pump_status (ctl w) /\
       cycle_count (ctl w') = cycle_count (ctl w) /\
       relay_posts (trace w') = relay_posts (trace w)).
Proof.
  unfold get_weather_data. step. step.
  destruct (_ || _)%bool; [step; repeat split|].
  destruct reply; steps; repeat split.
Qed.

Ltac quiet :=
  first
    [ let e := fresh "e" in
      let w := fresh "w" in
      let He := fresh "He" in
      let H := fresh "H" in
      intros e w He H; cbv beta; cbn -[notifications];
      rewrite (notifications_other _ _ He); exact H
    | intros; cbv beta in *; cbn -[notifications] in *; assumption ].

(** X12: when the relay never confirms ON, the cycle is given up without
    sampling and without an OFF command: [run_cycle] returns [False] after the
    three ON attempts and their back-off, the schedule, the state file and
    [pump_status] are as before, and the failure is the one notification of
    the cycle, posted when an address is configured. *)
Theorem on_failure_aborts_cycle (env : cycle_env) (w : world) :
  confirms (env_on env) = false ->
  exists w',
    run_cycle env w = (Ok false, w') /\
    schedule w' = schedule w /\
    pump_status (ctl w') = pump_status (ctl w) /\
    cycle_count (ctl w') = cycle_count (ctl w) + 1 /\
    clock w' = clock w + backoff (env_on env) /\
    relay_posts (trace w') = repeat (RelayPost "on") 3 ++ relay_posts (trace w) /\
    notifications (trace w') =
      posted (ctl w) ["ERROR Cycle {cycle_count}: Failed ON"] ++
      notifications (trace w).
Proof.
  intros Hon. rewrite run_cycle_body. unfold cycle_body.
  set (w0 := with_ctl _ w).
  destruct (get_weather_data_frame (env_weather env) w0)
    as (? & w1 & E1 & Hs1 & Hc1 & Hp1 & Hn1 & Hr1).
  assert (Hq1 : notifications (trace w1) = notifications (trace w)).
  { eapply (inv_outcome
              (fun w' => notifications (trace w') = notifications (trace w)));
      [apply inv_get_weather_data; quiet|exact E1|reflexivity]. }
  unfold bind at 1. rewrite E1. unfold bind at 1. cbn [logger emit].
  set (w2 := with_trace _ w1).
  destruct (control_pump_effect "on" (env_on env) w2)
    as (w3 & E3 & Hctl3 & Hf3 & Ho3 & Hr3 & _).
  pose proof (control_pump_clock "on" (env_on env) w2) as (Hc3 & _).
  rewrite E3 in Hc3. cbn [snd] in Hc3.
  assert (Hq3 : notifications (trace w3) = notifications (trace w)).
  { eapply (inv_outcome
              (fun w' => notifications (trace w') = notifications (trace w)));
      [apply inv_control_pump; quiet|exact E3|exact Hq1]. }
  assert (Hatt : attempts (env_on env) = 3%nat).
  { unfold confirms in Hon. cbn [seq existsb] in Hon. unfold attempts.
    destruct (is_ok (env_on env 0%nat)); [discriminate|].
    destruct (is_ok (env_on env 1%nat)); [discriminate|reflexivity]. }
  rewrite Hon in Hctl3. rewrite Hatt in Hr3.
  unfold bind at 1. rewrite E3. rewrite Hon. cbn [negb].
  destruct (send_health_check_effect "ERROR Cycle {cycle_count}: Failed ON"
              (env_health env 0%nat) w3)
    as (w4 & E4 & Hctl4 & Hf4 & Ho4 & _ & Hc4 & Hr4 & Hq4 & _).
  unfold bind at 1. rewrite E4. cbn [ret].
  assert (Hs3 : schedule w3 = schedule w).
  { unfold schedule. rewrite Hctl3, Hf3, Ho3. exact Hs1. }
  assert (Hs4 : schedule w4 = schedule w).
  { unfold schedule. rewrite Hctl4, Hf4, Ho4. exact Hs3. }
  exists w4. split; [reflexivity|].
  split; [exact Hs4|].
  split; [rewrite Hctl4, Hctl3; exact Hp1|].
  split; [rewrite Hctl4, Hctl3; exact Hn1|].
  assert (Hc2 : clock w2 = clock w1) by reflexivity.
  assert (Hr2 : relay_posts (trace w2) = relay_posts (trace w1)) by reflexivity.
  split; [rewrite Hc4, Hc3, Hc2, Hc1; reflexivity|].
  split; [rewrite Hr4, Hr3, Hr2, Hr1; reflexivity|].
  rewrite Hq4, Hq3.
  now rewrite (posted_url (ctl w) (ctl w3))
    by (apply schedule_healthcheck_url; exact Hs3).
Qed.

Lemma on_failure_aborts_cycle_witness :
  exists w',
    run_cycle
      {| env_weather := WeatherFailure; env_on := relay_down;
         env_polls := [PowerFailure]; env_off := relay_ok; env_ticks := [];
         env_health := health_ok |}
      (with_off_time 840 fresh) = (Ok false, w') /\
    current_off_time (ctl w') = 840 /\ clock w' = 4000.
Proof.
  destruct (on_failure_aborts_cycle
              {| env_weather := WeatherFailure; env_on := relay_down;
                 env_polls := [PowerFailure]; env_off := relay_ok;
                 env_ticks := []; env_health := health_ok |}
              (with_off_time 840 fresh) eq_refl)
    as (w' & H & Hs & _ & _ & Hc & _).
  exists w'. split; [exact H|]. split; [|exact Hc].
  unfold schedule in Hs. now injection Hs.
Defined.

(** A cycle whose ON command is confirmed and whose OFF command is not:
    where it ends. *)
Lemma off_failure_cycle (env : cycle_env) (w : world) :
  confirms (env_on env) = true ->
  confirms (env_off env) = false ->
  Z.of_nat (length (env_polls env)) < 2 ^ 53 ->
  exists w',
    run_cycle env w = (Ok false, w') /\
    schedule w' = schedule w /\
    In (Log ERROR "Failed to turn pump OFF") (trace w') /\
    notifications (trace w') =
      posted (ctl w)
        ["ERROR Cycle {cycle_count}: Failed OFF";
         "Cycle {cycle_count}: Pump ON - monitoring performance"] ++
      notifications (trace w).
Proof.
  intros Hon Hoff Hlen. rewrite run_cycle_body. unfold cycle_body.
  set (w0 := with_ctl _ w).
  destruct (get_weather_data_frame (env_weather env) w0)
    as (? & w1 & E1 & Hs1 & _).
  assert (Hq1 : notifications (trace w1) = notifications (trace w)).
  { eapply (inv_outcome
              (fun w' => notifications (trace w') = notifications (trace w)));
      [apply inv_get_weather_data; quiet|exact E1|reflexivity]. }
  unfold bind at 1. rewrite E1. unfold bind at 1. cbn [logger emit].
  set (w2 := with_trace _ w1).
  destruct (control_pump_effect "on" (env_on env) w2)
    as (w3 & E3 & Hctl3 & Hf3 & Ho3 & _).
  assert (Hq3 : notifications (trace w3) = notifications (trace w)).
  { eapply (inv_outcome
              (fun w' => notifications (trace w') = notifications (trace w)));
      [apply inv_control_pump; quiet|exact E3|exact Hq1]. }
  rewrite Hon in Hctl3.
  assert (Hs3 : schedule w3 = schedule w).
  { unfold schedule. rewrite Hctl3, Hf3, Ho3. exact Hs1. }
  unfold bind at 1. rewrite E3. rewrite Hon. cbn [negb].
  destruct (send_health_check_effect
              "Cycle {cycle_count}: Pump ON - monitoring performance"
              (env_health env 0%nat) w3)
    as (w4 & E4 & Hctl4 & Hf4 & Ho4 & _ & _ & _ & Hq4 & _).
  assert (Hs4 : schedule w4 = schedule w).
  { unfold schedule. rewrite Hctl4, Hf4, Ho4. exact Hs3. }
  unfold bind at 1. rewrite E4.
  destruct (monitor_pump_performance_spec PUMP_ON_TIME (env_polls env) w4 Hlen)
    as (p & w5 & E5 & Hs5).
  assert (Hq5 : notifications (trace w5) = notifications (trace w4)).
  { eapply (inv_outcome
              (fun w' => notifications (trace w') = notifications (trace w4)));
      [apply inv_monitor_pump_performance; quiet|exact E5|reflexivity]. }
  unfold bind at 1. rewrite E5.
  destruct (control_pump_effect "off" (env_off env) w5)
    as (w6 & E6 & Hctl6 & Hf6 & Ho6 & _).
  assert (Hq6 : notifications (trace w6) = notifications (trace w4)).
  { eapply (inv_outcome
              (fun w' => notifications (trace w') = notifications (trace w4)));
      [apply inv_control_pump; quiet|exact E6|exact Hq5]. }
  rewrite Hoff in Hctl6.
  assert (Hs6 : schedule w6 = schedule w).
  { unfold schedule. rewrite Hctl6, Hf6, Ho6.
    transitivity (schedule w4); [exact Hs5|exact Hs4]. }
  unfold bind at 1. rewrite E6. rewrite Hoff. cbn [negb].
  unfold bind at 1. cbn [logger emit].
  set (w7 := with_trace _ w6).
  destruct (send_health_check_effect "ERROR Cycle {cycle_count}: Failed OFF"
              (env_health env 1%nat) w7)
    as (w8 & E8 & Hctl8 & Hf8 & Ho8 & _ & _ & _ & Hq8 & events & Ht8).
  unfold bind at 1. rewrite E8. cbn [ret].
  exists w8. split; [reflexivity|].
  split; [unfold schedule; rewrite Hctl8, Hf8, Ho8; exact Hs6|].
  split.
  - rewrite Ht8. apply in_or_app. right. left. reflexivity.
  - rewrite Hq8.
    change (notifications (trace w7)) with (notifications (trace w6)).
    rewrite Hq6, Hq4, Hq3.
    rewrite (posted_url (ctl w) (ctl w7))
      by (apply (schedule_healthcheck_url w w6); exact Hs6).
    rewrite (posted_url (ctl w) (ctl w3))
      by (apply schedule_healthcheck_url; exact Hs3).
    rewrite app_assoc, <- posted_app. reflexivity.
Qed.

(** C3, as stated, fails: the relay confirms ON and then stops answering.
    No sample was collected, so the policy would double the 420-second
    off-time; instead the cycle returns [False], [current_off_time] is still
    420 and no state file has been written. *)
Lemma off_failure_discards_cycle :
  let w := with_ctl (set_is_running true __init__) fresh in
  let r := run_cycle stuck_on_cycle w in
  fst (calculate_dynamic_off_time (no_samples PUMP_ON_TIME) w) = Ok 840 /\
  fst r = Ok false /\
  current_off_time (ctl (snd r)) = 420 /\
  config_file (snd r) = Absent.
Proof.
  vm_compute. repeat split; reflexivity.
Qed.

(** C3 (amended): when the pump-OFF command fails after exhausting its
    three attempts, the cycle is aborted: the failure is logged, [run_cycle]
    returns [False], and the next off-time is neither computed nor
    persisted: [current_off_time], [manual_override] and the state file are
    as they were before the cycle. The failure is notified when a
    notification address is configured, and only then: the notifications of
    the cycle are the one that follows the ON command and the one of the
    failure. In the main loop the failed cycle is followed by an error line
    and five minutes of sleep, after which the loop goes on with its next
    iteration. *)
Theorem off_failure_aborts_cycle (env : cycle_env) (w : world) :
  confirms (env_on env) = true ->
  confirms (env_off env) = false ->
  Z.of_nat (length (env_polls env)) < 2 ^ 53 ->
  let r := run_cycle env w in
  fst r = Ok false /\
  config_file (snd r) = config_file w /\
  current_off_time (ctl (snd r)) = current_off_time (ctl w) /\
  manual_override (ctl (snd r)) = manual_override (ctl w) /\
  In (Log ERROR "Failed to turn pump OFF") (trace (snd r)) /\
  notifications (trace (snd r)) =
    posted (ctl w)
      ["ERROR Cycle {cycle_count}: Failed OFF";
       "Cycle {cycle_count}: Pump ON - monitoring performance"] ++
    notifications (trace w) /\
  (forall envs,
     is_running (ctl w) = true ->
     controller_loop (env :: envs) w =
     controller_loop envs (cool_down (snd r))).
Proof.
  intros Hon Hoff Hlen.
  destruct (off_failure_cycle env w Hon Hoff Hlen)
    as (w' & Hr & Hs & Hlog & Hnote).
  cbv zeta. rewrite Hr. cbn [fst snd].
  unfold schedule in Hs. injection Hs as Hfile _ Hoff_time Hoverride _.
  split; [reflexivity|]. split; [exact Hfile|]. split; [exact Hoff_time|].
  split; [exact Hoverride|]. split; [exact Hlog|]. split; [exact Hnote|].
  intros envs Hrun. cbn [controller_loop].
  unfold bind at 1, self. rewrite Hrun.
  unfold bind at 1, try_except, bind at 1. rewrite Hr. reflexivity.
Qed.

Lemma off_failure_aborts_cycle_witness :
  let w := with_ctl (set_is_running true __init__) (left_behind 1200 None) in
  let r := run_cycle stuck_on_cycle w in
  fst r = Ok false /\
  stored_off_time (snd r) = Some (JInt 1200) /\
  current_off_time (ctl (snd r)) = 420 /\
  controller_loop [stuck_on_cycle; blind_cycle] w =
  controller_loop [blind_cycle] (cool_down (snd r)).
Proof.
  cbv zeta.
  pose proof (off_failure_aborts_cycle stuck_on_cycle
                (with_ctl (set_is_running true __init__) (left_behind 1200 None))
                eq_refl eq_refl ltac:(cbn; lia))
    as (H1 & H2 & H3 & _ & _ & _ & H7).
  split; [exact H1|]. split; [|split; [exact H3|]].
  - unfold stored_off_time. rewrite H2. reflexivity.
  - apply H7. reflexivity.
Defined.

Lemma controller_loop_returns (envs : list cycle_env) (w : world) :
  exists w', controller_loop envs w = (Ok tt, w').
Proof.
  revert w. induction envs as [|env envs IH]; intros w.
  - now exists w.
  - cbn [controller_loop]. unfold bind at 1. unfold self. cbv iota beta.
    destruct (is_running (ctl w)); [|now exists w].
    unfold bind at 1, try_except, bind at 1.
    destruct (run_cycle env w) as [[[]|e] w1]; cbn [negb].
    + apply IH.
    + unfold bind, logger, emit, sleep. apply IH.
    + unfold bind at 1. cbn [logger emit].
      set (w2 := with_trace _ w1).
      destruct (send_health_check_effect "ERROR: {e}" (env_health env 2%nat) w2)
        as (w3 & E3 & _).
      unfold bind at 1. rewrite E3. unfold sleep. apply IH.
Qed.

(** X13: no exception escapes [run_controller], and the run always ends by
    commanding the pump off: whatever the cycles met, the last relay commands
    of the process are the OFF attempts of the shutdown, and a confirmed
    shutdown leaves [pump_status] at [off]. *)
Theorem run_controller_shuts_down (envs : list cycle_env)
  (shutdown : nat -> relay_reply) (w : world) :
  exists w' earlier,
    run_controller envs shutdown w = (Ok tt, w') /\
    relay_posts (trace w') =
      repeat (RelayPost "off") (attempts shutdown) ++ earlier /\
    (1 <= attempts shutdown <= 3)%nat /\
    (confirms shutdown = true -> pump_status (ctl w') = "off").
Proof.
  unfold run_controller.
  unfold bind at 1. rewrite startup_state_any.
  destruct (controller_loop_returns envs (snd (startup w))) as (w1 & E1).
  unfold bind at 1. rewrite E1.
  unfold bind at 1. cbn [logger emit].
  set (w2 := with_trace _ w1).
  destruct (control_pump_effect "off" shutdown w2)
    as (w3 & E3 & Hctl & _ & _ & Hr & Hatt).
  unfold bind at 1. rewrite E3. cbn [ret].
  exists w3, (relay_posts (trace w2)). split; [reflexivity|].
  split; [exact Hr|]. split; [exact Hatt|].
  intros Hc. rewrite Hctl, Hc. reflexivity.
Qed.

Lemma run_controller_shuts_down_witness :
  pump_status
    (ctl (snd (run_controller [blind_cycle] relay_ok
                 (with_off_time (2 ^ 1024) fresh)))) = "off".
Proof.
  destruct (run_controller_shuts_down [blind_cycle] relay_ok
              (with_off_time (2 ^ 1024) fresh))
    as (w' & earlier & H & _ & _ & Hoff).
  rewrite H. apply Hoff. reflexivity.
Defined.

End CycleOutcome.

(** ** What the monitoring window measures *)

Section Window.

Import Observe Scenario.

#[local] Instance spec_float_eq_dec : EqDecision spec_float.
Proof. solve_decision. Defined.
#[local] Instance num_eq_dec : EqDecision num.
Proof. solve_decision. Defined.
#[local] Instance exn_eq_dec : EqDecision exn.
Proof. solve_decision. Defined.
#[local] Instance result_num_eq_dec : EqDecision (result num).
Proof. solve_decision. Defined.
#[local] Instance regime_eq_dec : EqDecision regime.
Proof. solve_decision. Defined.

Lemma add_half_table :
  forallb
    (fun n => bool_decide (num_add (half_seconds n) (NFloat f0_5)
                           = Ok (half_seconds (S n))))
    (seq 0 1000) = true.
Proof. vm_compute. reflexivity. Qed.

(** Up to a thousand half-seconds add up without rounding. *)
Lemma add_half (n : nat) :
  (n < 1000)%nat ->
  num_add (half_seconds n) (NFloat f0_5) = Ok (half_seconds (S n)).
Proof.
  intros Hn. pose proof add_half_table as H.
  rewrite forallb_forall in H. specialize (H n).
  apply bool_decide_eq_true in H; [exact H|].
  apply in_seq. lia.
Qed.

Lemma sampling_loop_measures (polls : list power_reply) (n : nat)
  (rs : list sample) (w : world) :
  (n + length polls <= 1000)%nat ->
  returns (sampling_loop polls (half_seconds n) rs) w
    (fun acc w' =>
       acc = (half_seconds (n + count_working polls),
              rs ++ samples_of polls (clock w)) /\
       clock w' = clock w + 500 * Z.of_nat (length polls) /\
       ctl w' = ctl w /\ config_file w' = config_file w /\
       override_file w' = override_file w).
Proof.
  revert n rs w. induction polls as [|reply polls IH]; intros n rs w Hn.
  - cbn. step. rewrite Nat.add_0_r, app_nil_r. repeat split; lia.
  - cbn [length] in Hn. cbn [sampling_loop].
    assert (Hend :
      forall m rs' (w1 w' : world) acc,
        clock w1 = clock w + 500 -> ctl w1 = ctl w ->
        config_file w1 = config_file w -> override_file w1 = override_file w ->
        (m + count_working polls = n + count_working (reply :: polls))%nat ->
        rs' ++ samples_of polls (clock w + 500) =
          rs ++ samples_of (reply :: polls) (clock w) ->
        acc = (half_seconds (m + count_working polls),
               rs' ++ samples_of polls (clock w1)) /\
        clock w' = clock w1 + 500 * Z.of_nat (length polls) /\
        ctl w' = ctl w1 /\ config_file w' = config_file w1 /\
        override_file w' = override_file w1 ->
        acc = (half_seconds (n + count_working (reply :: polls)),
               rs ++ samples_of (reply :: polls) (clock w)) /\
        clock w' = clock w + 500 * Z.of_nat (length (reply :: polls)) /\
        ctl w' = ctl w /\ config_file w' = config_file w /\
        override_file w' = override_file w).
    { intros m rs' w1 w' acc Hc1 Hctl1 Hf1 Ho1 Hcount Hsamples
        (-> & Hc & Hctl & Hf & Ho).
      rewrite Hc1 in *. rewrite Hcount, Hsamples.
      split; [reflexivity|]. rewrite Hc, Hctl, Hf, Ho, Hctl1, Hf1, Ho1.
      cbn [length]. repeat split; lia. }
    destruct reply as [pmom imad volt| | |]; unfold get_power_data.
    + steps. cbn [power_w].
      destruct (num_gtb (NFloat pmom) (NInt WORKING_POWER_THRESHOLD)) eqn:Hg.
      * eapply returns_lift; [apply add_half; lia|]. steps.
        eapply returns_mono; [apply (IH (S n)); lia|].
        cbv beta. intros acc w'. cbn [fst snd].
        apply Hend; try reflexivity.
        -- unfold count_working. cbn [List.filter is_working]. rewrite Hg.
           cbn [length]. lia.
        -- rewrite <- app_assoc. reflexivity.
      * steps.
        eapply returns_mono; [apply (IH n); lia|].
        cbv beta. intros acc w'. cbn [fst snd].
        apply Hend; try reflexivity.
        -- unfold count_working. cbn [List.filter is_working]. rewrite Hg.
           reflexivity.
        -- rewrite <- app_assoc. reflexivity.
    + steps. eapply returns_mono; [apply (IH n); lia|].
      cbv beta. intros acc w'. cbn [fst snd].
      apply Hend; reflexivity.
    + steps. eapply returns_mono; [apply (IH n); lia|].
      cbv beta. intros acc w'. cbn [fst snd].
      apply Hend; reflexivity.
    + steps. eapply returns_mono; [apply (IH n); lia|].
      cbv beta. intros acc w'. cbn [fst snd].
      apply Hend; reflexivity.
Qed.


Lemma no_sample_no_work (polls : list power_reply) (t : Z) :
  samples_of polls t = [] -> count_working polls = 0%nat.
Proof.
  revert t. induction polls as [|reply polls IH]; intros t H; [reflexivity|].
  destruct reply; cbn in H; try discriminate;
    unfold count_working; cbn [List.filter is_working]; exact (IH _ H).
Qed.

Lemma samples_of_length (polls : list power_reply) (t : Z) :
  (length (samples_of polls t) <= length polls)%nat.
Proof.
  revert t. induction polls as [|reply polls IH]; intros t; [reflexivity|].
  destruct reply; cbn [samples_of length]; specialize (IH (t + 500)); lia.
Qed.

Lemma monitor_measures (duration : Z) (polls : list power_reply) (w : world) :
  (length polls <= 1000)%nat ->
  exists p w',
    monitor_pump_performance duration polls w = (Ok p, w') /\
    power_readings p = samples_of polls (clock w) /\
    working_time p = half_seconds (count_working polls) /\
    total_time p = duration /\
    clock w' = clock w + 500 * Z.of_nat (length polls) /\
    ctl w' = ctl w /\ config_file w' = config_file w /\
    override_file w' = override_file w.
Proof.
  intros Hlen.
  assert (H : returns (monitor_pump_performance duration polls) w
                (fun p w' =>
                   power_readings p = samples_of polls (clock w) /\
                   working_time p = half_seconds (count_working polls) /\
                   total_time p = duration /\
                   clock w' = clock w + 500 * Z.of_nat (length polls) /\
                   ctl w' = ctl w /\ config_file w' = config_file w /\
                   override_file w' = override_file w)).
  { unfold monitor_pump_performance. steps.
    eapply returns_mono; [apply (sampling_loop_measures polls 0 []); cbn; lia|].
    cbv beta. intros acc w1 (-> & Hc & Hctl & Hf & Ho).
    cbn [fst snd app Nat.add clock with_trace] in *.
    unfold summarize.
    destruct (samples_of polls (clock w)) as [|r rs] eqn:Hs.
    - step. rewrite (no_sample_no_work _ _ Hs). repeat split; assumption.
    - destruct (py_sum_nonempty (power_w r) (map power_w rs)) as [g Hg].
      step. eapply returns_lift; [exact Hg|].
      destruct (num_div_count g (length rs)) as [q Hq].
      { pose proof (samples_of_length polls (clock w)) as Hl.
        rewrite Hs in Hl. cbn [length] in Hl.
        assert (2 ^ 53 = 9007199254740992) by reflexivity. lia. }
      step. eapply returns_lift; [exact Hq|]. steps.
      cbn. repeat split; assumption. }
  destruct H as (p & w' & E & H). exists p, w'. split; [exact E|exact H].
Qed.

Lemma samples_of_answered (polls : list power_reply) (t : Z) :
  map reading (samples_of polls t) = answered polls.
Proof.
  revert t. induction polls as [|reply polls IH]; intros t; [reflexivity|].
  destruct reply; cbn [samples_of answered map]; rewrite ?IH; reflexivity.
Qed.

(** X14: the monitoring window keeps one reading per answered poll, in the
    order of the polls, with the power, current and voltage of the reply; a
    poll that is not answered (another status, another result, or an
    exception) leaves no reading. The window reports the duration it was
    asked for and leaves the controller and the files alone. *)
Theorem window_keeps_answered_polls (duration : Z)
  (polls : list power_reply) (w : world) :
  (length polls <= 1000)%nat ->
  exists p w',
    monitor_pump_performance duration polls w = (Ok p, w') /\
    map reading (power_readings p) = answered polls /\
    (length (power_readings p) <= length polls)%nat /\
    total_time p = duration /\
    ctl w' = ctl w /\ config_file w' = config_file w /\
    override_file w' = override_file w.
Proof.
  intros Hlen.
  destruct (monitor_measures duration polls w Hlen)
    as (p & w' & E & Hr & _ & Ht & _ & Hctl & Hf & Ho).
  exists p, w'. repeat split; try assumption.
  - rewrite Hr. apply samples_of_answered.
  - rewrite Hr. apply samples_of_length.
Qed.

Lemma window_keeps_answered_polls_witness :
  exists p w',
    monitor_pump_performance PUMP_ON_TIME
      [PowerOk f7_5 f0_5 f2_0; PowerFailure; PowerOk f2_5 f0_5 f2_0] fresh
    = (Ok p, w') /\
    map reading (power_readings p) = [(f7_5, f0_5, f2_0); (f2_5, f0_5, f2_0)].
Proof.
  destruct (window_keeps_answered_polls PUMP_ON_TIME
              [PowerOk f7_5 f0_5 f2_0; PowerFailure; PowerOk f2_5 f0_5 f2_0]
              fresh)
    as (p & w' & E & Hr & _).
  - cbn. lia.
  - exists p, w'. split; [exact E|exact Hr].
Defined.

(** X15: the working time of the summary is exactly half a second per
    reading above [WORKING_POWER_THRESHOLD] (200 W): the half-seconds are
    added as floats without rounding, and a window with no such reading
    reports the [int] 0. The policy therefore reads its regime off the count:
    fewer than 16 such readings is insufficient work, 16 to 30 the sweet spot,
    31 to 60 excessive, more than 60 heavy load. *)
Theorem working_time_counts_half_seconds (duration : Z)
  (polls : list power_reply) (w : world) :
  (length polls <= 1000)%nat ->
  exists p w',
    monitor_pump_performance duration polls w = (Ok p, w') /\
    working_time p = half_seconds (count_working polls) /\
    select_regime (working_time p) = regime_of_count (count_working polls) /\
    (count_working polls <= length polls)%nat.
Proof.
  intros Hlen.
  destruct (monitor_measures duration polls w Hlen)
    as (p & w' & E & _ & Hwt & _).
  exists p, w'. split; [exact E|]. split; [exact Hwt|].
  assert (Hcount : (count_working polls <= length polls)%nat).
  { unfold count_working. apply filter_length_le. }
  split; [|exact Hcount].
  rewrite Hwt.
  assert (Htable :
    forallb (fun n => bool_decide
               (select_regime (half_seconds n) = regime_of_count n))
      (seq 0 1001) = true) by (vm_compute; reflexivity).
  rewrite forallb_forall in Htable.
  specialize (Htable (count_working polls)).
  apply bool_decide_eq_true in Htable; [exact Htable|].
  apply in_seq. lia.
Qed.

Lemma working_time_counts_half_seconds_witness :
  exists p w',
    monitor_pump_performance PUMP_ON_TIME
      (repeat (PowerOk (lit 250 1) f1_0 (lit 240 1)) 16 ++
       repeat (PowerOk (lit 150 1) f1_0 (lit 240 1)) 74) fresh
    = (Ok p, w') /\
    working_time p = NFloat (lit 8 1) /\
    select_regime (working_time p) =
      Adjust f1_0 "optimal working time - maintaining interval".
Proof.
  destruct (working_time_counts_half_seconds PUMP_ON_TIME
              (repeat (PowerOk (lit 250 1) f1_0 (lit 240 1)) 16 ++
               repeat (PowerOk (lit 150 1) f1_0 (lit 240 1)) 74) fresh)
    as (p & w' & E & Hwt & Hreg & _).
  - cbn. lia.
  - exists p, w'. split; [exact E|]. split.
    + rewrite Hwt. reflexivity.
    + rewrite Hreg. reflexivity.
Defined.

End Window.

(** ** The state file *)

Section StateFile.

Import Observe Scenario.

(** X16: [load_config] never raises. Without a state file it changes
    nothing; with a file that does not parse it leaves the controller as it
    was and logs one error. *)
Theorem load_config_tolerates (w : world) :
  fst (load_config w) = Ok tt /\
  (config_file w = Absent -> load_config w = (Ok tt, w)) /\
  (config_file w = Garbled ->
   load_config w =
   (Ok tt, with_trace (Log ERROR "Error loading config" :: trace w) w)).
Proof.
  split; [|split].
  - unfold load_config. destruct (config_file w) eqn:Hf; [reflexivity| |].
    + unfold try_except, bind at 1, json_load. rewrite Hf. reflexivity.
    + unfold try_except.
      match goal with
      | |- context [match ?m w with _ => _ end] =>
          destruct (m w) as [[[]|e] w1]
      end; reflexivity.
  - intros Hf. unfold load_config. now rewrite Hf.
  - intros Hf. unfold load_config. rewrite Hf.
    unfold try_except, bind at 1, json_load. rewrite Hf. reflexivity.
Qed.

Lemma load_config_tolerates_witness :
  load_config (with_config_file Garbled (with_off_time 840 fresh)) =
  (Ok tt,
   with_trace [Log ERROR "Error loading config"]
     (with_config_file Garbled (with_off_time 840 fresh))).
Proof.
  apply (load_config_tolerates
           (with_config_file Garbled (with_off_time 840 fresh))).
  reflexivity.
Defined.

(** X17: what [save_config] writes, [load_config] reads back in any later
    process: the notification address, the weather key and the location of
    the saving controller are restored. *)
Theorem connection_round_trip (w later : world) :
  config_writable w = true ->
  config_file later = config_file (snd (save_config w)) ->
  let c' := ctl (snd (load_config later)) in
  healthcheck_url c' = healthcheck_url (ctl w) /\
  weather_api_key c' = weather_api_key (ctl w) /\
  location c' = location (ctl w) /\
  hd_error (trace (snd (load_config later))) =
    Some (Log INFO "Config loaded: off_time={current_off_time}s").
Proof.
  intros Hw. unfold save_config, bind, self, now. rewrite Hw.
  cbn [snd with_config_file config_file]. intros Hfile. cbv zeta.
  unfold load_config. rewrite Hfile.
  unfold try_except, bind, json_load. rewrite Hfile.
  destruct (manual_override (ctl w)) as [v|]; repeat split; reflexivity.
Qed.

Lemma connection_round_trip_witness :
  let w := with_ctl (set_healthcheck_url "https://hc.example/ping"
                       (set_location "Leeds,UK" __init__)) fresh in
  let c' := ctl (snd (load_config (new_process (snd (save_config w))))) in
  healthcheck_url c' = "https://hc.example/ping" /\ location c' = "Leeds,UK".
Proof.
  cbv zeta.
  pose proof (connection_round_trip
                (with_ctl (set_healthcheck_url "https://hc.example/ping"
                             (set_location "Leeds,UK" __init__)) fresh)
                (new_process
                   (snd (save_config
                           (with_ctl (set_healthcheck_url "https://hc.example/ping"
                                        (set_location "Leeds,UK" __init__))
                              fresh))))
                eq_refl eq_refl) as (H1 & _ & H3 & _).
  split; [exact H1|exact H3].
Defined.




End StateFile.

(** ** Commands: parsing, and the way from the command line to the loop *)

Section Commands.

Import Observe Scenario.

Lemma save_config_after (w1 : world) :
  override_file w1 = None ->
  exists w',
    save_config w1 = (Ok tt, w') /\ ctl w' = ctl w1 /\
    override_file w' = None /\ clock w' = clock w1 /\
    config_writable w' = config_writable w1 /\
    (config_writable w1 = true -> mirrors w' /\ trace w' = trace w1).
Proof.
  intros Ho. pose proof (save_config_mirrors w1) as Hm.
  unfold save_config, bind, self, now in *.
  destruct (config_writable w1) eqn:Hw; cbn in *;
    eexists; (split; [reflexivity|]); cbn;
    repeat split; auto; try congruence.
Qed.

Lemma space_lower (c : ascii) :
  isspace (lower_ascii c) = isspace c.
Proof. destruct c as [[] [] [] [] [] [] [] []]; reflexivity. Qed.

Lemma digit_not_space (c : ascii) (n : nat) :
  Ascii.is_nat c = Some n -> isspace c = false.
Proof. destruct c as [[] [] [] [] [] [] [] []]; (discriminate || reflexivity). Qed.

Lemma digit_lower (c : ascii) (n : nat) :
  Ascii.is_nat c = Some n -> lower_ascii c = c.
Proof. destruct c as [[] [] [] [] [] [] [] []]; (discriminate || reflexivity). Qed.

Lemma lower_app (s t : string) : lower (s +:+ t) = lower s +:+ lower t.
Proof.
  induction s as [|c s IH]; [reflexivity|].
  change (String c s +:+ t) with (String c (s +:+ t)).
  cbn [lower]. rewrite IH. reflexivity.
Qed.

Lemma lower_rev_app (s acc : string) :
  lower (String.rev_app s acc) = String.rev_app (lower s) (lower acc).
Proof.
  revert acc. induction s as [|c s IH]; intros acc; [reflexivity|].
  cbn [String.rev_app lower]. rewrite IH. reflexivity.
Qed.

Lemma lower_lstrip (s : string) : lower (lstrip s) = lstrip (lower s).
Proof.
  induction s as [|c s IH]; [reflexivity|].
  cbn [lstrip lower]. rewrite space_lower.
  destruct (isspace c); [exact IH|reflexivity].
Qed.

(** [strip] and [lower] commute. *)
Lemma lower_strip (s : string) : lower (strip s) = strip (lower s).
Proof.
  unfold strip, String.rev.
  rewrite lower_rev_app, lower_lstrip, lower_rev_app, lower_lstrip.
  reflexivity.
Qed.

Lemma rev_app_rev_app (s a b : string) :
  String.rev_app (String.rev_app s a) b = String.rev_app a (s +:+ b).
Proof.
  revert a b. induction s as [|c s IH]; intros a b; [reflexivity|].
  cbn [String.rev_app]. rewrite IH. reflexivity.
Qed.

Lemma app_empty_r (s : string) : s +:+ "" = s.
Proof.
  induction s as [|c s IH]; [reflexivity|].
  change (String c s +:+ "") with (String c (s +:+ "")). now rewrite IH.
Qed.

Lemma digits_lower (d : string) (acc m : Z) :
  digits_value acc d = Some m -> lower d = d.
Proof.
  revert acc. induction d as [|c d IH]; intros acc H; [reflexivity|].
  cbn [digits_value] in H. cbn [lower].
  destruct (Ascii.is_nat c) as [n|] eqn:Hc; [|discriminate].
  rewrite (digit_lower _ _ Hc), (IH _ H). reflexivity.
Qed.

Lemma digits_lstrip_rev (c : ascii) (d acc : string) (a m : Z) :
  digits_value a (String c d) = Some m ->
  lstrip (String.rev_app (String c d) acc) = String.rev_app (String c d) acc.
Proof.
  revert c acc a. induction d as [|c' d IH]; intros c acc a H.
  - cbn [digits_value] in H. cbn [String.rev_app lstrip].
    destruct (Ascii.is_nat c) as [n|] eqn:Hc; [|discriminate].
    now rewrite (digit_not_space _ _ Hc).
  - cbn [digits_value] in H.
    destruct (Ascii.is_nat c) as [n|] eqn:Hc; [|discriminate].
    change (String.rev_app (String c (String c' d)) acc)
      with (String.rev_app (String c' d) (String c acc)).
    eapply IH. cbn [digits_value]. exact H.
Qed.

Lemma digits_one_word (d cur : string) (a m : Z) :
  digits_value a d = Some m ->
  split_go (Some cur) d = [String.rev_app cur d].
Proof.
  revert cur a. induction d as [|c d IH]; intros cur a H.
  - reflexivity.
  - cbn [digits_value] in H.
    destruct (Ascii.is_nat c) as [n|] eqn:Hc; [|discriminate].
    cbn [split_go]. rewrite (digit_not_space _ _ Hc).
    cbn [from_option]. rewrite (IH _ _ H). reflexivity.
Qed.

Lemma parse_digits_nonempty (d : string) (m : Z) :
  parse_digits d = Some m ->
  exists c t, d = String c t /\ digits_value 0 d = Some m.
Proof. destruct d as [|c t]; [discriminate|]. intros H. now exists c, t. Qed.

Lemma digits_value_bound (d : string) (acc m : Z) :
  digits_value acc d = Some m -> 0 <= acc -> 0 <= m.
Proof.
  revert acc. induction d as [|c d IH]; intros acc H Hacc.
  - cbn in H. injection H as <-. exact Hacc.
  - cbn [digits_value] in H.
    destruct (Ascii.is_nat c) as [n|]; [|discriminate].
    apply (IH _ H). lia.
Qed.

(** A well-formed [wait] command is already in the form the poll
    normalises to, and splits into its two words. *)
Lemma wait_text (d : string) (m : Z) :
  parse_digits d = Some m ->
  lower (strip ("wait " +:+ d)) = "wait " +:+ d /\
  split ("wait " +:+ d) = ["wait"; d].
Proof.
  intros H. destruct (parse_digits_nonempty _ _ H) as (c & t & -> & Hd).
  split.
  - rewrite lower_strip, lower_app, (digits_lower _ _ _ Hd).
    unfold strip, String.rev.
    change (lstrip (lower "wait " +:+ String c t))
      with (lower "wait " +:+ String c t).
    change (String.rev_app (lower "wait " +:+ String c t) "")
      with (String.rev_app (String c t) " tiaw").
    rewrite (digits_lstrip_rev _ _ _ _ _ Hd), rev_app_rev_app, app_empty_r.
    reflexivity.
  - unfold split.
    change (split_go None ("wait " +:+ String c t))
      with ("wait" :: split_go None (String c t)).
    cbn [split_go]. cbn [digits_value] in Hd.
    destruct (Ascii.is_nat c) as [n|] eqn:Hc; [|discriminate].
    rewrite (digit_not_space _ _ Hc). cbn [from_option].
    rewrite (digits_one_word _ _ _ _ Hd). reflexivity.
Qed.

Lemma check_wait (w : world) (text d : string) (minutes : Z) :
  override_file w = Some text ->
  lower (strip text) = "wait " +:+ d ->
  parse_digits d = Some minutes ->
  exists w',
    check_override_commands w = (Ok tt, w') /\
    ctl w' = set_manual_override (Some (minutes * 60)) (ctl w) /\
    override_file w' = None /\
    0 <= minutes /\
    (config_writable w = true -> mirrors w').
Proof.
  intros Hfile Htext Hd. unfold check_override_commands. rewrite Hfile, Htext.
  destruct (wait_text _ _ Hd) as [_ Hwords].
  unfold apply_command.
  change (String.eqb ("wait " +:+ d) "stop") with false.
  change (String.eqb ("wait " +:+ d) "normal") with false.
  change (String.prefix "wait" ("wait " +:+ d)) with true.
  cbn match. rewrite Hwords, Hd.
  edestruct (save_config_after
               (with_override_file None
                  (with_trace (Log INFO "OVERRIDE: Set wait time to {minutes} minutes"
                               :: trace w)
                     (with_ctl (set_manual_override (Some (minutes * 60)) (ctl w)) w))))
    as (w' & Hs & Hctl & Ho & _ & _ & Hm); [reflexivity|].
  exists w'. split; [exact Hs|]. rewrite Hctl.
  split; [reflexivity|]. split; [exact Ho|]. split.
  - destruct (parse_digits_nonempty _ _ Hd) as (c & t & _ & Hv).
    apply (digits_value_bound _ _ _ Hv). lia.
  - intros Hw. apply Hm. exact Hw.
Qed.

(** X19: a deposited [wait <digits>], in any letter case and with
    surrounding white space, sets [manual_override] to [60 * minutes] seconds
    with no upper or lower bound, leaves the rest of the controller alone, is
    removed from the channel and is saved with the state. *)
Theorem wait_command_sets_override (w : world) (text d : string)
  (minutes : Z) :
  override_file w = Some text ->
  lower (strip text) = "wait " +:+ d ->
  parse_digits d = Some minutes ->
  exists w',
    check_override_commands w = (Ok tt, w') /\
    ctl w' = set_manual_override (Some (minutes * 60)) (ctl w) /\
    override_file w' = None /\
    0 <= minutes /\
    (config_writable w = true -> mirrors w').
Proof. apply check_wait. Qed.

Lemma wait_command_sets_override_witness :
  exists w',
    check_override_commands
      (with_override_file (Some " Wait 2880 ") fresh) = (Ok tt, w') /\
    manual_override (ctl w') = Some 172800 /\ override_file w' = None.
Proof.
  destruct (wait_command_sets_override
              (with_override_file (Some " Wait 2880 ") fresh)
              " Wait 2880 " "2880" 2880 eq_refl eq_refl eq_refl)
    as (w' & H & Hctl & Ho & _).
  exists w'. split; [exact H|]. split; [now rewrite Hctl|exact Ho].
Defined.

(** X20: a deposited ASCII text that is none of the commands (an unknown
    word, or a [wait] whose argument is missing, is not made of digits, or is
    followed by more words) changes nothing in the controller and logs
    nothing, but is removed from the channel all the same, and the state is
    saved. *)
Theorem unrecognised_command_discarded (w : world) (text : string) :
  override_file w = Some text ->
  ascii_text text = true ->
  command_effect (lower (strip text)) = None ->
  (String.prefix "wait" (lower (strip text)) = true ->
   wait_minutes (lower (strip text)) = None) ->
  exists w',
    check_override_commands w = (Ok tt, w') /\
    ctl w' = ctl w /\
    override_file w' = None /\
    (config_writable w = true -> mirrors w' /\ trace w' = trace w).
Proof.
  intros Hfile _ Heff Hwait. unfold check_override_commands. rewrite Hfile.
  remember (lower (strip text)) as command eqn:Hcommand.
  unfold command_effect in Heff. unfold apply_command.
  destruct (String.eqb command "stop"); [discriminate|].
  destruct (String.eqb command "normal"); [discriminate|].
  destruct (String.eqb command "pump_now"); [discriminate|].
  assert (Hnone : forall m : M unit,
            m = ret tt ->
            exists w',
              (m;; (fun w' => (Ok tt, with_override_file None w'));;
               save_config) w = (Ok tt, w') /\
              ctl w' = ctl w /\ override_file w' = None /\
              (config_writable w = true -> mirrors w' /\ trace w' = trace w)).
  { intros m ->.
    edestruct (save_config_after (with_override_file None w))
      as (w' & Hs & Hctl & Ho & _ & _ & Hm); [reflexivity|].
    exists w'. split; [exact Hs|]. split; [exact Hctl|].
    split; [exact Ho|]. exact Hm. }
  apply Hnone.
  destruct (String.prefix "wait" command); [|reflexivity].
  specialize (Hwait eq_refl). unfold wait_minutes in Hwait.
  destruct (split command) as [|x [|arg [|y l]]]; try reflexivity.
  now rewrite Hwait.
Qed.

Lemma unrecognised_command_discarded_witness :
  exists w',
    check_override_commands
      (with_override_file (Some "wait 1.5") (with_override (Some 600) fresh))
    = (Ok tt, w') /\
    manual_override (ctl w') = Some 600 /\ override_file w' = None.
Proof.
  destruct (unrecognised_command_discarded
              (with_override_file (Some "wait 1.5")
                 (with_override (Some 600) fresh))
              "wait 1.5" eq_refl eq_refl eq_refl (fun _ => eq_refl))
    as (w' & H & Hctl & Ho & _).
  exists w'. split; [exact H|]. split; [now rewrite Hctl|exact Ho].
Defined.

Lemma command_effect_cases (command : string)
  (f : controller -> controller) :
  command_effect command = Some f ->
  command = "stop" \/ command = "normal" \/ command = "pump_now".
Proof.
  unfold command_effect.
  destruct (String.eqb_spec command "stop"); [auto|].
  destruct (String.eqb_spec command "normal"); [auto|].
  destruct (String.eqb_spec command "pump_now"); [auto|discriminate].
Qed.

(** X21: the script started with [stop], [normal] or [pump_now] on its
    command line (in any letter case) only deposits the command: it runs no
    cycle, sends nothing to the relay and leaves the state file alone. A
    running controller that shares the channel then applies the command at
    its next poll. *)
Theorem cli_command_reaches_controller (arg : string) (rest : list string)
  (envs : list cycle_env) (shutdown : nat -> relay_reply)
  (f : controller -> controller) (disk running : world) :
  command_effect (lower arg) = Some f ->
  exists deposited,
    main (arg :: rest) envs shutdown disk = (Ok tt, deposited) /\
    config_file deposited = config_file disk /\
    trace deposited = [] /\
    (override_file running = override_file deposited ->
     exists w',
       check_override_commands running = (Ok tt, w') /\
       ctl w' = f (ctl running) /\ override_file w' = None).
Proof.
  intros Heff. unfold main.
  assert (Hnorm : lower (strip (lower arg)) = lower arg).
  { destruct (command_effect_cases _ _ Heff) as [->|[->| ->]]; reflexivity. }
  assert (Hplain : String.eqb (lower arg) "stop" || String.eqb (lower arg) "normal"
                   || String.eqb (lower arg) "pump_now" = true).
  { destruct (command_effect_cases _ _ Heff) as [->|[->| ->]]; reflexivity. }
  rewrite Hplain. eexists. split; [reflexivity|].
  split; [reflexivity|]. split; [reflexivity|].
  cbn [override_file with_override_file]. intros Hshared.
  destruct (check_command running (lower arg) f Hshared)
    as (w' & H & Hctl & Ho & _); [now rewrite Hnorm|].
  exists w'. auto.
Qed.

Lemma cli_command_reaches_controller_witness :
  exists deposited w',
    main ["STOP"] [] relay_ok (with_off_time 840 fresh) = (Ok tt, deposited) /\
    check_override_commands
      (with_override_file (override_file deposited) fresh) = (Ok tt, w') /\
    is_running (ctl w') = false.
Proof.
  destruct (cli_command_reaches_controller
              "STOP" [] [] relay_ok (set_is_running false)
              (with_off_time 840 fresh)
              (with_override_file (Some "stop") fresh) eq_refl)
    as (deposited & Hmain & _ & _ & Hpoll).
  injection Hmain as <-.
  destruct (Hpoll eq_refl) as (w' & H & Hctl & _).
  eexists. exists w'. split; [reflexivity|]. split; [exact H|].
  now rewrite Hctl.
Defined.

(** X22: the script started with [wait] and a number of minutes deposits
    the two words joined by one space, without running a cycle; a running
    controller that shares the channel then sets its override to
    [60 * minutes] seconds at its next poll. *)
Theorem cli_wait_reaches_controller (arg d : string) (minutes : Z)
  (envs : list cycle_env) (shutdown : nat -> relay_reply)
  (disk running : world) :
  lower arg = "wait" ->
  parse_digits d = Some minutes ->
  exists deposited,
    main [arg; d] envs shutdown disk = (Ok tt, deposited) /\
    config_file deposited = config_file disk /\
    trace deposited = [] /\
    (override_file running = override_file deposited ->
     exists w',
       check_override_commands running = (Ok tt, w') /\
       manual_override (ctl w') = Some (minutes * 60) /\
       override_file w' = None).
Proof.
  intros Harg Hd. unfold main. rewrite Harg.
  change (String.eqb "wait" "stop" || String.eqb "wait" "normal"
          || String.eqb "wait" "pump_now") with false.
  change (String.prefix "wait" "wait") with true. cbn match.
  eexists. split; [reflexivity|]. split; [reflexivity|].
  split; [reflexivity|].
  cbn [override_file with_override_file]. intros Hshared.
  destruct (check_wait running _ d minutes Hshared) as (w' & H & Hctl & Ho & _).
  - change (String.concat " " [arg; d]) with (arg +:+ " " +:+ d).
    rewrite lower_strip, !lower_app, Harg.
    destruct (parse_digits_nonempty _ _ Hd) as (c & t & _ & Hv).
    rewrite (digits_lower _ _ _ Hv).
    destruct (wait_text _ _ Hd) as [Ht _].
    rewrite lower_strip, lower_app, (digits_lower _ _ _ Hv) in Ht.
    exact Ht.
  - exact Hd.
  - exists w'. split; [exact H|]. split; [now rewrite Hctl|exact Ho].
Qed.

Lemma cli_wait_reaches_controller_witness :
  exists deposited w',
    main ["Wait"; "90"] [] relay_ok fresh = (Ok tt, deposited) /\
    check_override_commands
      (with_override_file (override_file deposited) fresh) = (Ok tt, w') /\
    manual_override (ctl w') = Some 5400.
Proof.
  destruct (cli_wait_reaches_controller
              "Wait" "90" 90 [] relay_ok fresh
              (with_override_file (Some "Wait 90") fresh) eq_refl eq_refl)
    as (deposited & Hmain & _ & _ & Hpoll).
  injection Hmain as <-.
  destruct (Hpoll eq_refl) as (w' & H & Hov & _).
  eexists. exists w'. split; [reflexivity|]. split; [exact H|exact Hov].
Defined.

End Commands.

(** ** The policy on the range of off-times it produces *)

Section PolicyTable.

Import Observe Scenario.

Lemma py_int_val (x : num) (m e : Z) :
  num_val x = XFin m e ->
  py_int x = Ok (if 0 <=? e then m * 2 ^ e else Z.quot m (2 ^ (- e))).
Proof.
  destruct x as [z|f]; cbn [num_val py_int].
  - intros [= <- <-]. cbn. now rewrite Z.mul_1_r.
  - now intros ->.
Qed.

(** The limits followed by [int()], on a finite number. *)
Lemma clamp_trunc_spec (x : num) (m e : Z) :
  num_val x = XFin m e ->
  py_int (py_max (NInt MIN_OFF_TIME) (py_min (NInt MAX_OFF_TIME) x)) =
  Ok (clamp_trunc x).
Proof.
  intros Hv. unfold clamp_trunc, py_max, py_min, num_gtb. rewrite Hv.
  rewrite (num_ltb_int_r x), Hv.
  assert (Hk : 0 <= e \/ (e < 0 /\ 0 < 2 ^ (- e))).
  { destruct (Z.le_gt_cases 0 e); [left; assumption|right].
    split; [lia|apply Z.pow_pos_nonneg; lia]. }
  unfold MIN_OFF_TIME, MAX_OFF_TIME.
  destruct Hk as [He|[He Hk]].
  - destruct (Z.leb_spec 0 e); [|lia].
    destruct (Z.ltb_spec (m * 2 ^ e) 86400).
    + rewrite (num_ltb_int_l x), Hv.
      destruct (Z.leb_spec 0 e); [|lia].
      destruct (Z.ltb_spec 300 (m * 2 ^ e)).
      * rewrite (py_int_val _ _ _ Hv).
        destruct (Z.leb_spec 0 e); [|lia]. f_equal. lia.
      * cbn [py_int]. f_equal. lia.
    + change (num_ltb (NInt 300) (NInt 86400)) with true.
      cbn [py_int]. f_equal. lia.
  - destruct (Z.leb_spec 0 e); [lia|].
    rewrite Z.shiftr_div_pow2 by lia.
    destruct (Z.ltb_spec m (86400 * 2 ^ (- e))).
    + rewrite (num_ltb_int_l x), Hv.
      destruct (Z.leb_spec 0 e); [lia|].
      destruct (Z.ltb_spec (300 * 2 ^ (- e)) m).
      * rewrite (py_int_val _ _ _ Hv).
        destruct (Z.leb_spec 0 e); [lia|]. f_equal.
        rewrite Z.quot_div_nonneg by nia.
        assert (300 <= m / 2 ^ (- e)) by (apply Z.div_le_lower_bound; lia).
        assert (m / 2 ^ (- e) < 86400) by (apply Z.div_lt_upper_bound; lia).
        lia.
      * cbn [py_int]. f_equal.
        assert (m / 2 ^ (- e) <= 300) by (apply Z.div_le_upper_bound; lia).
        lia.
    + change (num_ltb (NInt 300) (NInt 86400)) with true.
      cbn [py_int]. f_equal.
      assert (86400 <= m / 2 ^ (- e)) by (apply Z.div_le_lower_bound; lia).
      lia.
Qed.

Lemma clamp_trunc_finite (x : num) :
  0 <= clamp_trunc x -> exists m e, num_val x = XFin m e.
Proof.
  unfold clamp_trunc. destruct (num_val x) as [|s|m e]; try lia. eauto.
Qed.

Lemma tail_spec (wd : option weather) (x : num) :
  0 <= policy_tail (severity wd) x ->
  weather_and_limits wd x = Ok (policy_tail (severity wd) x).
Proof.
  unfold policy_tail, severity, weather_and_limits.
  assert (H : forall r : result num,
            0 <= match r with Ok y => clamp_trunc y | Raise _ => -1 end ->
            rbind r (fun y =>
                       py_int (py_max (NInt MIN_OFF_TIME)
                                 (py_min (NInt MAX_OFF_TIME) y))) =
            Ok match r with Ok y => clamp_trunc y | Raise _ => -1 end).
  { intros [y|err] Hy; [|lia]. cbn [rbind].
    destruct (clamp_trunc_finite _ Hy) as (m & e & Hv).
    apply (clamp_trunc_spec _ _ _ Hv). }
  destruct wd as [w|]; [|apply (H (Ok x))].
  destruct (rainy w); [|apply (H (Ok x))].
  destruct (heavy_rain w); apply (H (num_mul x (NFloat _))).
Qed.

Lemma policy_rows_spec (lo : Z) (n : positive) :
  policy_rows lo n = true ->
  forall c, lo <= c < lo + Z.pos n -> policy_row c = true.
Proof.
  unfold policy_rows.
  set (step := fun st : Z * bool =>
                 (fst st + 1, snd st && policy_row (fst st))).
  assert (H : fst (Pos.iter step (lo, true) n) = lo + Z.pos n /\
              (snd (Pos.iter step (lo, true) n) = true ->
               forall c, lo <= c < lo + Z.pos n -> policy_row c = true)).
  { induction n as [|n IH] using Pos.peano_ind.
    - cbn [Pos.iter step fst snd andb]. split; [reflexivity|].
      intros H c Hc. assert (c = lo) as -> by lia. exact H.
    - rewrite Pos.iter_succ. destruct IH as [Hfst Hsnd].
      unfold step at 1 3. cbn [fst snd]. rewrite Hfst. split; [lia|].
      intros H c Hc. apply andb_prop in H as [H1 H2].
      destruct (Z.eq_dec c (lo + Z.pos n)) as [->|Hne]; [exact H2|].
      apply (Hsnd H1). lia. }
  exact (proj2 H).
Qed.

(** The three scaling arms, in each weather, at every off-time within the
    limits. *)
Lemma policy_table : policy_rows 300 86101 = true.
Proof. vm_cast_no_check (eq_refl true). Qed.

Lemma policy_row_holds (c : Z) :
  MIN_OFF_TIME <= c <= MAX_OFF_TIME -> policy_row c = true.
Proof.
  unfold MIN_OFF_TIME, MAX_OFF_TIME. intros Hc.
  apply (policy_rows_spec 300 86101 policy_table). lia.
Qed.

Lemma severity_le_2 (wd : option weather) : (severity wd <= 2)%nat.
Proof.
  unfold severity. destruct wd as [w|]; [|lia].
  destruct (rainy w), (heavy_rain w); lia.
Qed.

Lemma wetter_is_shorter_spec (x : num) (a b : option weather) :
  wetter_is_shorter x (policy_tail 0 x) = true ->
  (severity a <= severity b)%nat ->
  exists ra rb,
    weather_and_limits a x = Ok ra /\ weather_and_limits b x = Ok rb /\
    MIN_OFF_TIME <= rb <= ra.
Proof.
  unfold wetter_is_shorter. intros H Hab.
  apply andb_prop in H as [H Hld]. apply andb_prop in H as [Hh Hhl].
  apply Z.leb_le in Hh, Hhl, Hld. unfold MIN_OFF_TIME in *.
  pose proof (tail_spec a x) as Ha. pose proof (tail_spec b x) as Hb.
  pose proof (severity_le_2 a). pose proof (severity_le_2 b).
  exists (policy_tail (severity a) x), (policy_tail (severity b) x).
  destruct (severity a) as [|[|[|na]]]; [| | |lia];
    destruct (severity b) as [|[|[|nb]]]; try lia;
    (split; [apply Ha; lia|]); (split; [apply Hb; lia|]); lia.
Qed.

Lemma select_regime_cases (wt : num) :
  select_regime wt = HeavyLoad \/
  exists f reason, select_regime wt = Adjust f reason /\
                   (f = f2_0 \/ f = f1_0 \/ f = f0_7).
Proof.
  unfold select_regime.
  destruct (num_ltb wt _); [right; eauto 6|].
  destruct (num_leb wt (NInt OPTIMAL_RUN_THRESHOLD)); [right; eauto 6|].
  destruct (num_leb wt (NInt 30)); [right; eauto 6|left; reflexivity].
Qed.

Lemma calculate_adjust (p : performance) (w : world) (f : spec_float)
  (reason : string) :
  truthy (manual_override (ctl w)) = false ->
  select_regime (working_time p) = Adjust f reason ->
  fst (calculate_dynamic_off_time p w) =
  adjusted_off_time (current_off_time (ctl w)) f (weather_data (ctl w)).
Proof.
  intros Hno Hreg. rewrite (calculate_no_override _ _ Hno).
  apply (adaptive_adjust_result _ _ _ _ Hreg).
Qed.

Lemma dry_tail (wd : option weather) (x : num) :
  severity wd = 0%nat -> 0 <= policy_tail 0 x ->
  weather_and_limits wd x = Ok (policy_tail 0 x).
Proof. intros H H0. rewrite <- H in *. now apply tail_spec. Qed.

Ltac open_row c Hc :=
  let Hrow := fresh "Hrow" in
  pose proof (policy_row_holds c Hc) as Hrow; unfold policy_row in Hrow;
  destruct (num_mul (NInt c) (NFloat f2_0)) as [doubled|] eqn:E2;
    [|discriminate];
  destruct (num_mul (NInt c) (NFloat f1_0)) as [kept|] eqn:E1;
    [|discriminate];
  destruct (num_mul (NInt c) (NFloat f0_7)) as [shortened|] eqn:E7;
    [|discriminate];
  cbv zeta in Hrow;
  apply andb_prop in Hrow as [Hrow Hw7];
  apply andb_prop in Hrow as [Hrow Hw1];
  apply andb_prop in Hrow as [Hrow Hw2];
  apply andb_prop in Hrow as [Hrow Hhi];
  apply andb_prop in Hrow as [Hrow Hlo];
  apply andb_prop in Hrow as [Hdouble Hkeep];
  apply Z.eqb_eq in Hdouble, Hkeep; apply Z.leb_le in Hlo, Hhi.

(** X23: with no override, no rain and an off-time within the limits, a
    cycle whose working time is in the sweet spot (8 to 15 seconds) keeps the
    off-time exactly: the detour through [float] loses nothing. *)
Theorem optimal_work_keeps_interval (p : performance) (w : world) :
  truthy (manual_override (ctl w)) = false ->
  num_ltb (working_time p) (NInt SHORT_RUN_THRESHOLD) = false ->
  num_leb (working_time p) (NInt OPTIMAL_RUN_THRESHOLD) = true ->
  severity (weather_data (ctl w)) = 0%nat ->
  MIN_OFF_TIME <= current_off_time (ctl w) <= MAX_OFF_TIME ->
  fst (calculate_dynamic_off_time p w) = Ok (current_off_time (ctl w)).
Proof.
  intros Hno Hlt Hle Hdry Hc.
  rewrite (calculate_adjust p w f1_0
             "optimal working time - maintaining interval" Hno)
    by (unfold select_regime; now rewrite Hlt, Hle).
  unfold adjusted_off_time. open_row (current_off_time (ctl w)) Hc.
  cbn [rbind]. unfold MIN_OFF_TIME in Hc.
  rewrite (dry_tail _ _ Hdry) by lia. now rewrite Hkeep.
Qed.

Lemma optimal_work_keeps_interval_witness :
  fst (calculate_dynamic_off_time (worked (NFloat (lit 12 1)))
         (with_off_time 3360 fresh)) = Ok 3360.
Proof.
  apply (optimal_work_keeps_interval (worked (NFloat (lit 12 1)))
           (with_off_time 3360 fresh)); try reflexivity.
  unfold MIN_OFF_TIME, MAX_OFF_TIME. cbn. lia.
Defined.

(** X24: with no override, no rain and an off-time within the limits, a
    cycle that worked less than 8 seconds doubles the off-time exactly, up to
    the 24-hour limit. *)
Theorem insufficient_work_doubles (p : performance) (w : world) :
  truthy (manual_override (ctl w)) = false ->
  num_ltb (working_time p) (NInt SHORT_RUN_THRESHOLD) = true ->
  severity (weather_data (ctl w)) = 0%nat ->
  MIN_OFF_TIME <= current_off_time (ctl w) <= MAX_OFF_TIME ->
  fst (calculate_dynamic_off_time p w) =
  Ok (Z.min (2 * current_off_time (ctl w)) MAX_OFF_TIME).
Proof.
  intros Hno Hlt Hdry Hc.
  rewrite (calculate_adjust p w f2_0 "insufficient working time" Hno)
    by (unfold select_regime; now rewrite Hlt).
  unfold adjusted_off_time. open_row (current_off_time (ctl w)) Hc.
  cbn [rbind]. unfold MIN_OFF_TIME, MAX_OFF_TIME in *.
  rewrite (dry_tail _ _ Hdry) by lia. now rewrite Hdouble.
Qed.

Lemma insufficient_work_doubles_witness :
  fst (calculate_dynamic_off_time (worked (NInt 0))
         (with_off_time 53760 fresh)) = Ok 86400.
Proof.
  apply (insufficient_work_doubles (worked (NInt 0))
           (with_off_time 53760 fresh)); try reflexivity.
  unfold MIN_OFF_TIME, MAX_OFF_TIME. cbn. lia.
Defined.

(** X25: with no override, no rain and an off-time within the limits, a
    cycle that worked more than 15 and at most 30 seconds shortens the
    off-time to seven tenths, rounded down, or to one second less than that
    (the factor 0.7 is not exact in binary), and never below 300 seconds; an
    off-time above 300 seconds always gets shorter. *)
Theorem excessive_work_shortens (p : performance) (w : world) :
  truthy (manual_override (ctl w)) = false ->
  num_leb (working_time p) (NInt OPTIMAL_RUN_THRESHOLD) = false ->
  num_leb (working_time p) (NInt 30) = true ->
  severity (weather_data (ctl w)) = 0%nat ->
  MIN_OFF_TIME <= current_off_time (ctl w) <= MAX_OFF_TIME ->
  exists next,
    fst (calculate_dynamic_off_time p w) = Ok next /\
    Z.max MIN_OFF_TIME (7 * current_off_time (ctl w) / 10 - 1) <= next /\
    next <= Z.max MIN_OFF_TIME (7 * current_off_time (ctl w) / 10) /\
    (MIN_OFF_TIME < current_off_time (ctl w) ->
     next < current_off_time (ctl w)).
Proof.
  intros Hno Hgt Hle Hdry Hc.
  assert (Hlt : num_ltb (working_time p) (NInt SHORT_RUN_THRESHOLD) = false).
  { revert Hgt. rewrite num_ltb_int_r, num_leb_int_r.
    unfold SHORT_RUN_THRESHOLD, OPTIMAL_RUN_THRESHOLD.
    destruct (num_val (working_time p)) as [|s|m e]; try reflexivity;
      [now intros ->|].
    assert (0 < 2 ^ (- e) \/ 0 <= e) as [Hk|He].
    { destruct (Z.le_gt_cases 0 e); [now right|left].
      apply Z.pow_pos_nonneg; lia. }
    - destruct (0 <=? e); intros Hx; apply Z.leb_gt in Hx; apply Z.ltb_ge;
        nia.
    - destruct (Z.leb_spec 0 e) as [_|Hneg]; [|lia].
      intros Hx; apply Z.leb_gt in Hx; apply Z.ltb_ge; lia. }
  rewrite (calculate_adjust p w f0_7 "excessive working time" Hno)
    by (unfold select_regime; now rewrite Hlt, Hgt, Hle).
  unfold adjusted_off_time. open_row (current_off_time (ctl w)) Hc.
  cbn [rbind]. unfold MIN_OFF_TIME in *.
  exists (policy_tail 0 shortened).
  split; [apply (dry_tail _ _ Hdry); lia|].
  split; [exact Hlo|]. split; [exact Hhi|].
  intros Hbig.
  assert (7 * current_off_time (ctl w) / 10 < current_off_time (ctl w))
    by (apply Z.div_lt_upper_bound; lia).
  lia.
Qed.

Lemma excessive_work_shortens_witness :
  exists next,
    fst (calculate_dynamic_off_time (worked (NFloat (lit 20 1)))
           (with_off_time 86400 fresh)) = Ok next /\
    60479 <= next <= 60480 /\ next < 86400.
Proof.
  destruct (excessive_work_shortens (worked (NFloat (lit 20 1)))
              (with_off_time 86400 fresh))
    as (next & H & Hlo & Hhi & Hlt).
  - reflexivity.
  - reflexivity.
  - reflexivity.
  - reflexivity.
  - unfold MIN_OFF_TIME, MAX_OFF_TIME. cbn. lia.
  - exists next. split; [exact H|].
    change (current_off_time (ctl (with_off_time 86400 fresh)))
      with 86400 in *.
    change (7 * 86400 / 10) with 60480 in *.
    unfold MIN_OFF_TIME in *. lia.
Defined.

(** X26: with no override and an off-time within the limits, rain never
    lengthens the wait: of two weather snapshots, the wetter one (none or
    dry, light rain, heavy rain) gives an off-time that is at most the other's
    and still at least 300 seconds, whatever the working time. *)
Theorem rain_never_lengthens (p : performance) (w : world)
  (drier wetter : option weather) :
  truthy (manual_override (ctl w)) = false ->
  MIN_OFF_TIME <= current_off_time (ctl w) <= MAX_OFF_TIME ->
  (severity drier <= severity wetter)%nat ->
  exists a b,
    fst (calculate_dynamic_off_time p
           (with_ctl (set_weather_data drier (ctl w)) w)) = Ok a /\
    fst (calculate_dynamic_off_time p
           (with_ctl (set_weather_data wetter (ctl w)) w)) = Ok b /\
    MIN_OFF_TIME <= b <= a.
Proof.
  intros Hno Hc Hsev.
  destruct (select_regime_cases (working_time p))
    as [Hreg|(f & reason & Hreg & Hf)].
  - exists 300, 300.
    rewrite !calculate_no_override by exact Hno.
    rewrite !(adaptive_heavy _ _ Hreg). cbn [fst].
    unfold MIN_OFF_TIME. repeat split; lia.
  - rewrite !(calculate_adjust p _ f reason) by assumption.
    cbn [ctl with_ctl current_off_time weather_data set_weather_data].
    unfold adjusted_off_time. open_row (current_off_time (ctl w)) Hc.
    destruct Hf as [->|[->| ->]].
    + rewrite E2. cbn [rbind]. now apply wetter_is_shorter_spec.
    + rewrite E1. cbn [rbind]. now apply wetter_is_shorter_spec.
    + rewrite E7. cbn [rbind]. now apply wetter_is_shorter_spec.
Qed.

Lemma rain_never_lengthens_witness :
  exists a b,
    fst (calculate_dynamic_off_time (worked (NFloat (lit 12 1)))
           (with_ctl (set_weather_data None (ctl (with_off_time 3360 fresh)))
              (with_off_time 3360 fresh))) = Ok a /\
    fst (calculate_dynamic_off_time (worked (NFloat (lit 12 1)))
           (with_ctl (set_weather_data (Some (raining 5))
                        (ctl (with_off_time 3360 fresh)))
              (with_off_time 3360 fresh))) = Ok b /\
    MIN_OFF_TIME <= b <= a.
Proof.
  apply (rain_never_lengthens (worked (NFloat (lit 12 1)))
           (with_off_time 3360 fresh) None (Some (raining 5))).
  - reflexivity.
  - unfold MIN_OFF_TIME, MAX_OFF_TIME. cbn. lia.
  - vm_compute. lia.
Defined.

End PolicyTable.
